(** * Chatbot backend: message pipeline, chat service and cache accessors

    A shallow embedding of
      - [src/server/config/redis.js]      (cache accessors),
      - the [AIService] class             (message pipeline),
      - [src/server/models/Chat.js]       (conversation documents),
      - the [ChatService] class           (conversation operations),
      - the [AnalyticsService] class      (what it computes by itself),
    followed by the properties of the specification that concern them.

    JavaScript code is embedded in a state-and-exception monad over a
    [World] that holds everything the code can observe or change: the
    cache, the document store, the clock, the outcomes of awaited
    external commands, the [Math.random] draws and the fields of the two
    service singletons.  [async]/[await] is sequential composition: one
    request is followed from start to end. *)

From Stdlib Require Import QArith Qround Lqa ZArith Lia String Ascii List.
From stdpp Require Import base option gmap list strings sorting.

Local Open Scope string_scope.

(* ================================================================== *)
(** * The JavaScript runtime *)
(* ================================================================== *)

Module JS.

(** Exceptions, by constructor of the thrown object. *)
Inductive error : Type :=
| TypeError (msg : string)
| ReferenceError (msg : string)
| SyntaxError (msg : string)
| Error (msg : string).

Inductive result (A : Type) : Type :=
| Ok (a : A)
| Throw (e : error).
Arguments Ok {A} a.
Arguments Throw {A} e.

(** Values a caller may pass where the code expects a string.  Numbers
    are finite rationals; [NaN] and the infinities are not modelled. *)
Inductive value : Type :=
| Undefined
| Null
| Num (q : Q)
| Str (s : string).

Section Monad.
Context {W : Type}.

Definition M (A : Type) : Type := W → result A * W.

Definition ret {A} (a : A) : M A := λ w, (Ok a, w).

Definition throw {A} (e : error) : M A := λ w, (Throw e, w).

Definition bind {A B} (m : M A) (k : A → M B) : M B :=
  λ w, match m w with
       | (Ok a, w') => k a w'
       | (Throw e, w') => (Throw e, w')
       end.

(** [try { body } catch (e) { handler }]: the effects of [body] up to
    the throw stay. *)
Definition try_catch {A} (body : M A) (handler : error → M A) : M A :=
  λ w, match body w with
       | (Ok a, w') => (Ok a, w')
       | (Throw e, w') => handler e w'
       end.

Definition get : M W := λ w, (Ok w, w).
Definition gets {A} (f : W → A) : M A := λ w, (Ok (f w), w).
Definition modify (f : W → W) : M unit := λ w, (Ok tt, f w).

(** A promise that is not awaited: it runs, its rejection is not seen
    by the caller. *)
Definition detached {A} (m : M A) : M unit :=
  λ w, (Ok tt, snd (m w)).
End Monad.
Arguments M : clear implicits.

(** [console.log], [console.error]: no effect on the world. *)
Definition console_log {W} (msg : string) : M W unit := ret tt.

(** ** Strings.  A string is its UTF-8 byte sequence; the functions
    below are the ASCII ones ([toLowerCase] leaves bytes above 127
    alone, [trim] removes the ASCII white space). *)

Definition lower_ascii (c : ascii) : ascii :=
  let n := nat_of_ascii c in
  if andb (Nat.leb 65 n) (Nat.leb n 90) then ascii_of_nat (n + 32) else c.

Fixpoint toLowerCase (s : string) : string :=
  match s with
  | EmptyString => EmptyString
  | String c s' => String (lower_ascii c) (toLowerCase s')
  end.

Definition is_space (c : ascii) : bool :=
  let n := nat_of_ascii c in
  orb (Nat.eqb n 32) (andb (Nat.leb 9 n) (Nat.leb n 13)).

Fixpoint trimStart (s : string) : string :=
  match s with
  | String c s' => if is_space c then trimStart s' else s
  | EmptyString => EmptyString
  end.

Fixpoint rev_string (s acc : string) : string :=
  match s with
  | EmptyString => acc
  | String c s' => rev_string s' (String c acc)
  end.

Definition trimEnd (s : string) : string :=
  rev_string (trimStart (rev_string s EmptyString)) EmptyString.

Definition trim (s : string) : string := trimEnd (trimStart s).

Fixpoint startsWith (p s : string) : bool :=
  match p, s with
  | EmptyString, _ => true
  | String a p', String b s' => if Ascii.eqb a b then startsWith p' s' else false
  | String _ _, EmptyString => false
  end.

(** [s.includes(p)] *)
Fixpoint includes (s p : string) : bool :=
  if startsWith p s then true
  else match s with
       | EmptyString => false
       | String _ s' => includes s' p
       end.

(** [s.endsWith('.')] *)
Fixpoint endsWithDot (s : string) : bool :=
  match s with
  | EmptyString => false
  | String c EmptyString => Ascii.eqb c "."
  | String _ s' => endsWithDot s'
  end.

(** [s.replace(/\./g, r)] *)
Fixpoint replaceAllDots (s r : string) : string :=
  match s with
  | EmptyString => EmptyString
  | String c s' =>
      if Ascii.eqb c "." then r ++ replaceAllDots s' r
      else String c (replaceAllDots s' r)
  end.

(** [s.replace(/\.$/, r)]: without the [m] flag, [$] is the end of the
    input. *)
Fixpoint replaceFinalDot (s r : string) : string :=
  match s with
  | EmptyString => EmptyString
  | String c EmptyString => if Ascii.eqb c "." then r else s
  | String c s' => String c (replaceFinalDot s' r)
  end.

(** [s.slice(0, -1)] *)
Fixpoint dropLast (s : string) : string :=
  match s with
  | EmptyString => EmptyString
  | String _ EmptyString => EmptyString
  | String c s' => String c (dropLast s')
  end.

(** What [s.replace(pattern, replacement)] puts in the place of a match
    of a pattern without groups: in [replacement], [$$] stands for a
    dollar, [$&] for the match, [$`] for what precedes it in [s] and
    [$'] for what follows it; any other [$] stands for itself. *)
Fixpoint substitution (matched before after replacement : string) : string :=
  match replacement with
  | EmptyString => EmptyString
  | String a tail =>
      if Ascii.eqb a "$" then
        match tail with
        | String c rest =>
            if Ascii.eqb c "$"
            then String "$" (substitution matched before after rest)
            else if Ascii.eqb c "&"
            then matched ++ substitution matched before after rest
            else if Ascii.eqb c "`"
            then before ++ substitution matched before after rest
            else if Ascii.eqb c "'"
            then after ++ substitution matched before after rest
            else String a (substitution matched before after tail)
        | EmptyString => String a EmptyString
        end
      else String a (substitution matched before after tail)
  end.

(** Truthiness of a string and of a number. *)
Definition truthy_string (s : string) : bool :=
  match s with EmptyString => false | _ => true end.

Definition truthy_num (q : Q) : bool := negb (Qeq_bool q 0).

(** [Math.max(a, b)], [a > b], [a < b] on finite numbers. *)
Definition Math_max (a b : Q) : Q := if Qle_bool a b then b else a.
Definition gt (a b : Q) : bool := negb (Qle_bool a b).
Definition lt (a b : Q) : bool := negb (Qle_bool b a).

(** [[...new Set(xs)]]: first occurrences, in order. *)
Fixpoint unique (xs : list string) : list string :=
  match xs with
  | [] => []
  | x :: xs' => x :: filter (λ y, negb (String.eqb x y)) (unique xs')
  end.

(** [xs.slice(-n)] *)
Definition lastN {A} (n : nat) (xs : list A) : list A :=
  drop (length xs - n) xs.

End JS.

Import JS.

Declare Scope js_scope.
Delimit Scope js_scope with js.
Notation "'await' x <- m 'then' k" := (JS.bind m (λ x, k))
  (at level 10, x name, m at level 100, k at level 200,
   format "'[v' 'await'  x  <-  m  'then' '/' k ']'") : js_scope.
Notation "'run' m 'then' k" := (JS.bind m (λ _, k))
  (at level 10, m at level 100, k at level 200,
   format "'[v' 'run'  m  'then' '/' k ']'") : js_scope.
Local Open Scope js_scope.

(* ================================================================== *)
(** * Data model *)
(* ================================================================== *)

(** ** Results of the message pipeline *)

Inductive Sentiment : Type := positive | negative | neutral.

Definition sentiment_name (s : Sentiment) : string :=
  match s with
  | positive => "positive"
  | negative => "negative"
  | neutral => "neutral"
  end.

(** [{ name, confidence, source }]; the pipeline's own fallback intent
    carries no [source]. *)
Record Intent : Type := mkIntent {
  i_name : string;
  i_confidence : Q;
  i_source : option string
}.

(** [{ type, value, confidence }] *)
Record Entity : Type := mkEntity {
  e_type : string;
  e_value : string;
  e_confidence : Q
}.

(** The object [processMessage] builds and caches. *)
Record AIResult : Type := mkAIResult {
  r_response : string;
  r_intent : Intent;
  r_entities : list Entity;
  r_sentiment : Sentiment;
  r_confidence : Q;
  r_responseTime : Z;
  r_cached : bool
}.

(** One turn of the rolling history: [{ message, intent, timestamp }]. *)
Record HistoryEntry : Type := mkHistoryEntry {
  h_message : value;
  h_intent : option Intent;
  h_timestamp : Z
}.

(** The per-(user, room) context object.  A field that the object does
    not have reads as [undefined], here [None]. *)
Record Context : Type := mkContext {
  conversationHistory : option (list HistoryEntry);
  userPreferences : option (list (string * string));
  lastIntent : option Intent;
  lastEntities : option (list Entity);
  lastUpdated : option Z
}.

(** ** Conversations ([messageSchema], [chatSchema] of Chat.js).  The
    fields [context], [settings], [tags], [category] and [metadata], which
    no operation below reads, are left out.  [roomId] is the key of the
    collection (it is [required] and [unique]). *)

Inductive Status : Type := active | paused | ended | archived.

Record Participant : Type := mkParticipant {
  p_userId : string;
  p_role : string;
  p_joinedAt : Z;
  p_leftAt : option Z
}.

Record Feedback : Type := mkFeedback {
  f_rating : option Q;
  f_comment : option string;
  f_timestamp : Z
}.

Record Message : Type := mkMessage {
  m_id : nat;
  m_userId : string;
  m_message : string;
  m_response : string;
  m_intent : string;
  m_entities : list Entity;
  m_sentiment : Sentiment;
  m_confidence : Q;
  m_responseTime : Q;
  m_feedback : option Feedback;
  m_createdAt : Z
}.

Record Analytics : Type := mkAnalytics {
  totalMessages : nat;
  averageResponseTime : Q;
  userSatisfaction : Q;
  intentAccuracy : Q;
  lastActivity : Z
}.

Record Chat : Type := mkChat {
  participants : list Participant;
  messages : list Message;
  status : Status;
  analytics : Analytics
}.

(** What [populate('participants.userId', ...)] puts in the place of a
    participant's [userId]: the User document with that id, or [null]
    when there is none. *)
Inductive UserView : Type := AsDocument | AsNull.

(** A conversation in memory: a mongoose document (with [save] and the
    instance methods) when it was read from the store; a plain object
    (fields only) when it was parsed from the cache, be it the JSON of a
    chat or of something else.  [populated] tells what stands in the place
    of [userId] in the first participants, one by one; the participants
    beyond them, pushed since the document was read, hold their id, and
    so do all of them when the query did not populate.  The store holds
    the ids: a write leaves a populated path that was not assigned as
    it is. *)
Inductive ChatObj : Type :=
| Document (roomId : string) (c : Chat) (populated : list UserView)
| PlainChat (c : Chat) (populated : list UserView)
| PlainOther.

(** [this.activeChats] entries: [{ chatId, participants, lastActivity }];
    [chatId] is the key. *)
Record ActiveChat : Type := mkActiveChat {
  ac_participants : list string;
  ac_lastActivity : Z
}.

(** ** The cache and the world *)

(** Objects the services put into the cache. *)
Inductive CacheValue : Type :=
| CVResult (r : AIResult)
| CVContext (c : Context)
| CVChat (c : Chat) (populated : list UserView).

(** The argument of [JSON.stringify]: an object it can write, or one on
    which it throws (a cyclic structure). *)
Inductive Cacheable : Type :=
| Plain (v : CacheValue)
| Circular.

(** A string held by the cache server: the JSON text of a value, or any
    other text. *)
Inductive Stored : Type :=
| Json (v : CacheValue)
| Garbage (s : string).

(** The connected client: [isReady] and the server's table, each entry
    with the time (ms) at which it expires. *)
Record RedisClient : Type := mkRedisClient {
  isReady : bool;
  entries : gmap string (Stored * Z)
}.

(** The outcome of one awaited external command (cache, store, text
    generation): whether it rejects, and how long it takes. *)
Record io_event : Type := mkEvent {
  io_fails : bool;
  io_ms : Z
}.

(** A request to [openai.chat.completions.create]. *)
Record CompletionRequest : Type := mkRequest {
  q_model : string;
  q_system : string;
  q_user : value;
  q_max_tokens : Z;
  q_temperature : Q
}.

(** [{ message, intent, entities, sentiment, response, userId, timestamp }] *)
Record LearningDatum : Type := mkLearningDatum {
  ld_message : value;
  ld_intent : Intent;
  ld_entities : list Entity;
  ld_sentiment : Sentiment;
  ld_response : string;
  ld_userId : string;
  ld_timestamp : Z
}.

Record World : Type := mkWorld {
  redisClient : option RedisClient;       (* [let redisClient] of redis.js *)
  clock : Z;                              (* [Date.now()] *)
  pending : list io_event;                (* outcomes of the next commands *)
  randoms : list Q;                       (* the next [Math.random()] draws *)
  openai_log : list CompletionRequest;    (* requests sent, latest first *)
  learningData : list LearningDatum;      (* [AIService.learningData] *)
  chats : gmap string Chat;               (* the Chat collection, by roomId *)
  users : gmap string string;             (* the User collection: id to role *)
  next_oid : nat;                         (* the next subdocument [_id] *)
  activeChats : gmap string ActiveChat    (* [ChatService.activeChats] *)
}.

Definition set_redisClient (c : option RedisClient) (w : World) : World :=
  mkWorld c (clock w) (pending w) (randoms w) (openai_log w)
          (learningData w) (chats w) (users w) (next_oid w) (activeChats w).

Definition set_clock (t : Z) (w : World) : World :=
  mkWorld (redisClient w) t (pending w) (randoms w) (openai_log w)
          (learningData w) (chats w) (users w) (next_oid w) (activeChats w).

Definition set_pending (p : list io_event) (w : World) : World :=
  mkWorld (redisClient w) (clock w) p (randoms w) (openai_log w)
          (learningData w) (chats w) (users w) (next_oid w) (activeChats w).

Definition set_randoms (r : list Q) (w : World) : World :=
  mkWorld (redisClient w) (clock w) (pending w) r (openai_log w)
          (learningData w) (chats w) (users w) (next_oid w) (activeChats w).

Definition set_openai_log (l : list CompletionRequest) (w : World) : World :=
  mkWorld (redisClient w) (clock w) (pending w) (randoms w) l
          (learningData w) (chats w) (users w) (next_oid w) (activeChats w).

Definition set_learningData (l : list LearningDatum) (w : World) : World :=
  mkWorld (redisClient w) (clock w) (pending w) (randoms w) (openai_log w)
          l (chats w) (users w) (next_oid w) (activeChats w).

Definition set_chats (c : gmap string Chat) (w : World) : World :=
  mkWorld (redisClient w) (clock w) (pending w) (randoms w) (openai_log w)
          (learningData w) c (users w) (next_oid w) (activeChats w).

Definition set_next_oid (n : nat) (w : World) : World :=
  mkWorld (redisClient w) (clock w) (pending w) (randoms w) (openai_log w)
          (learningData w) (chats w) (users w) n (activeChats w).

Definition set_activeChats (a : gmap string ActiveChat) (w : World) : World :=
  mkWorld (redisClient w) (clock w) (pending w) (randoms w) (openai_log w)
          (learningData w) (chats w) (users w) (next_oid w) a.

Abbreviation JSM := (M World).

(** [Date.now()], [new Date()] *)
Definition Date_now : JSM Z := gets clock.

(** [Math.random()]: the next draw (0 when none is scripted). *)
Definition Math_random : JSM Q :=
  λ w, match randoms w with
       | [] => (Ok 0%Q, w)
       | r :: rest => (Ok r, set_randoms rest w)
       end.

(** An awaited external command: time passes, and the command resolves
    or rejects.  With nothing scripted it resolves at once. *)
Definition command : JSM unit :=
  λ w, match pending w with
       | [] => (Ok tt, w)
       | ev :: rest =>
           let w' := set_pending rest (set_clock (clock w + io_ms ev) w) in
           if io_fails ev then (Throw (Error "command rejected"), w')
           else (Ok tt, w')
       end.

(** A synchronous library call: its outcome, no effect on the world. *)
Definition lift {A} (r : result A) : JSM A := λ w, (r, w).

(* ================================================================== *)
(** * src/server/config/redis.js *)
(* ================================================================== *)

Module Redis.

(** [JSON.stringify(value)] *)
Definition JSON_stringify (value : Cacheable) : JSM Stored :=
  match value with
  | Plain v => ret (Json v)
  | Circular => throw (TypeError "Converting circular structure to JSON")
  end.

(** [JSON.parse(text)] *)
Definition JSON_parse (text : Stored) : JSM CacheValue :=
  match text with
  | Json v => ret v
  | Garbage _ => throw (SyntaxError "Unexpected token in JSON")
  end.

Definition truthy_stored (text : Stored) : bool :=
  match text with
  | Json _ => true
  | Garbage s => truthy_string s
  end.

(** [redisClient.setEx(key, seconds, text)] *)
Definition client_setEx (cl : RedisClient) (key : string) (seconds : Z)
    (text : Stored) : JSM unit :=
  run command then
  await now <- Date_now then
  modify (set_redisClient
            (Some (mkRedisClient (isReady cl)
                     (<[key := (text, (now + seconds * 1000)%Z)]> (entries cl))))).

(** [redisClient.get(key)]: [null] for a missing or expired key. *)
Definition client_get (cl : RedisClient) (key : string) : JSM (option Stored) :=
  run command then
  await now <- Date_now then
  ret (match entries cl !! key with
       | Some (text, expires) =>
           if (now <? expires)%Z then Some text else None
       | None => None
       end).

(** [redisClient.del(key)] *)
Definition client_del (cl : RedisClient) (key : string) : JSM unit :=
  run command then
  modify (set_redisClient
            (Some (mkRedisClient (isReady cl) (delete key (entries cl))))).

Definition setCache (key : string) (value : Cacheable) (expireTime : Z)
    : JSM bool :=
  try_catch
    (await client <- gets redisClient then
     match client with
     | Some cl =>
         if isReady cl then
           await text <- JSON_stringify value then
           run client_setEx cl key expireTime text then
           ret true
         else ret false
     | None => ret false
     end)
    (λ error,
       run console_log "Redis set error:" then
       ret false).

Definition getCache (key : string) : JSM (option CacheValue) :=
  try_catch
    (await client <- gets redisClient then
     match client with
     | Some cl =>
         if isReady cl then
           await value <- client_get cl key then
           match value with
           | Some text =>
               if truthy_stored text then
                 await v <- JSON_parse text then
                 ret (Some v)
               else ret None
           | None => ret None
           end
         else ret None
     | None => ret None
     end)
    (λ error,
       run console_log "Redis get error:" then
       ret None).

Definition deleteCache (key : string) : JSM bool :=
  try_catch
    (await client <- gets redisClient then
     match client with
     | Some cl =>
         if isReady cl then
           run client_del cl key then
           ret true
         else ret false
     | None => ret false
     end)
    (λ error,
       run console_log "Redis delete error:" then
       ret false).

(** [redisClient.flushAll()] *)
Definition client_flushAll (cl : RedisClient) : JSM unit :=
  run command then
  modify (set_redisClient (Some (mkRedisClient (isReady cl) ∅))).

Definition clearCache : JSM bool :=
  try_catch
    (await client <- gets redisClient then
     match client with
     | Some cl =>
         if isReady cl then
           run client_flushAll cl then
           ret true
         else ret false
     | None => ret false
     end)
    (λ error,
       run console_log "Redis clear error:" then
       ret false).

(** The argument of [retry_strategy]: [error] with its [code] when there
    is one, [total_retry_time] and [attempt]. *)
Record RetryOptions : Type := mkRetryOptions {
  ro_error : option string;
  ro_total_retry_time : Q;
  ro_attempt : Q
}.

(** What [retry_strategy] returns: an [Error], [undefined], or a number
    of milliseconds. *)
Inductive RetryDecision : Type :=
| GiveUp (message : string)
| NoRetry
| RetryAfter (ms : Q).

(** [Math.min(a, b)] *)
Definition Math_min (a b : Q) : Q := if Qle_bool a b then a else b.

(** The [retry_strategy] that [connectRedis] gives to [createClient]. *)
Definition retry_strategy (options : RetryOptions) : RetryDecision :=
  if match ro_error options with
     | Some code => String.eqb code "ECONNREFUSED"
     | None => false
     end
  then GiveUp "Redis server refused connection"
  else if gt (ro_total_retry_time options) (1000 * 60 * 60)
  then GiveUp "Retry time exhausted"
  else if gt (ro_attempt options) 10
  then NoRetry
  else RetryAfter (Math_min (ro_attempt options * 100) 3000).

End Redis.

Import Redis.

(* ================================================================== *)
(** * The AIService class *)
(* ================================================================== *)

Module AIService.

(** ** The libraries and the configuration the service is built on *)

(** One row of [getClassifications]: [{ label, value }]. *)
Record Classification : Type := mkClassification {
  c_label : string;
  c_value : Q
}.

(** [natural.BayesClassifier], trained. *)
Record Classifier : Type := mkClassifier {
  classify : value → result string;
  getClassifications : value → result (list Classification)
}.

(** The six views of a [compromise] document, each as [.out('array')]. *)
Record TaggedDoc : Type := mkTaggedDoc {
  people : list string;
  places : list string;
  organizations : list string;
  dates : list string;
  numbers : list string;
  urls : list string
}.

(** [choices[i].message], with its [content] ([null] allowed). *)
Record ChoiceMessage : Type := mkChoiceMessage {
  content : option string
}.

Record ChatCompletion : Type := mkChatCompletion {
  choices : list ChoiceMessage
}.

Record Env : Type := mkEnv {
  (** [this.intentClassifier]; [null] when [initializeModels] failed *)
  intentClassifier : option Classifier;
  (** [this.entityExtractor] *)
  entityExtractor : option (value → result TaggedDoc);
  (** [sentiment.analyze(message).score] *)
  sentiment_score : value → result Q;
  (** [process.env.OPENAI_API_KEY], the same at load time and later *)
  OPENAI_API_KEY : option string;
  (** what the text-generation service answers to a request *)
  completion_service : CompletionRequest → result ChatCompletion
}.

Definition templates_greeting : list string :=
  [ "Hello! 👋 How can I help you today? I'm here to assist with questions, provide information, or just chat!";
    "Hi there! 😊 I'm your AI assistant and I'm excited to help. What would you like to explore or work on together?";
    "Hey! Great to see you. I'm ready to help with whatever you need - questions, tasks, or just conversation.";
    "Greetings! I'm your AI companion. What would you like to learn about or discuss today?" ].

Definition templates_farewell : list string :=
  [ "Goodbye! Have a wonderful day ahead! 🌟";
    "See you later! Feel free to come back anytime if you need help.";
    "Take care! I'll be here when you need assistance or want to chat again.";
    "Bye! It was great chatting with you. Come back soon! 👋" ].

Definition templates_help : list string :=
  [ "I'm here to help! I can answer questions, provide information, assist with tasks, help with problem-solving, or just be a great conversation partner. What specific area do you need help with?";
    "Absolutely! I'm your AI assistant and I'm ready to help. I can provide information, answer questions, help with various topics, or just chat. What would you like to work on?";
    "I'm glad you asked! I'm designed to help with a wide range of topics. Whether you need information, have questions, want to explore something new, or just need someone to talk to, I'm here for you. What can I help you with today?" ].

Definition templates_question : list string :=
  [ "That's an interesting question! I'd be happy to help you with that. Could you provide a bit more detail so I can give you the most accurate and helpful response?";
    "Great question! I'm here to help. To give you the best answer, could you tell me a bit more about what you're looking for?";
    "I'd love to help with that! To provide you with the most relevant information, could you share a bit more context about your question?" ].

Definition templates_complaint : list string :=
  [ "I'm sorry to hear you're experiencing an issue. Let me help you resolve this problem together.";
    "I understand your frustration. Let's work together to find a solution and get this sorted out.";
    "I apologize for the inconvenience. Let me assist you in finding a resolution to this problem." ].

Definition templates_compliment : list string :=
  [ "Thank you! 😊 I'm glad I could help and I appreciate your kind words.";
    "You're welcome! I'm happy to assist and I really appreciate your feedback.";
    "Thank you! It's my pleasure to help you. I'm here whenever you need assistance." ].

Definition templates_information_request : list string :=
  [ "I'd be happy to provide you with that information! Let me gather the details you need.";
    "Great! I can help you with that information. Let me find the most relevant details for you.";
    "Absolutely! I'll get you that information right away. What specific details are you looking for?" ].

Definition templates_task_request : list string :=
  [ "I'm ready to help you with that task! Let me understand what you need and guide you through it.";
    "Great! I can assist you with that. Let me break down what we need to do and help you accomplish it.";
    "I'd love to help you with that task! Let me understand your requirements and provide the best assistance." ].

Definition templates_learning : list string :=
  [ "Learning is wonderful! I'm excited to help you explore this topic. What specific aspect would you like to dive into?";
    "That's a great topic to learn about! I'm here to help you understand it better. What would you like to focus on?";
    "I love helping people learn! Let me guide you through this topic. What's your current level of understanding?" ].

Definition templates_creative : list string :=
  [ "Creativity is amazing! I'd love to help you explore ideas and develop your creative project.";
    "That sounds like a wonderful creative endeavor! I'm here to help you brainstorm and develop your ideas.";
    "I'm excited to help with your creative project! Let's explore possibilities and bring your vision to life." ].

(** [this.responseTemplates], as [loadResponseTemplates] fills it. *)
Definition responseTemplates : gmap string (list string) :=
  <["creative" := templates_creative]> (
  <["learning" := templates_learning]> (
  <["task_request" := templates_task_request]> (
  <["information_request" := templates_information_request]> (
  <["compliment" := templates_compliment]> (
  <["complaint" := templates_complaint]> (
  <["question" := templates_question]> (
  <["help" := templates_help]> (
  <["farewell" := templates_farewell]> (
  <["greeting" := templates_greeting]> (∅)))))))))).

Definition generic_fallbacks : list string :=
  [ "I want to make sure I understand you correctly. Could you rephrase that or provide a bit more context?";
    "I'm here to help, but I need to understand better what you're looking for. Could you try explaining it differently?";
    "I'd love to assist you with that! To give you the most helpful response, could you provide a bit more detail?";
    "I'm still learning and want to make sure I get this right. Could you help me understand what you need by explaining it another way?" ].

Definition fallback_question : string :=
  "I'd love to help with your question! To give you the best answer, could you provide a bit more context or rephrase it in a different way?".

Definition fallback_information_request : string :=
  "I'm here to help you find that information! Could you be more specific about what you're looking for?".

Definition fallback_task_request : string :=
  "I'm ready to help you with that task! Let me understand what you need - could you break it down into smaller steps?".

Definition fallback_learning : string :=
  "I'm excited to help you learn! To make this most helpful, could you tell me what you already know about this topic?".

Definition fallback_creative : string :=
  "I'd love to help with your creative project! Could you share more details about what you're working on?".

Definition fallback_negative : string :=
  "I understand this might be frustrating. Let me try to help you in a different way. Could you explain what you need in simpler terms?".

Definition processing_apology : string :=
  "I apologize, but I'm having trouble processing your message right now. Could you please try rephrasing it?".

Definition generation_apology : string :=
  "I apologize, but I'm having trouble generating a response right now. Could you please try again?".

Definition classifier_instruction : string :=
  "You are an intent classifier. Analyze the user message and return only the intent category. Choose from: greeting, farewell, help, question, complaint, compliment, information_request, task_request, or other.".

Definition supportive_sentence : string :=
  ". I'm here to help you through this.".


(** The identifiers bound at the top level of the module that defines
    [AIService] (its [require]s, [let]s, [const]s and the class). *)
Definition module_scope : list string :=
  [ "natural"; "compromise"; "Sentiment"; "OpenAI"; "getCache"; "setCache";
    "openai"; "sentiment"; "tokenizer"; "AIService" ].

(** A call [f(...)] of a free identifier [f]: a [ReferenceError] unless
    the module binds [f]. *)
Definition call_free {A} (f : string) (body : JSM A) : JSM A :=
  if bool_decide (f ∈ module_scope) then body
  else throw (ReferenceError (f ++ " is not defined")).

(** A method call on [receiver], which may be [null]. *)
Definition receiver {A} (r : option A) : JSM A :=
  match r with
  | Some a => ret a
  | None => throw (TypeError "Cannot read properties of null")
  end.

(** [message.toLowerCase()] *)
Definition String_toLowerCase (message : value) : JSM string :=
  match message with
  | Str s => ret (toLowerCase s)
  | _ => throw (TypeError "message.toLowerCase is not a function")
  end.

(** What [processMessage] returns: the object it has just built, or
    [{ ...cachedResponse, responseTime, cached: true }]. *)
Inductive Reply : Type :=
| Generated (r : AIResult)
| FromCache (cachedResponse : CacheValue) (responseTime : Z).

Definition reply_response (r : Reply) : option string :=
  match r with
  | Generated a => Some (r_response a)
  | FromCache (CVResult a) _ => Some (r_response a)
  | FromCache _ _ => None
  end.

Definition reply_intent (r : Reply) : option Intent :=
  match r with
  | Generated a => Some (r_intent a)
  | FromCache (CVResult a) _ => Some (r_intent a)
  | FromCache _ _ => None
  end.

Definition reply_entities (r : Reply) : option (list Entity) :=
  match r with
  | Generated a => Some (r_entities a)
  | FromCache (CVResult a) _ => Some (r_entities a)
  | FromCache _ _ => None
  end.

Definition reply_sentiment (r : Reply) : option Sentiment :=
  match r with
  | Generated a => Some (r_sentiment a)
  | FromCache (CVResult a) _ => Some (r_sentiment a)
  | FromCache _ _ => None
  end.

Definition reply_confidence (r : Reply) : option Q :=
  match r with
  | Generated a => Some (r_confidence a)
  | FromCache (CVResult a) _ => Some (r_confidence a)
  | FromCache _ _ => None
  end.

Definition reply_responseTime (r : Reply) : Z :=
  match r with
  | Generated a => r_responseTime a
  | FromCache _ t => t
  end.

Definition reply_cached (r : Reply) : bool :=
  match r with
  | Generated a => r_cached a
  | FromCache _ _ => true
  end.

(** A cached object read as a context: the fields it has. *)
Definition as_context (v : CacheValue) : Context :=
  match v with
  | CVContext c => c
  | _ => mkContext None None None None None
  end.

(** [value || fallback] on a number that may be missing. *)
Definition num_or (v : option Q) (fallback : Q) : Q :=
  match v with
  | Some q => if truthy_num q then q else fallback
  | None => fallback
  end.

Definition emoji_smile : string := "😊".
Definition emoji_wave : string := "👋".
Definition emoji_star : string := "🌟".

Definition has_emoji (s : string) : bool :=
  includes s emoji_smile || includes s emoji_wave || includes s emoji_star.

(** [xs.join(', ')] *)
Fixpoint join_comma (xs : list string) : string :=
  match xs with
  | [] => EmptyString
  | [x] => x
  | x :: rest => x ++ ", " ++ join_comma rest
  end.

Section Service.
Variable E : Env.

(** [let openai = null; if (process.env.OPENAI_API_KEY) openai = new OpenAI(...)] *)
Definition key_configured : bool :=
  match OPENAI_API_KEY E with
  | Some k => truthy_string k
  | None => false
  end.

Definition openai : option (CompletionRequest → result ChatCompletion) :=
  if key_configured then Some (completion_service E) else None.

(** [await openai.chat.completions.create(request)] *)
Definition completions_create (request : CompletionRequest)
    : JSM ChatCompletion :=
  await client <- receiver openai then
  run modify (λ w, set_openai_log (request :: openai_log w) w) then
  run command then
  lift (client request).

(** [openaiResponse.choices[0].message.content], used as a string *)
Definition first_content (response : ChatCompletion) : JSM string :=
  match choices response with
  | c :: _ =>
      match content c with
      | Some text => ret text
      | None => throw (TypeError "Cannot read properties of null")
      end
  | [] => throw (TypeError "Cannot read properties of undefined")
  end.

(** [getClassifications(message).find(c => c.label === label)?.value] *)
Definition found_value (cs : list Classification) (label : string)
    : option Q :=
  c_value <$> List.find (λ c, String.eqb (c_label c) label) cs.

Definition detectIntent (message : value) : JSM Intent :=
  try_catch
    (await classifier <- receiver (intentClassifier E) then
     await classifiedIntent <- lift (classify classifier message) then
     await classifications <- lift (getClassifications classifier message) then
     let confidence := num_or (found_value classifications classifiedIntent) 0.5 in
     await escalated <-
       (if lt confidence 0.6 && key_configured then
          try_catch
            (await openaiResponse <-
               completions_create
                 (mkRequest "gpt-3.5-turbo" classifier_instruction message 10 0.1)
             then
             await text <- first_content openaiResponse then
             ret (Some (mkIntent (toLowerCase (trim text)) 0.8 (Some "openai"))))
            (λ openaiError,
               run console_log "OpenAI intent detection failed, using classifier result" then
               ret None)
        else ret None)
     then
     match escalated with
     | Some intent => ret intent
     | None =>
         ret (mkIntent classifiedIntent (Math_max confidence 0.3)
                (Some "classifier"))
     end)
    (λ error,
       run console_log "Intent detection error:" then
       ret (mkIntent "unknown" 0.1 (Some "fallback"))).

Definition tagged (type : string) (confidence : Q) (values : list string)
    : list Entity :=
  map (λ v, mkEntity type v confidence) values.

Definition extractEntities (message : value) : JSM (list Entity) :=
  try_catch
    (await extractor <- receiver (entityExtractor E) then
     await doc <- lift (extractor message) then
     ret (tagged "person" 0.8 (people doc)
          ++ tagged "place" 0.8 (places doc)
          ++ tagged "organization" 0.8 (organizations doc)
          ++ tagged "date" 0.9 (dates doc)
          ++ tagged "number" 0.9 (numbers doc)
          ++ tagged "url" 0.9 (urls doc))%list)
    (λ error,
       run console_log "Entity extraction error:" then
       ret []).

Definition analyzeSentiment (message : value) : JSM Sentiment :=
  try_catch
    (await score <- lift (sentiment_score E message) then
     if gt score 2 then ret positive
     else if lt score (-2) then ret negative
     else ret neutral)
    (λ error,
       run console_log "Sentiment analysis error:" then
       ret neutral).

Definition buildSystemPrompt (intent : Intent) (entities : list Entity)
    (sentiment : Sentiment) (context : Context) : string :=
  let prompt :=
    "You are a helpful, friendly, and engaging AI assistant. Respond to the user's message in a natural, conversational way that feels like talking to a knowledgeable friend." in
  let prompt :=
    if truthy_string (i_name intent) then
      prompt ++ " The user's intent appears to be: " ++ i_name intent ++ "."
    else prompt in
  let prompt :=
    match sentiment with
    | neutral => prompt
    | _ =>
        prompt ++ " The user's sentiment is " ++ sentiment_name sentiment
          ++ ", so adjust your tone accordingly - be more enthusiastic for positive sentiment and more empathetic and supportive for negative sentiment."
    end in
  let prompt :=
    match entities with
    | [] => prompt
    | _ =>
        let entityList :=
          join_comma (map (λ e, e_type e ++ ": " ++ e_value e) entities) in
        prompt ++ " The message contains these entities: " ++ entityList
          ++ ". Use this information to provide more relevant and specific responses."
    end in
  let prompt :=
    match conversationHistory context with
    | Some (_ :: _) =>
        prompt ++ " Consider the conversation context when responding. If the user is building on previous topics, acknowledge that and provide continuity."
    | _ => prompt
    end in
  prompt ++ " Keep your response concise (1-3 sentences), helpful, and engaging. Use a warm, friendly tone and occasionally add appropriate emojis to make the conversation more pleasant. Always aim to be genuinely helpful and show enthusiasm for assisting the user.".

(** The names of the intents of the last three turns that have one. *)
Definition recentTopics (history : list HistoryEntry) : list string :=
  omap (λ msg, match h_intent msg with
               | Some i => if truthy_string (i_name i) then Some (i_name i) else None
               | None => None
               end)
       (lastN 3 history).

(** The two fixed replacement texts hold no [$]; the third one holds
    the topic, in which a [$] pattern is expanded: the match is the
    final full stop, after which nothing follows. *)
Definition personalizeResponse (response : string) (sentiment : Sentiment)
    (context : Context) : string :=
  let personalized := response in
  let personalized :=
    match sentiment with
    | positive =>
        if negb (has_emoji personalized)
        then replaceAllDots personalized ("! " ++ emoji_smile)
        else personalized
    | negative =>
        if negb (includes personalized "I understand")
           && negb (includes personalized "I'm here")
        then replaceFinalDot personalized supportive_sentence
        else personalized
    | neutral => personalized
    end in
  let personalized :=
    match conversationHistory context with
    | Some ((_ :: _) as history) =>
        match unique (recentTopics history) with
        | [topic] =>
            replaceFinalDot personalized
              (substitution "." (dropLast personalized) EmptyString
                 (". I notice you're interested in " ++ topic
                  ++ " - I'd be happy to explore that further with you!"))
        | _ => personalized
        end
    | _ => personalized
    end in
  if negb (has_emoji personalized) && negb (includes personalized "!")
  then
    if endsWithDot personalized
    then dropLast personalized ++ "! " ++ emoji_smile
    else personalized
  else personalized.

(** [pool[Math.floor(Math.random() * pool.length)]]; [undefined], here
    [None], for an index outside the pool, which no draw of the unit
    interval gives. *)
Definition random_index (r : Q) (n : nat) : nat :=
  Z.to_nat (Qfloor (r * inject_Z (Z.of_nat n))).

Definition pick (pool : list string) : JSM (option string) :=
  await r <- Math_random then
  ret (pool !! random_index r (length pool)).

Definition generateFallbackResponse (intent : Intent) (sentiment : Sentiment)
    : JSM string :=
  let name := i_name intent in
  if String.eqb name "question" then ret fallback_question
  else if String.eqb name "information_request" then ret fallback_information_request
  else if String.eqb name "task_request" then ret fallback_task_request
  else if String.eqb name "learning" then ret fallback_learning
  else if String.eqb name "creative" then ret fallback_creative
  else
    match sentiment with
    | negative => ret fallback_negative
    | _ =>
        await choice <- pick generic_fallbacks then
        match choice with
        | Some text => ret text
        | None => throw (TypeError "no such element")
        end
    end.

(** The first branch of [generateResponse]: a template of the intent's
    set, personalized.  An index outside the set gives [undefined], on
    which [personalizeResponse] throws. *)
Definition template_response (templates : list string) (sentiment : Sentiment)
    (context : Context) : JSM string :=
  await randomTemplate <- pick templates then
  match randomTemplate with
  | Some template => ret (personalizeResponse template sentiment context)
  | None => throw (TypeError "Cannot read properties of undefined")
  end.

(** The rest of [generateResponse]: the text-generation service when a
    key is configured, the fallback otherwise or when the call fails. *)
Definition dynamic_response (message : value) (intent : Intent)
    (entities : list Entity) (sentiment : Sentiment) (context : Context)
    : JSM string :=
  await generated <-
    (if key_configured then
       try_catch
         (let systemPrompt := buildSystemPrompt intent entities sentiment context in
          await openaiResponse <-
            completions_create
              (mkRequest "gpt-3.5-turbo" systemPrompt message 150 0.7)
          then
          await text <- first_content openaiResponse then
          ret (Some (personalizeResponse (trim text) sentiment context)))
         (λ openaiError,
            run console_log "OpenAI response generation failed, using fallback" then
            ret None)
     else ret None)
  then
  match generated with
  | Some response => ret response
  | None => generateFallbackResponse intent sentiment
  end.

Definition generateResponse (message : value) (intent : Intent)
    (entities : list Entity) (sentiment : Sentiment) (context : Context)
    : JSM string :=
  try_catch
    (match responseTemplates !! i_name intent with
     | Some templates =>
         if gt (i_confidence intent) 0.7
         then template_response templates sentiment context
         else dynamic_response message intent entities sentiment context
     | None => dynamic_response message intent entities sentiment context
     end)
    (λ error,
       run console_log "Response generation error:" then
       ret generation_apology).

Definition default_context : Context :=
  mkContext (Some []) (Some []) None (Some []) None.

Definition context_key (userId roomId : string) : string :=
  "context:" ++ userId ++ ":" ++ roomId.

Definition getContext (userId roomId : string) : JSM Context :=
  let contextKey := context_key userId roomId in
  await context <- getCache contextKey then
  ret (match context with
       | Some v => as_context v
       | None => default_context
       end).

(** The fields [processMessage] passes to [updateContext]. *)
Record ContextData : Type := mkContextData {
  cd_lastIntent : Intent;
  cd_lastEntities : list Entity;
  cd_conversationHistory : list HistoryEntry
}.

(** [updateContext] calls [getContext(userId, roomId)], a free identifier,
    where the method is [this.getContext]. *)
Definition updateContext (userId roomId : string) (contextData : ContextData)
    : JSM unit :=
  let contextKey := context_key userId roomId in
  await existingContext <- call_free "getContext" (getContext userId roomId) then
  await now <- Date_now then
  let history := cd_conversationHistory contextData in
  let updatedContext :=
    mkContext
      (Some (if Nat.ltb 20 (length history) then lastN 20 history else history))
      (userPreferences existingContext)
      (Some (cd_lastIntent contextData))
      (Some (cd_lastEntities contextData))
      (Some now) in
  run setCache contextKey (Plain (CVContext updatedContext)) 86400 then
  ret tt.

Definition storeLearningData (data : LearningDatum) : JSM unit :=
  modify (λ w,
    let pushed := (learningData w ++ [data])%list in
    set_learningData
      (if Nat.ltb 1000 (length pushed) then lastN 1000 pushed else pushed) w).

Definition fallback_result (responseTime : Z) : AIResult :=
  mkAIResult processing_apology (mkIntent "fallback" 0.1 None) [] neutral
             0.1 responseTime false.

Definition cache_key (lowered : string) : string :=
  "ai_response:" ++ trim lowered.

(** The [try] block of [processMessage]. *)
Definition processMessage_body (startTime : Z) (message : value)
    (userId roomId : string) : JSM Reply :=
  await lowered <- String_toLowerCase message then
  let cacheKey := cache_key lowered in
  await cachedResponse <- getCache cacheKey then
  match cachedResponse with
  | Some cached =>
      await now <- Date_now then
      ret (FromCache cached (now - startTime))
  | None =>
      await intent <- detectIntent message then
      await entities <- extractEntities message then
      await sentiment <- analyzeSentiment message then
      await context <- getContext userId roomId then
      await response <- generateResponse message intent entities sentiment context then
      await now <- Date_now then
      run updateContext userId roomId
            (mkContextData intent entities
               (default [] (conversationHistory context)
                ++ [mkHistoryEntry message (Some intent) now])%list)
      then
      await now <- Date_now then
      run storeLearningData
            (mkLearningDatum message intent entities sentiment response userId now)
      then
      await now <- Date_now then
      let result :=
        mkAIResult response intent entities sentiment (i_confidence intent)
                   (now - startTime) false in
      run setCache cacheKey (Plain (CVResult result)) 3600 then
      ret (Generated result)
  end.

Definition processMessage (message : value) (userId roomId : string)
    : JSM Reply :=
  await startTime <- Date_now then
  try_catch
    (processMessage_body startTime message userId roomId)
    (λ error,
       run console_log "Error processing message:" then
       await now <- Date_now then
       ret (Generated (fallback_result (now - startTime)))).

End Service.

End AIService.

(* ================================================================== *)
(** * src/server/models/Chat.js *)
(* ================================================================== *)

Module ChatModel.

(** [xs.reduce((a, b) => a + b, 0)] *)
Definition sum (xs : list Q) : Q := fold_left Qplus xs 0%Q.

(** [xs.reduce((a, b) => a + b, 0) / xs.length] *)
Definition mean (xs : list Q) : Q :=
  (sum xs / inject_Z (Z.of_nat (length xs)))%Q.

(** [m.feedback && m.feedback.rating] *)
Definition rating_of (m : Message) : option Q :=
  match m_feedback m with
  | Some f =>
      match f_rating f with
      | Some r => if truthy_num r then Some r else None
      | None => None
      end
  | None => None
  end.

Definition set_analytics (a : Analytics) (c : Chat) : Chat :=
  mkChat (participants c) (messages c) (status c) a.

Definition set_status (s : Status) (c : Chat) : Chat :=
  mkChat (participants c) (messages c) s (analytics c).

Definition set_messages (ms : list Message) (c : Chat) : Chat :=
  mkChat (participants c) ms (status c) (analytics c).

Definition set_participants (ps : list Participant) (c : Chat) : Chat :=
  mkChat ps (messages c) (status c) (analytics c).

(** [chatSchema.pre('save', ...)] *)
Definition pre_save (now : Z) (c : Chat) : Chat :=
  match messages c with
  | [] => c
  | _ :: _ =>
      let responseTimes := map m_responseTime (messages c) in
      let ratedMessages := omap rating_of (messages c) in
      set_analytics
        (mkAnalytics
           (length (messages c))
           (mean responseTimes)
           (match ratedMessages with
            | [] => userSatisfaction (analytics c)
            | _ :: _ => mean ratedMessages
            end)
           (intentAccuracy (analytics c))
           now)
        c
  end.

(** A method call on what should be a document. *)
Definition as_document (method : string) (chat : ChatObj)
    : JSM (string * Chat) :=
  match chat with
  | Document roomId c _ => ret (roomId, c)
  | _ => throw (TypeError ("chat." ++ method ++ " is not a function"))
  end.

(** What stands in the place of the participants' [userId] in [chat]. *)
Definition populated_of (chat : ChatObj) : list UserView :=
  match chat with
  | Document _ _ populated => populated
  | PlainChat _ populated => populated
  | PlainOther => []
  end.

(** [p.userId.toString() === userId.toString()] for the participant at
    index [i], the caller's [userId] being an id.  An id reads as
    itself.  What [populate] has put in its place does not: a document
    reads as its inspection text, the plain object parsed from its JSON
    as "[object Object]", neither of which is an id; on [null] the call
    throws. *)
Definition same_user (populated : list UserView) (userId : string) (i : nat)
    (p : Participant) : result bool :=
  match populated !! i with
  | None => Ok (String.eqb (p_userId p) userId)
  | Some AsDocument => Ok false
  | Some AsNull => Throw (TypeError "Cannot read properties of null")
  end.

(** [xs.find(f)], [xs.some(f)] with a callback that may throw: the
    elements are visited in order, up to the first one for which [f]
    holds; its index is returned. *)
Fixpoint find_first {A} (f : nat → A → result bool) (i : nat) (xs : list A)
    : result (option nat) :=
  match xs with
  | [] => Ok None
  | x :: rest =>
      match f i x with
      | Ok true => Ok (Some i)
      | Ok false => find_first f (S i) rest
      | Throw e => Throw e
      end
  end.

(** [chat.save()]: the hook, then the write.  Schema validation errors
    and store errors both reject the write; they are outcomes of the
    command. *)
Definition save (chat : ChatObj) : JSM ChatObj :=
  await doc <- as_document "save" chat then
  await now <- Date_now then
  let c := pre_save now (doc.2) in
  run command then
  run modify (λ w, set_chats (<[doc.1 := c]> (chats w)) w) then
  ret (Document (doc.1) c (populated_of chat)).

(** The object [saveMessage] pushes; [mo_intent] is [None] when the
    value given for [intent] is not a string. *)
Record MessageObj : Type := mkMessageObj {
  mo_userId : string;
  mo_message : string;
  mo_response : string;
  mo_intent : option string;
  mo_entities : list Entity;
  mo_sentiment : Sentiment;
  mo_confidence : Q;
  mo_responseTime : Q
}.

Definition fresh_oid : JSM nat :=
  λ w, (Ok (next_oid w), set_next_oid (S (next_oid w)) w).

(** [chatSchema.methods.addMessage]: the pushed object is cast to
    [messageSchema] (string fields are trimmed, a new [_id] is given). *)
Definition addMessage (chat : ChatObj) (messageData : MessageObj)
    : JSM ChatObj :=
  await doc <- as_document "addMessage" chat then
  await oid <- fresh_oid then
  await now <- Date_now then
  match mo_intent messageData with
  | Some intent =>
      let m :=
        mkMessage oid (mo_userId messageData)
          (trim (mo_message messageData)) (trim (mo_response messageData))
          (trim intent) (mo_entities messageData) (mo_sentiment messageData)
          (mo_confidence messageData) (mo_responseTime messageData)
          None now in
      save (Document (doc.1) (set_messages (messages (doc.2) ++ [m]) (doc.2))
              (populated_of chat))
  | None => throw (Error "Chat validation failed: intent")
  end.

(** [chatSchema.methods.addParticipant] *)
Definition addParticipant (chat : ChatObj) (userId role : string)
    : JSM ChatObj :=
  await doc <- as_document "addParticipant" chat then
  await existingParticipant <-
    lift (find_first (same_user (populated_of chat) userId) 0
            (participants (doc.2)))
  then
  await now <- Date_now then
  match existingParticipant with
  | Some _ => save chat
  | None =>
      save (Document (doc.1)
              (set_participants
                 (participants (doc.2) ++ [mkParticipant userId role now None])
                 (doc.2))
              (populated_of chat))
  end.

(** [participant.leftAt = new Date()] on the participant at index [i]. *)
Definition mark_left (i : nat) (now : Z) (ps : list Participant)
    : list Participant :=
  alter (λ p, mkParticipant (p_userId p) (p_role p) (p_joinedAt p) (Some now))
        i ps.

(** [chatSchema.methods.removeParticipant] *)
Definition removeParticipant (chat : ChatObj) (userId : string)
    : JSM ChatObj :=
  await doc <- as_document "removeParticipant" chat then
  await participant <-
    lift (find_first (same_user (populated_of chat) userId) 0
            (participants (doc.2)))
  then
  await now <- Date_now then
  match participant with
  | Some i =>
      save (Document (doc.1)
              (set_participants (mark_left i now (participants (doc.2)))
                 (doc.2))
              (populated_of chat))
  | None => save chat
  end.

(** [Chat.findOne({ roomId })] *)
Definition findOne (roomId : string) : JSM (option ChatObj) :=
  run command then
  await store <- gets chats then
  ret ((λ c, Document roomId c []) <$> store !! roomId).

(** [.populate('participants.userId', ...)] on what the query found,
    awaited with it: every participant's [userId] is replaced by the
    User document with that id, by [null] when the user collection has
    none. *)
Definition populate (found : option ChatObj) : JSM (option ChatObj) :=
  await table <- gets users then
  ret (match found with
       | Some (Document roomId c _) =>
           Some (Document roomId c
                   (map (λ p, match table !! p_userId p with
                              | Some _ => AsDocument
                              | None => AsNull
                              end)
                        (participants c)))
       | other => other
       end).

(** The filter [{ status: 'active', 'analytics.lastActivity': { $lt: t } }] *)
Definition inactive (threshold : Z) (kc : string * Chat) : bool :=
  match status (kc.2) with
  | active => (lastActivity (analytics (kc.2)) <? threshold)%Z
  | _ => false
  end.

(** [Chat.find({ status: 'active', 'analytics.lastActivity': { $lt: t } })] *)
Definition find_inactive (threshold : Z) : JSM (list ChatObj) :=
  run command then
  await store <- gets chats then
  ret (map (λ kc, Document (kc.1) (kc.2) [])
         (List.filter (inactive threshold) (map_to_list store))).

(** Modelled from the spec: the User model (models/User.js) is not among
    the sources; of a user account only the role is kept, one of "user",
    "moderator", "admin".  [User.findById(userId)] reads it. *)
Definition User_findById (userId : string) : JSM (option string) :=
  run command then
  await table <- gets users then
  ret (table !! userId).


(** [xs.slice(start, end)] on integers: a negative index counts from the
    end, and both are clamped to the array. *)
Definition Array_slice {A} (start finish : Z) (xs : list A) : list A :=
  let len := Z.of_nat (length xs) in
  let k := if (start <? 0)%Z then Z.max (len + start) 0 else Z.min start len in
  let final :=
    if (finish <? 0)%Z then Z.max (len + finish) 0 else Z.min finish len in
  take (Z.to_nat (final - k)) (drop (Z.to_nat k) xs).

(** [xs.slice(start)] *)
Definition Array_slice_from {A} (start : Z) (xs : list A) : list A :=
  Array_slice start (Z.of_nat (length xs)) xs.

(** [{ message, response, intent, timestamp }] *)
Record ContextEntry : Type := mkContextEntry {
  ce_message : string;
  ce_response : string;
  ce_intent : string;
  ce_timestamp : Z
}.

Definition context_entry (m : Message) : ContextEntry :=
  mkContextEntry (m_message m) (m_response m) (m_intent m) (m_createdAt m).

(** [chatSchema.methods.getRecentContext]; [-limit] is [-0], that is 0,
    when [limit] is 0. *)
Definition getRecentContext (limit : Z) (c : Chat) : list ContextEntry :=
  map context_entry (Array_slice_from (- limit) (messages c)).

End ChatModel.

Import ChatModel.

(* ================================================================== *)
(** * The ChatService class *)
(* ================================================================== *)

Module ChatService.

(** Identifiers are strings; the [userId] a caller passes is one. *)

Definition chat_key (roomId : string) : string := "chat:" ++ roomId.

(** A cached object read as a chat. *)
Definition as_chat (v : CacheValue) : ChatObj :=
  match v with
  | CVChat c populated => PlainChat c populated
  | _ => PlainOther
  end.

Definition cacheable (chat : ChatObj) : Cacheable :=
  match chat with
  | Document _ c populated => Plain (CVChat c populated)
  | PlainChat c populated => Plain (CVChat c populated)
  | PlainOther => Circular
  end.

(** [chat.status] *)
Definition status_of (chat : ChatObj) : option Status :=
  match chat with
  | Document _ c _ => Some (status c)
  | PlainChat c _ => Some (status c)
  | PlainOther => None
  end.

(** [chat.participants], about to be used as an array *)
Definition participants_of (chat : ChatObj) : JSM (list Participant) :=
  match chat with
  | Document _ c _ => ret (participants c)
  | PlainChat c _ => ret (participants c)
  | PlainOther => throw (TypeError "Cannot read properties of undefined")
  end.

Definition getChat (roomId : string) : JSM (option ChatObj) :=
  try_catch
    (await cached <- getCache (chat_key roomId) then
     match cached with
     | Some v => ret (Some (as_chat v))
     | None =>
         await chat <- findOne roomId then
         await chat <- populate chat then
         match chat with
         | Some doc =>
             run setCache (chat_key roomId) (cacheable doc) 3600 then
             ret (Some doc)
         | None => ret None
         end
     end)
    (λ error,
       run console_log "Error getting chat:" then
       ret None).

(** [catch (error) { console.error(...); throw error; }] *)
Definition rethrowing {A} (label : string) (body : JSM A) : JSM A :=
  try_catch body (λ error, run console_log label then throw error).

(** [if (this.activeChats.has(roomId)) { ... }] of [joinChat] *)
Definition track_join (userId roomId : string) : JSM unit :=
  await now <- Date_now then
  modify (λ w,
    match activeChats w !! roomId with
    | Some activeChat =>
        let ps := ac_participants activeChat in
        let ps' :=
          if existsb (String.eqb userId) ps then ps else (ps ++ [userId])%list in
        set_activeChats (<[roomId := mkActiveChat ps' now]> (activeChats w)) w
    | None => w
    end).

(** [if (this.activeChats.has(roomId)) { activeChat.lastActivity = new Date() }] *)
Definition track_activity (roomId : string) : JSM unit :=
  await now <- Date_now then
  modify (λ w,
    match activeChats w !! roomId with
    | Some activeChat =>
        set_activeChats
          (<[roomId := mkActiveChat (ac_participants activeChat) now]>
             (activeChats w)) w
    | None => w
    end).

(** [this.activeChats.delete(roomId)] *)
Definition untrack (roomId : string) : JSM unit :=
  modify (λ w, set_activeChats (delete roomId (activeChats w)) w).

(** [p.userId.toString() === userId.toString() && !p.leftAt] *)
Definition active_user (populated : list UserView) (userId : string) (i : nat)
    (p : Participant) : result bool :=
  match same_user populated userId i p with
  | Ok same => Ok (same && negb (bool_decide (is_Some (p_leftAt p))))
  | Throw e => Throw e
  end.

Definition joinChat (userId roomId : string) : JSM ChatObj :=
  rethrowing "Error joining chat:"
    (await found <- getChat roomId then
     match found with
     | None => throw (Error "Chat not found")
     | Some chat =>
         match status_of chat with
         | Some active =>
             await ps <- participants_of chat then
             await isParticipant <-
               lift (find_first (active_user (populated_of chat) userId) 0 ps)
             then
             await chat <-
               (match isParticipant with
                | None =>
                    await chat <- addParticipant chat userId "user" then
                    await chat <- save chat then
                    run setCache (chat_key roomId) (cacheable chat) 3600 then
                    ret chat
                | Some _ => ret chat
                end)
             then
             run track_join userId roomId then
             ret chat
         | _ => throw (Error "Chat is not active")
         end
     end).

(** The argument of [saveMessage]. [intent] is the pipeline's intent
    object or a label. *)
Inductive IntentArg : Type :=
| IntentObject (i : Intent)
| IntentLabel (s : string).

Record MessageData : Type := mkMessageData {
  md_userId : string;
  md_roomId : string;
  md_message : string;
  md_response : string;
  md_intent : IntentArg;
  md_entities : option (list Entity);
  md_sentiment : option Sentiment;
  md_confidence : option Q;
  md_responseTime : option Q
}.

(** [intent.name || intent], where a string is expected *)
Definition intent_label (intent : IntentArg) : option string :=
  match intent with
  | IntentObject i => if truthy_string (i_name i) then Some (i_name i) else None
  | IntentLabel s => Some s
  end.

Definition q_or (v : option Q) (fallback : Q) : Q :=
  match v with
  | Some q => if truthy_num q then q else fallback
  | None => fallback
  end.

(** The statements of [saveMessage] between [addMessage] and [save]. *)
Definition refresh_analytics (now : Z) (c : Chat) : Chat :=
  set_analytics
    (mkAnalytics (length (messages c))
                 (mean (map m_responseTime (messages c)))
                 (userSatisfaction (analytics c))
                 (intentAccuracy (analytics c))
                 now)
    c.

Definition saveMessage (messageData : MessageData) : JSM (option Message) :=
  rethrowing "Error saving message:"
    (let roomId := md_roomId messageData in
     await found <- getChat roomId then
     match found with
     | None => throw (Error "Chat not found")
     | Some chat =>
         let messageObj :=
           mkMessageObj (md_userId messageData) (md_message messageData)
             (md_response messageData) (intent_label (md_intent messageData))
             (default [] (md_entities messageData))
             (default neutral (md_sentiment messageData))
             (q_or (md_confidence messageData) 0.5)
             (q_or (md_responseTime messageData) 0) in
         await chat <- addMessage chat messageObj then
         await doc <- as_document "save" chat then
         await now <- Date_now then
         await chat <-
           save (Document (doc.1) (refresh_analytics now (doc.2))
                   (populated_of chat))
         then
         run setCache (chat_key roomId) (cacheable chat) 3600 then
         run track_activity roomId then
         await doc <- as_document "messages" chat then
         ret (last (messages (doc.2)))
     end).

Record FeedbackArg : Type := mkFeedbackArg {
  fa_rating : option Q;
  fa_comment : option string
}.

(** [message.feedback = { ... }] on the subdocument [messages.id(messageId)] *)
Fixpoint set_feedback (messageId : nat) (f : Feedback) (ms : list Message)
    : list Message :=
  match ms with
  | [] => []
  | m :: rest =>
      if Nat.eqb (m_id m) messageId
      then mkMessage (m_id m) (m_userId m) (m_message m) (m_response m)
             (m_intent m) (m_entities m) (m_sentiment m) (m_confidence m)
             (m_responseTime m) (Some f) (m_createdAt m) :: rest
      else m :: set_feedback messageId f rest
  end.

(** [updateChatAnalytics]: the satisfaction, then a [save] that is not
    awaited. *)
Definition updateChatAnalytics (chat : ChatObj) : JSM unit :=
  try_catch
    (await doc <- as_document "save" chat then
     let c := doc.2 in
     let c :=
       match omap rating_of (messages c) with
       | [] => c
       | (_ :: _) as ratings =>
           set_analytics
             (mkAnalytics (totalMessages (analytics c))
                          (averageResponseTime (analytics c))
                          (mean ratings)
                          (intentAccuracy (analytics c))
                          (lastActivity (analytics c)))
             c
       end in
     detached (save (Document (doc.1) c (populated_of chat))))
    (λ error,
       run console_log "Error updating chat analytics:" then
       ret tt).

Definition addMessageFeedback (roomId : string) (messageId : nat)
    (feedback : FeedbackArg) : JSM Message :=
  rethrowing "Error adding message feedback:"
    (await found <- getChat roomId then
     match found with
     | None => throw (Error "Chat not found")
     | Some chat =>
         await doc <- as_document "messages.id" chat then
         match List.find (λ m, Nat.eqb (m_id m) messageId) (messages (doc.2)) with
         | None => throw (Error "Message not found")
         | Some _ =>
             await now <- Date_now then
             let f := mkFeedback (fa_rating feedback) (fa_comment feedback) now in
             let ms := set_feedback messageId f (messages (doc.2)) in
             await chat <-
               save (Document (doc.1) (set_messages ms (doc.2))
                       (populated_of chat))
             then
             run setCache (chat_key roomId) (cacheable chat) 3600 then
             run updateChatAnalytics chat then
             await doc <- as_document "messages" chat then
             match List.find (λ m, Nat.eqb (m_id m) messageId) (messages (doc.2)) with
             | Some message => ret message
             | None => throw (Error "Message not found")
             end
         end
     end).

Definition endChat (roomId userId : string) : JSM ChatObj :=
  rethrowing "Error ending chat:"
    (await found <- getChat roomId then
     match found with
     | None => throw (Error "Chat not found")
     | Some chat =>
         await ps <- participants_of chat then
         await isParticipant <-
           lift (find_first (same_user (populated_of chat) userId) 0 ps)
         then
         match isParticipant with
         | None => throw (Error "User is not a participant in this chat")
         | Some _ =>
           await chat <- removeParticipant chat userId then
           await doc <- as_document "save" chat then
           let activeParticipants :=
             List.filter (λ p, negb (bool_decide (is_Some (p_leftAt p))))
                         (participants (doc.2)) in
           await chat <-
             (match activeParticipants with
              | [] =>
                  await now <- Date_now then
                  let a := analytics (doc.2) in
                  save (Document (doc.1)
                          (set_analytics
                             (mkAnalytics (totalMessages a) (averageResponseTime a)
                                (userSatisfaction a) (intentAccuracy a) now)
                             (set_status ended (doc.2)))
                          (populated_of chat))
              | _ :: _ => ret chat
              end)
           then
           run (match status_of chat with
                | Some ended => untrack roomId
                | _ => ret tt
                end)
           then
           run setCache (chat_key roomId) (cacheable chat) 3600 then
           ret chat
         end
     end).

Definition archiveChat (roomId userId : string) : JSM ChatObj :=
  rethrowing "Error archiving chat:"
    (await found <- getChat roomId then
     match found with
     | None => throw (Error "Chat not found")
     | Some chat =>
         await user <- User_findById userId then
         let permitted :=
           match user with
           | Some role => String.eqb role "admin" || String.eqb role "moderator"
           | None => false
           end in
         if negb permitted then throw (Error "Insufficient permissions")
         else
           (* [chat.status = 'archived'] is an assignment on any object;
              [chat.save()] needs a document *)
           await chat <-
             save (match chat with
                   | Document r c populated =>
                       Document r (set_status archived c) populated
                   | PlainChat c populated =>
                       PlainChat (set_status archived c) populated
                   | PlainOther => PlainOther
                   end)
           then
           run untrack roomId then
           run deleteCache (chat_key roomId) then
           ret chat
     end).

(** The loop of [cleanupInactiveChats]. *)
Fixpoint pause_all (inactiveChats : list ChatObj) : JSM unit :=
  match inactiveChats with
  | [] => ret tt
  | chat :: rest =>
      await doc <- as_document "save" chat then
      run save (Document (doc.1) (set_status paused (doc.2))
                 (populated_of chat)) then
      run untrack (doc.1) then
      pause_all rest
  end.

Definition cleanupInactiveChats : JSM unit :=
  try_catch
    (await now <- Date_now then
     let inactiveThreshold := (now - 24 * 60 * 60 * 1000)%Z in
     await inactiveChats <- find_inactive inactiveThreshold then
     run pause_all inactiveChats then
     console_log "Cleaned up inactive chats")
    (λ error, console_log "Error cleaning up inactive chats:").


(** [chat.messages], about to be used as an array *)
Definition messages_of (chat : ChatObj) : JSM (list Message) :=
  match chat with
  | Document _ c _ => ret (messages c)
  | PlainChat c _ => ret (messages c)
  | PlainOther => throw (TypeError "Cannot read properties of undefined")
  end.

(** [messages.sort((a, b) => new Date(b.createdAt) - new Date(a.createdAt))]:
    the sort is stable, so the result is the one of inserting the
    messages one by one, each behind those that are as recent. *)
Fixpoint insert_by_date (m : Message) (sorted : list Message)
    : list Message :=
  match sorted with
  | [] => [m]
  | x :: rest =>
      if (m_createdAt x <? m_createdAt m)%Z then m :: x :: rest
      else x :: insert_by_date m rest
  end.

Definition sort_by_date (ms : list Message) : list Message :=
  fold_left (λ sorted m, insert_by_date m sorted) ms [].

Definition getChatHistory (roomId : string) (limit offset : Z)
    : JSM (list Message) :=
  try_catch
    (await found <- getChat roomId then
     match found with
     | None => ret []
     | Some chat =>
         await ms <- messages_of chat then
         ret (Array_slice offset (offset + limit) (sort_by_date ms))
     end)
    (λ error,
       run console_log "Error getting chat history:" then
       ret []).

End ChatService.

(* ================================================================== *)
(** * The AnalyticsService class: what it computes by itself *)
(* ================================================================== *)

Module AnalyticsService.
Import ChatModel.

(** [calculateRetentionRate] *)
Definition calculateRetentionRate (activeUsers totalUsers : Q) : Q :=
  if Qeq_bool totalUsers 0 then 0%Q
  else (activeUsers / totalUsers * 100)%Q.

(** [calculateChatCompletionRate] *)
Definition calculateChatCompletionRate (newChats endedChats : Q) : Q :=
  if Qeq_bool newChats 0 then 0%Q
  else (endedChats / newChats * 100)%Q.

(** One group of the sentiment aggregation: [{ _id, count }]. *)
Record SentimentStat : Type := mkSentimentStat {
  ss_id : string;
  ss_count : Q
}.

(** The three counters after the [forEach]: a group assigns its count to
    the counter of its label, a later group of the same label wins. *)
Definition count_of (label : string) (sentimentStats : list SentimentStat)
    : Q :=
  fold_left (λ count stat, if String.eqb (ss_id stat) label
                           then ss_count stat else count)
            sentimentStats 0%Q.

(** [calculateOverallSentiment] *)
Definition calculateOverallSentiment (sentimentStats : list SentimentStat)
    : Sentiment :=
  let positiveCount := count_of "positive" sentimentStats in
  let negativeCount := count_of "negative" sentimentStats in
  let neutralCount := count_of "neutral" sentimentStats in
  let total := (positiveCount + negativeCount + neutralCount)%Q in
  if Qeq_bool total 0 then neutral
  else
    let positiveRatio := (positiveCount / total)%Q in
    let negativeRatio := (negativeCount / total)%Q in
    if gt positiveRatio 0.6 then positive
    else if gt negativeRatio 0.6 then negative
    else neutral.

(** The names every object literal inherits from [Object.prototype]: a
    lookup [table[name] || fallback] finds a function (or the prototype)
    under them, not the fallback. *)
Definition Object_prototype_names : list string :=
  [ "constructor"; "hasOwnProperty"; "isPrototypeOf"; "propertyIsEnumerable";
    "toLocaleString"; "toString"; "valueOf"; "__proto__";
    "__defineGetter__"; "__defineSetter__"; "__lookupGetter__";
    "__lookupSetter__" ].

Definition inherited (name : string) : bool :=
  existsb (String.eqb name) Object_prototype_names.

(** [getTimeFilter]: the start of the window, in milliseconds; [None]
    when what the lookup finds is not a date. *)
Definition getTimeFilter (now : Z) (timeRange : string) : option Z :=
  if String.eqb timeRange "1h" then Some (now - 60 * 60 * 1000)%Z
  else if String.eqb timeRange "24h" then Some (now - 24 * 60 * 60 * 1000)%Z
  else if String.eqb timeRange "7d" then Some (now - 7 * 24 * 60 * 60 * 1000)%Z
  else if String.eqb timeRange "30d" then Some (now - 30 * 24 * 60 * 60 * 1000)%Z
  else if String.eqb timeRange "90d" then Some (now - 90 * 24 * 60 * 60 * 1000)%Z
  else if inherited timeRange then None
  else Some (now - 24 * 60 * 60 * 1000)%Z.

(** [getIntervalDuration]: milliseconds; [None] when what the lookup
    finds is not a number. *)
Definition getIntervalDuration (timeRange : string) : option Z :=
  if String.eqb timeRange "1h" then Some (60 * 60 * 1000 / 24)%Z
  else if String.eqb timeRange "24h" then Some (60 * 60 * 1000)%Z
  else if String.eqb timeRange "7d" then Some (24 * 60 * 60 * 1000 / 24)%Z
  else if String.eqb timeRange "30d" then Some (30 * 24 * 60 * 60 * 1000 / 24)%Z
  else if String.eqb timeRange "90d" then Some (90 * 24 * 60 * 60 * 1000 / 24)%Z
  else if inherited timeRange then None
  else Some (60 * 60 * 1000)%Z.

(** [{ start, end }]; a date is [None] when it is invalid. *)
Record Interval : Type := mkInterval {
  iv_start : option Z;
  iv_end : option Z
}.

(** The body of the loop of [getTimeIntervals], for one [i]. *)
Definition interval_at (now : Z) (timeRange : string) (i : Z) : Interval :=
  mkInterval
    ((λ d, now - i * d)%Z <$> getIntervalDuration timeRange)
    ((λ d, now - (i - 1) * d)%Z <$> getIntervalDuration timeRange).

(** [getTimeIntervals]: [i] runs from 23 down to 0. *)
Definition getTimeIntervals (now : Z) (timeRange : string) : list Interval :=
  let intervalCount := 24%nat in
  map (λ k, interval_at now timeRange (Z.of_nat (intervalCount - 1 - k)))
      (seq 0 intervalCount).

(** [this.realTimeStats], as far as [updateRealTimeMetrics] goes.  The
    constructor sets no [averageResponseTime]: it is [undefined], and
    then not a number, here [None], until [resetRealTimeMetrics]. *)
Record RealTimeStats : Type := mkRealTimeStats {
  messagesPerMinute : nat;
  rt_averageResponseTime : option Q
}.

Definition initial_realTimeStats : RealTimeStats := mkRealTimeStats 0 None.

(** [updateRealTimeMetrics(messageData)], [responseTime] being a number
    or missing. *)
Definition updateRealTimeMetrics (responseTime : option Q)
    (realTimeStats : RealTimeStats) : RealTimeStats :=
  let messageCount := S (messagesPerMinute realTimeStats) in
  let currentAvg := rt_averageResponseTime realTimeStats in
  mkRealTimeStats messageCount
    (match currentAvg, responseTime with
     | Some avg, Some rt =>
         Some ((avg * (inject_Z (Z.of_nat messageCount) - 1) + rt)
               / inject_Z (Z.of_nat messageCount))%Q
     | _, _ => None
     end).

(** [resetRealTimeMetrics] *)
Definition resetRealTimeMetrics (realTimeStats : RealTimeStats)
    : RealTimeStats :=
  mkRealTimeStats 0 (Some 0%Q).

End AnalyticsService.


(* ================================================================== *)
(** * Runs of the service *)
(* ================================================================== *)

Module Runs.
Import ChatService.

(** What a caller, or the world around the service, does next. *)
Inductive Op : Type :=
| Join (userId roomId : string)
| SaveMessage (messageData : MessageData)
| AddFeedback (roomId : string) (messageId : nat) (feedback : FeedbackArg)
| EndChat (roomId userId : string)
| Archive (roomId userId : string)
| Cleanup
| Outside (now : Z) (outcomes : list io_event) (client : option RedisClient).

(** The world after an operation, whether it returned or threw. *)
Definition perform (op : Op) (w : World) : World :=
  match op with
  | Join userId roomId => (joinChat userId roomId w).2
  | SaveMessage messageData => (saveMessage messageData w).2
  | AddFeedback roomId messageId feedback =>
      (addMessageFeedback roomId messageId feedback w).2
  | EndChat roomId userId => (endChat roomId userId w).2
  | Archive roomId userId => (archiveChat roomId userId w).2
  | Cleanup => (cleanupInactiveChats w).2
  | Outside now outcomes client =>
      set_redisClient client (set_pending outcomes (set_clock now w))
  end.

Definition perform_all (ops : list Op) (w : World) : World :=
  fold_left (λ w op, perform op w) ops w.

End Runs.

(* ================================================================== *)
(** * Notions used by the properties, and sample worlds *)
(* ================================================================== *)

Module Notions.
Import AIService ChatService Runs.

(** The three ways the cache can be out of service. *)
Definition client_absent (w : World) : Prop := redisClient w = None.

Definition client_not_ready (w : World) : Prop :=
  ∃ cl, redisClient w = Some cl ∧ isReady cl = false.

Definition command_rejects (w : World) : Prop :=
  ∃ ev rest, pending w = ev :: rest ∧ io_fails ev = true.

Definition outage (w : World) : Prop :=
  client_absent w ∨ client_not_ready w ∨ command_rejects w.

(** The cache holds nothing under [key]. *)
Definition uncached (key : string) (w : World) : Prop :=
  ∀ cl, redisClient w = Some cl → entries cl !! key = None.

(** What the classifier says of a message, when both of its calls
    return. *)
Definition classifier_outcome (E : Env) (message : value)
    : option (string * list Classification) :=
  match intentClassifier E with
  | Some cl =>
      match classify cl message, getClassifications cl message with
      | Ok label, Ok cs => Some (label, cs)
      | _, _ => None
      end
  | None => None
  end.

(** Whether the next awaited command resolves. *)
Definition command_resolves (w : World) : bool :=
  match pending w with
  | ev :: _ => negb (io_fails ev)
  | [] => true
  end.

(** The text of the first choice of the answer to [request], when the
    call resolves and the answer is well formed. *)
Definition service_text (E : Env) (request : CompletionRequest) (w : World)
    : option string :=
  if command_resolves w then
    match completion_service E request with
    | Ok response =>
        match choices response with
        | c :: _ => content c
        | [] => None
        end
    | Throw _ => None
    end
  else None.

(** The next [Math.random()] draw, and the world after it. *)
Definition next_random (w : World) : Q :=
  match randoms w with
  | r :: _ => r
  | [] => 0%Q
  end.

Definition after_random (w : World) : World :=
  match randoms w with
  | _ :: rest => set_randoms rest w
  | [] => w
  end.

(** The request [detectIntent] sends for [message]. *)
Definition classification_request (message : value) : CompletionRequest :=
  mkRequest "gpt-3.5-turbo" classifier_instruction message 10 0.1.

(** ** Conversations *)

(** The transitions the specification lists. *)
Inductive listed : Status → Status → Prop :=
| listed_pause : listed active paused
| listed_resume : listed paused active
| listed_end : listed active ended
| listed_archive s : listed s archived.

(** What an operation does to the status of the conversation [k]: the
    cleanup may pause it when it is active, [archiveChat] may archive
    the one it names, and nothing else changes it. *)
Definition status_step (op : Op) (k : string) (s s' : Status) : Prop :=
  match op with
  | Cleanup => s' = s ∨ (s = active ∧ s' = paused)
  | Archive roomId _ => s' = s ∨ (k = roomId ∧ s' = archived)
  | _ => s' = s
  end.

(** What a sequence of operations does to it. *)
Definition status_run (s s' : Status) : Prop :=
  s' = s ∨ (s = active ∧ s' = paused) ∨ s' = archived.

Definition status_in (roomId : string) (w : World) : option Status :=
  status <$> chats w !! roomId.

Definition with_feedback (f : option Feedback) (m : Message) : Message :=
  mkMessage (m_id m) (m_userId m) (m_message m) (m_response m) (m_intent m)
            (m_entities m) (m_sentiment m) (m_confidence m) (m_responseTime m)
            f (m_createdAt m).

(** A message without its feedback. *)
Definition frozen (m : Message) : Message := with_feedback None m.

(** What an operation does to the messages of the conversation [k]:
    [saveMessage] may append to the one it names, [addMessageFeedback]
    may set the feedback of one message of the one it names, and nothing
    else changes them. *)
Definition messages_step (op : Op) (k : string) (ms ms' : list Message)
    : Prop :=
  match op with
  | SaveMessage messageData =>
      ∃ appended,
        ms' = (ms ++ appended)%list
        ∧ Forall (λ m, m_feedback m = None) appended
        ∧ (appended ≠ [] → k = md_roomId messageData)
  | AddFeedback roomId messageId feedback =>
      ms' = ms
      ∨ (k = roomId
         ∧ ∃ now,
             ms' = set_feedback messageId
                     (mkFeedback (fa_rating feedback) (fa_comment feedback) now)
                     ms)
  | _ => ms' = ms
  end.

(** What an operation does to the conversation [k]. *)
Definition step (op : Op) (k : string) (c c' : Chat) : Prop :=
  status_step op k (status c) (status c')
  ∧ messages_step op k (messages c) (messages c').

(** [op] is a call of [addMessageFeedback] on the message [messageId] of
    the conversation [k], with the rating and the comment of [f]. *)
Definition rates (op : Op) (k : string) (messageId : nat) (f : Feedback)
    : Prop :=
  match op with
  | AddFeedback roomId id feedback =>
      roomId = k ∧ id = messageId
      ∧ f_rating f = fa_rating feedback ∧ f_comment f = fa_comment feedback
  | _ => False
  end.

(** The feedback stored with a message. *)
Definition feedback_in (roomId : string) (messageId : nat) (w : World)
    : option (option Feedback) :=
  match chats w !! roomId with
  | Some c =>
      m_feedback <$> List.find (λ m, Nat.eqb (m_id m) messageId) (messages c)
  | None => None
  end.

(** ** Reasoning on a run: what holds of the outcome and of the world *)

Definition wp {A} (m : JSM A) (w : World) (Q : result A → World → Prop)
    : Prop :=
  Q (m w).1 (m w).2.

Arguments wp : simpl never.

(** Code that leaves the Chat collection alone. *)
Definition steady {A} (m : JSM A) : Prop := ∀ w, chats (m w).2 = chats w.

(** Code that, besides, always returns. *)
Definition quiet {A} (m : JSM A) : Prop :=
  ∀ w, ∃ a, (m w).1 = Ok a ∧ chats (m w).2 = chats w.

(** What [getChat] returns: nothing, a plain object, or the document
    stored under the room, every participant of which is populated. *)
Definition fetched (roomId : string) (m : gmap string Chat)
    (r : option ChatObj) : Prop :=
  match r with
  | Some (Document k c populated) =>
      k = roomId ∧ m !! roomId = Some c
      ∧ length populated = length (participants c)
  | _ => True
  end.

(** Every chat of [m0] is still in [m], where it is an [R]-successor;
    [R] may depend on the room. *)
Definition evolves (R : string → relation Chat) (m0 m : gmap string Chat)
    : Prop :=
  ∀ k c0, m0 !! k = Some c0 → ∃ c, m !! k = Some c ∧ R k c0 c.

(** The postcondition of an operation: the collection has evolved from
    [m0], whatever the operation returned. *)
Definition settled {A} (R : string → relation Chat) (m0 : gmap string Chat)
    : result A → World → Prop :=
  λ _ w', evolves R m0 (chats w').

(** A document in hand is an [R]-successor of what is stored under its
    room. *)
Definition tracks (R : string → relation Chat) (m : gmap string Chat)
    (chat : ChatObj) : Prop :=
  match chat with
  | Document k c _ => ∃ c1, m !! k = Some c1 ∧ R k c1 c
  | _ => True
  end.

(** The changes every operation may make to a chat: to its aggregates
    and to its participants. *)
Record closed (R : string → relation Chat) : Prop := mkClosed {
  R_refl : ∀ k c, R k c c;
  R_trans : ∀ k c1 c2 c3, R k c1 c2 → R k c2 c3 → R k c1 c3;
  R_analytics : ∀ k c a, R k c (set_analytics a c);
  R_participants : ∀ k c ps, R k c (set_participants ps c)
}.

(** ** The cache over time *)

(** The time at which the next command completes. *)
Definition clock_after_command (w : World) : Z :=
  match pending w with
  | ev :: _ => (clock w + io_ms ev)%Z
  | [] => clock w
  end.

(** ** What a call leaves alone *)

(** Code that never changes what [f] reads of the world. *)
Definition preserves {A X} (f : World → X) (m : JSM A) : Prop :=
  ∀ w, f (m w).2 = f w.

(** The texts [generateResponse] falls back on. *)
Definition fallback_texts : list string :=
  [ fallback_question; fallback_information_request; fallback_task_request;
    fallback_learning; fallback_creative; fallback_negative;
    generation_apology ] ++ generic_fallbacks.

(** The cache is connected and ready, and no command is waiting to fail
    or to take time. *)
Definition at_rest (w : World) : Prop :=
  pending w = [] ∧ ∃ cl, redisClient w = Some cl ∧ isReady cl = true.

(** The cache holds a value under [key] that has not expired. *)
Definition live (key : string) (w : World) : Prop :=
  ∃ cl v expires,
    redisClient w = Some cl
    ∧ entries cl !! key = Some (Json v, expires)
    ∧ (clock w < expires)%Z.

(** Code that leaves the cache connected and the commands resolving. *)
Definition resting {A} (m : JSM A) : Prop :=
  ∀ w, at_rest w → at_rest (m w).2.

(** ** Reading a conversation *)

(** [a] may come before [b] in a history: it is as recent or more. *)
Definition newer_first (a b : Message) : Prop :=
  (m_createdAt b <= m_createdAt a)%Z.

(** The messages of what [getChat] hands out. *)
Definition chat_messages (chat : ChatObj) : list Message :=
  match chat with
  | Document _ c _ => messages c
  | PlainChat c _ => messages c
  | PlainOther => []
  end.

(** ** The aggregates of a conversation *)

(** The stored aggregates agree with the messages, when there are any:
    their number, the mean of their response times and, when some are
    rated, the mean of the ratings. *)
Definition tidy (c : Chat) : Prop :=
  messages c ≠ [] →
  totalMessages (analytics c) = length (messages c)
  ∧ averageResponseTime (analytics c)
    = mean (map m_responseTime (messages c))
  ∧ (omap rating_of (messages c) ≠ [] →
     userSatisfaction (analytics c) = mean (omap rating_of (messages c))).

Definition all_tidy (m : gmap string Chat) : Prop :=
  ∀ k c, m !! k = Some c → tidy c.

(** Code that keeps the collection tidy. *)
Definition keeps_tidy {A} (m : JSM A) : Prop :=
  ∀ w, all_tidy (chats w) → all_tidy (chats (m w).2).

End Notions.

Module Scenario.
Import AIService ChatService Runs.

(** A classifier that is sure of a greeting. *)
Definition greeter : Classifier :=
  mkClassifier
    (λ _, Ok "greeting")
    (λ _, Ok [mkClassification "greeting" 0.9; mkClassification "farewell" 0.1]).

(** A classifier that hesitates. *)
Definition hesitant : Classifier :=
  mkClassifier
    (λ _, Ok "question")
    (λ _, Ok [mkClassification "question" 0.4; mkClassification "help" 0.35]).

Definition no_entities : value → result TaggedDoc :=
  λ _, Ok (mkTaggedDoc [] [] [] [] [] []).

(** The score of a few words of the lexicon; anything else scores 0, and
    what is not a string makes the analyzer throw. *)
Definition lexicon (message : value) : result Q :=
  match message with
  | Str "wonderful" => Ok 4%Q
  | Str "good" => Ok 3%Q
  | Str "rather fine" => Ok 2.0001%Q
  | Str "fine" => Ok 2%Q
  | Str "poor" => Ok (-2)%Q
  | Str "rather poor" => Ok (-2.0001)%Q
  | Str "terrible" => Ok (-3)%Q
  | Str _ => Ok 0%Q
  | _ => Throw (TypeError "phrase.toLowerCase is not a function")
  end.

(** No key configured. *)
Definition offline : Env :=
  mkEnv (Some greeter) (Some no_entities) lexicon None
        (λ _, Throw (Error "Connection error.")).

(** A key is configured and the service answers with a label. *)
Definition online : Env :=
  mkEnv (Some hesitant) (Some no_entities) lexicon (Some "sk-test")
        (λ _, Ok (mkChatCompletion [mkChoiceMessage (Some " Complaint ")])).

(** A connected cache with nothing in it, an empty store. *)
Definition fresh : World :=
  mkWorld (Some (mkRedisClient true ∅)) 1000 [] [0.5%Q] [] [] ∅ ∅ 0 ∅.

(** The same without a cache client ([connectRedis] was never called). *)
Definition cacheless : World :=
  mkWorld None 1000 [] [0.5%Q] [] [] ∅ ∅ 0 ∅.

(** The next command rejects. *)
Definition failing : World :=
  mkWorld (Some (mkRedisClient true ∅)) 1000 [mkEvent true 30] [] [] [] ∅ ∅ 0 ∅.

(** ** Conversations *)

Definition alice : Participant := mkParticipant "u1" "user" 0 None.

Definition idle_chat : Chat :=
  mkChat [alice] [] active (mkAnalytics 0 0 0 0 0).

(** One conversation, idle for more than a day, and no cache client. *)
(** The user accounts: three users and a moderator. *)
Definition accounts : gmap string string :=
  <["u1" := "user"]> (<["u2" := "user"]> (<["u3" := "user"]>
    (<["mod" := "moderator"]> ∅))).

Definition idle : World :=
  mkWorld None 100000000 [] [] [] []
          (<["room_1" := idle_chat]> ∅) accounts 0 ∅.

Definition turn (latency : Q) : MessageData :=
  mkMessageData "u1" "room_1" "hello" "Hi there!" (IntentLabel "greeting")
                None None (Some 0.9%Q) (Some latency).

Definition three_turns : list Op :=
  [SaveMessage (turn 100); SaveMessage (turn 200); SaveMessage (turn 300)].

Definition praise : FeedbackArg := mkFeedbackArg (Some 5%Q) (Some "great").

Definition blame : FeedbackArg := mkFeedbackArg (Some 1%Q) (Some "wrong").

(** A conversation of three turns, the first of which has been rated. *)
Definition rated : World :=
  perform_all (three_turns ++ [AddFeedback "room_1" 0 praise])%list idle.


Definition bob : Participant := mkParticipant "u2" "user" 0 None.

Definition shared_chat : Chat :=
  mkChat [alice; bob] [] active (mkAnalytics 0 0 0 0 0).

(** A conversation of two, and no cache client. *)
Definition shared : World :=
  mkWorld None 100000000 [] [] [] []
          (<["room_1" := shared_chat]> ∅) accounts 0 ∅.

(** A learning example. *)
Definition example (text : string) : LearningDatum :=
  mkLearningDatum (Str text) (mkIntent "greeting" 0.9 None) [] neutral
                  "Hello!" "u1" 0.

End Scenario.

(* ================================================================== *)
(** * Properties *)
(* ================================================================== *)

Ltac js_unfold :=
  unfold Date_now, JS.console_log, JS.try_catch, JS.bind, JS.ret, JS.throw,
         JS.gets, JS.get, JS.modify, JS.detached, lift in *.

Ltac js_cases :=
  repeat (case_match; simplify_eq/=);
  eauto; try (repeat esplit; simpl; (reflexivity || eassumption || congruence)).

(** ** The cache accessors *)

Module RedisFacts.
Import Notions.

Lemma command_cases (w : World) :
  (∃ w', command w = (Ok tt, w') ∧ redisClient w' = redisClient w
         ∧ chats w' = chats w)
  ∨ (∃ e w', command w = (Throw e, w') ∧ command_rejects w
         ∧ redisClient w' = redisClient w ∧ chats w' = chats w).
Proof.
  unfold command, command_rejects.
  destruct (pending w) as [|ev rest] eqn:Hp.
  - left. eauto.
  - destruct (io_fails ev) eqn:Hf.
    + right. do 2 eexists. split; [reflexivity|]. split; eauto.
    + left. eexists. split; [reflexivity|]. split; reflexivity.
Qed.

Lemma command_rejects_throws (w : World) :
  command_rejects w → ∃ e w', command w = (Throw e, w')
                              ∧ redisClient w' = redisClient w.
Proof.
  intros (ev & rest & Hp & Hf). unfold command. rewrite Hp, Hf. eauto.
Qed.

Lemma getCache_total (key : string) (w : World) :
  ∃ r w', getCache key w = (Ok r, w').
Proof.
  unfold getCache, client_get. js_unfold.
  js_cases.
Qed.

Lemma setCache_total (key : string) (value : Cacheable) (ttl : Z) (w : World) :
  ∃ b w', setCache key value ttl w = (Ok b, w').
Proof.
  unfold setCache, client_setEx, JSON_stringify. js_unfold.
  js_cases.
Qed.

Lemma deleteCache_total (key : string) (w : World) :
  ∃ b w', deleteCache key w = (Ok b, w').
Proof.
  unfold deleteCache, client_del. js_unfold.
  js_cases.
Qed.

Lemma getCache_outage (key : string) (w : World) :
  outage w →
  ∃ w', getCache key w = (Ok None, w') ∧ redisClient w' = redisClient w.
Proof.
  unfold getCache, client_get. js_unfold.
  intros [Ha | [(cl & Hc & Hr) | Hrej]].
  - rewrite Ha. eauto.
  - rewrite Hc, Hr. eauto.
  - destruct (command_rejects_throws w Hrej) as (e & w' & Hc & Hk).
    destruct (redisClient w) as [cl|] eqn:Hcl; [|eauto].
    destruct (isReady cl); [|eauto].
    rewrite Hc. simpl. eexists. split; [reflexivity | congruence].
Qed.

Lemma setCache_outage (key : string) (value : Cacheable) (ttl : Z) (w : World) :
  outage w →
  ∃ w', setCache key value ttl w = (Ok false, w')
        ∧ redisClient w' = redisClient w.
Proof.
  unfold setCache, client_setEx, JSON_stringify. js_unfold.
  intros [Ha | [(cl & Hc & Hr) | Hrej]].
  - rewrite Ha. eauto.
  - rewrite Hc, Hr. eauto.
  - destruct (command_rejects_throws w Hrej) as (e & w' & Hc & Hk).
    destruct (redisClient w) as [cl|] eqn:Hcl; [|eauto].
    destruct (isReady cl); [|eauto].
    destruct value; [|eauto].
    rewrite Hc. simpl. eexists. split; [reflexivity | congruence].
Qed.

Lemma deleteCache_outage (key : string) (w : World) :
  outage w →
  ∃ w', deleteCache key w = (Ok false, w')
        ∧ redisClient w' = redisClient w.
Proof.
  unfold deleteCache, client_del. js_unfold.
  intros [Ha | [(cl & Hc & Hr) | Hrej]].
  - rewrite Ha. eauto.
  - rewrite Hc, Hr. eauto.
  - destruct (command_rejects_throws w Hrej) as (e & w' & Hc & Hk).
    destruct (redisClient w) as [cl|] eqn:Hcl; [|eauto].
    destruct (isReady cl); [|eauto].
    rewrite Hc. simpl. eexists. split; [reflexivity | congruence].
Qed.

(** C10. The three accessors return on every key and value, whatever
    the state of the client; when the client is absent, or not ready, or
    its command rejects, [getCache] returns [null] and [setCache] and
    [deleteCache] return [false], and the cache is left as it was. *)
Theorem cache_accessors_degrade (key : string) (value : Cacheable)
    (expireTime : Z) (w : World) :
  (∃ r w', getCache key w = (Ok r, w'))
  ∧ (∃ b w', setCache key value expireTime w = (Ok b, w'))
  ∧ (∃ b w', deleteCache key w = (Ok b, w'))
  ∧ (outage w →
     (∃ w', getCache key w = (Ok None, w')
            ∧ redisClient w' = redisClient w)
     ∧ (∃ w', setCache key value expireTime w = (Ok false, w')
              ∧ redisClient w' = redisClient w)
     ∧ (∃ w', deleteCache key w = (Ok false, w')
              ∧ redisClient w' = redisClient w)).
Proof.
  split; [apply getCache_total|].
  split; [apply setCache_total|].
  split; [apply deleteCache_total|].
  intros Hout.
  split; [apply getCache_outage, Hout|].
  split; [apply setCache_outage, Hout | apply deleteCache_outage, Hout].
Qed.

Lemma cache_accessors_degrade_witness :
  (getCache "ai_response:hello" Scenario.cacheless).1 = Ok None
  ∧ (setCache "chat:room_1" Circular 3600 Scenario.failing).1 = Ok false
  ∧ (deleteCache "chat:room_1" Scenario.failing).1 = Ok false.
Proof.
  assert (outage Scenario.cacheless) as Hc by (left; reflexivity).
  assert (outage Scenario.failing) as Hf.
  { right. right. exists (mkEvent true 30), []. split; reflexivity. }
  destruct (cache_accessors_degrade "ai_response:hello" Circular 3600
              Scenario.cacheless) as (_ & _ & _ & Hout).
  destruct (Hout Hc) as ((w1 & H1 & _) & _).
  destruct (cache_accessors_degrade "chat:room_1" Circular 3600
              Scenario.failing) as (_ & _ & _ & Hout').
  destruct (Hout' Hf) as (_ & (w2 & H2 & _) & (w3 & H3 & _)).
  rewrite H1, H2, H3. split; [|split]; reflexivity.
Defined.

(** *** Round trips *)

Lemma getCache_reads (key : string) (w : World) (cl : RedisClient) :
  redisClient w = Some cl →
  isReady cl = true →
  command_resolves w = true →
  (getCache key w).1
  = Ok (match entries cl !! key with
        | Some (Json v, expires) =>
            if (clock_after_command w <? expires)%Z then Some v else None
        | _ => None
        end).
Proof.
  intros Hcl Hready Hres.
  unfold getCache, client_get, JSON_parse, truthy_stored, command,
         command_resolves, clock_after_command in *.
  js_unfold. rewrite Hcl, Hready.
  destruct (pending w) as [|ev rest]; simpl in *.
  - destruct (entries cl !! key) as [[[v|s] expires]|]; simpl;
      try destruct (clock w <? expires)%Z; simpl;
      try destruct (truthy_string s); reflexivity.
  - apply negb_true_iff in Hres. rewrite Hres. simpl.
    destruct (entries cl !! key) as [[[v|s] expires]|]; simpl;
      try destruct (clock w + io_ms ev <? expires)%Z; simpl;
      try destruct (truthy_string s); reflexivity.
Qed.

Lemma setCache_writes (key : string) (v : CacheValue) (ttl : Z) (w : World)
    (cl : RedisClient) :
  redisClient w = Some cl →
  isReady cl = true →
  command_resolves w = true →
  ∃ w1,
    setCache key (Plain v) ttl w = (Ok true, w1)
    ∧ redisClient w1
      = Some (mkRedisClient true
                (<[key := (Json v, (clock_after_command w + ttl * 1000)%Z)]>
                   (entries cl))).
Proof.
  intros Hcl Hready Hres.
  unfold setCache, client_setEx, JSON_stringify, command, command_resolves,
         clock_after_command in *.
  js_unfold. rewrite Hcl, Hready.
  destruct (pending w) as [|ev rest]; simpl in *.
  - eexists. split; reflexivity.
  - apply negb_true_iff in Hres. rewrite Hres. simpl.
    eexists. split; reflexivity.
Qed.

(** X1. What [setCache] has stored, [getCache] returns, to whoever asks,
    as long as the time to live has not run out; from then on it returns
    [null]. *)
Theorem cache_round_trip (key : string) (v : CacheValue) (ttl : Z)
    (w : World) (cl : RedisClient) :
  redisClient w = Some cl →
  isReady cl = true →
  command_resolves w = true →
  ∃ w1,
    setCache key (Plain v) ttl w = (Ok true, w1)
    ∧ ∀ w2,
        redisClient w2 = redisClient w1 →
        command_resolves w2 = true →
        (getCache key w2).1
        = Ok (if (clock_after_command w2
                  <? clock_after_command w + ttl * 1000)%Z
              then Some v else None).
Proof.
  intros Hcl Hready Hres.
  destruct (setCache_writes key v ttl w cl Hcl Hready Hres) as (w1 & Hset & Hw1).
  exists w1. split; [exact Hset|].
  intros w2 Hw2 Hres2. rewrite Hw1 in Hw2.
  rewrite (getCache_reads key w2 _ Hw2 eq_refl Hres2). simpl.
  rewrite lookup_insert_eq. reflexivity.
Qed.

Lemma cache_round_trip_witness :
  ∃ w1,
    setCache "chat:room_1" (Plain (CVChat Scenario.idle_chat [AsDocument])) 3600
      Scenario.fresh = (Ok true, w1)
    ∧ (getCache "chat:room_1" (set_clock 3600999 w1)).1
      = Ok (Some (CVChat Scenario.idle_chat [AsDocument]))
    ∧ (getCache "chat:room_1" (set_clock 3601000 w1)).1 = Ok None.
Proof.
  destruct (cache_round_trip "chat:room_1" (CVChat Scenario.idle_chat [AsDocument]) 3600
              Scenario.fresh (mkRedisClient true ∅))
    as (w1 & Hset & Hget); try reflexivity.
  exists w1. split; [exact Hset|].
  assert (pending w1 = []) as Hp.
  { vm_compute in Hset. injection Hset as <-. reflexivity. }
  assert (∀ t, command_resolves (set_clock t w1) = true) as Hres
    by (intros t; unfold command_resolves; simpl; rewrite Hp; reflexivity).
  assert (∀ t, clock_after_command (set_clock t w1) = t) as Hclock
    by (intros t; unfold clock_after_command; simpl; rewrite Hp; reflexivity).
  split.
  - rewrite (Hget (set_clock 3600999 w1) eq_refl (Hres _)), Hclock.
    reflexivity.
  - rewrite (Hget (set_clock 3601000 w1) eq_refl (Hres _)), Hclock.
    reflexivity.
Defined.

(** X2. [setCache] under one key does not change what [getCache] returns
    under another. *)
Theorem setCache_other_keys (key key' : string) (value : Cacheable) (ttl : Z)
    (w w2 : World) :
  key' ≠ key →
  redisClient w2 = redisClient (setCache key value ttl w).2 →
  (getCache key' w2).1 = (getCache key' (set_redisClient (redisClient w) w2)).1.
Proof.
  intros Hne Hw2.
  assert (∀ cl cl', redisClient w2 = Some cl →
            isReady cl' = isReady cl →
            entries cl' !! key' = entries cl !! key' →
            (getCache key' w2).1
            = (getCache key' (set_redisClient (Some cl') w2)).1) as Hsame.
  { intros cl cl' Hcl Hr He.
    unfold getCache, client_get, JSON_parse, truthy_stored, command.
    js_unfold. simpl. rewrite Hcl, Hr, He.
    destruct (isReady cl); [|reflexivity]. simpl.
    destruct (pending w2) as [|ev rest]; simpl;
      [|destruct (io_fails ev); simpl; [reflexivity|]];
      destruct (entries cl !! key') as [[[v|s] expires]|]; simpl;
      try destruct (_ <? _)%Z; simpl;
      try destruct (truthy_string s); reflexivity. }
  revert Hw2.
  unfold setCache, client_setEx, JSON_stringify, command. js_unfold.
  destruct (redisClient w) as [cl|] eqn:Hcl; simpl.
  - destruct (isReady cl) eqn:Hready; simpl.
    + destruct value as [v|]; simpl.
      * destruct (pending w) as [|ev rest]; simpl;
          [|destruct (io_fails ev); simpl];
          intros Hw2;
          try (erewrite (Hsame _ cl Hw2); [reflexivity | simpl; congruence |];
               simpl; rewrite lookup_insert_ne by congruence; reflexivity);
          try (rewrite Hcl in Hw2; erewrite (Hsame _ cl Hw2); reflexivity).
      * rewrite Hcl. intros Hw2. erewrite (Hsame _ cl Hw2); reflexivity.
    + rewrite Hcl. intros Hw2. erewrite (Hsame _ cl Hw2); reflexivity.
  - rewrite Hcl. intros Hw2.
    unfold getCache. js_unfold. simpl. rewrite Hw2. reflexivity.
Qed.

Lemma setCache_other_keys_witness :
  (getCache "context:u1:room_1"
     (setCache "chat:room_1" (Plain (CVChat Scenario.idle_chat [AsDocument])) 3600
        Scenario.fresh).2).1
  = (getCache "context:u1:room_1"
       (set_redisClient (redisClient Scenario.fresh)
          (setCache "chat:room_1" (Plain (CVChat Scenario.idle_chat [AsDocument])) 3600
             Scenario.fresh).2)).1.
Proof.
  apply (setCache_other_keys "chat:room_1" "context:u1:room_1"
           (Plain (CVChat Scenario.idle_chat [AsDocument])) 3600 Scenario.fresh).
  - discriminate.
  - reflexivity.
Defined.

(** X3. After a [deleteCache] that returned [true], [getCache] returns
    [null] under that key. *)
Theorem deleteCache_then_getCache (key : string) (w w1 w2 : World) :
  deleteCache key w = (Ok true, w1) →
  redisClient w2 = redisClient w1 →
  (getCache key w2).1 = Ok None.
Proof.
  unfold deleteCache, client_del, command. js_unfold.
  intros Hdel Hw2.
  assert (∃ cl, redisClient w1 = Some cl ∧ entries cl !! key = None)
    as (cl & Hcl & Hnone).
  { destruct (redisClient w) as [cl|]; [|discriminate].
    destruct (isReady cl); [|discriminate].
    destruct (pending w) as [|ev rest]; simpl in Hdel;
      [|destruct (io_fails ev); simpl in Hdel; [discriminate|]];
      injection Hdel as <-; eexists; (split; [reflexivity|]);
      simpl; apply lookup_delete_eq. }
  rewrite Hcl in Hw2.
  unfold getCache, client_get, command. js_unfold.
  rewrite Hw2, Hnone.
  destruct (isReady cl); [|reflexivity].
  destruct (pending w2) as [|ev rest]; simpl; [reflexivity|].
  destruct (io_fails ev); reflexivity.
Qed.

Lemma deleteCache_then_getCache_witness :
  (getCache "chat:room_1"
     (deleteCache "chat:room_1"
        (setCache "chat:room_1" (Plain (CVChat Scenario.idle_chat [AsDocument])) 3600
           Scenario.fresh).2).2).1
  = Ok None.
Proof.
  eapply (deleteCache_then_getCache "chat:room_1"
            (setCache "chat:room_1" (Plain (CVChat Scenario.idle_chat [AsDocument])) 3600
               Scenario.fresh).2);
    reflexivity.
Defined.

(** X4. After a [clearCache] that returned [true], [getCache] returns
    [null] under every key. *)
Theorem clearCache_then_getCache (key : string) (w w1 w2 : World) :
  clearCache w = (Ok true, w1) →
  redisClient w2 = redisClient w1 →
  (getCache key w2).1 = Ok None.
Proof.
  unfold clearCache, client_flushAll, command. js_unfold.
  intros Hclear Hw2.
  assert (∃ cl, redisClient w1 = Some cl ∧ entries cl = ∅) as (cl & Hcl & He).
  { destruct (redisClient w) as [cl|]; [|discriminate].
    destruct (isReady cl); [|discriminate].
    destruct (pending w) as [|ev rest]; simpl in Hclear;
      [|destruct (io_fails ev); simpl in Hclear; [discriminate|]];
      injection Hclear as <-; eexists; split; reflexivity. }
  rewrite Hcl in Hw2.
  unfold getCache, client_get, command. js_unfold.
  rewrite Hw2, He, lookup_empty.
  destruct (isReady cl); [|reflexivity].
  destruct (pending w2) as [|ev rest]; simpl; [reflexivity|].
  destruct (io_fails ev); reflexivity.
Qed.

Lemma clearCache_then_getCache_witness :
  (getCache "chat:room_1"
     (clearCache
        (setCache "chat:room_1" (Plain (CVChat Scenario.idle_chat [AsDocument])) 3600
           Scenario.fresh).2).2).1
  = Ok None.
Proof.
  eapply (clearCache_then_getCache "chat:room_1"
            (setCache "chat:room_1" (Plain (CVChat Scenario.idle_chat [AsDocument])) 3600
               Scenario.fresh).2);
    reflexivity.
Defined.

(** *** Reconnection *)

(** X5. [retry_strategy] asks for another attempt only up to the tenth,
    within the first hour and unless the connection was refused; the
    delay is then a hundred milliseconds per attempt made, one second at
    most: the cap of three seconds is never reached. *)
Theorem retry_delay (options : RetryOptions) (ms : Q) :
  retry_strategy options = RetryAfter ms →
  ms = (ro_attempt options * 100)%Q
  ∧ (ms <= 1000)%Q
  ∧ (ro_attempt options <= 10)%Q
  ∧ (ro_total_retry_time options <= 3600000)%Q
  ∧ ro_error options ≠ Some "ECONNREFUSED".
Proof.
  unfold retry_strategy.
  destruct (match ro_error options with
            | Some code => String.eqb code "ECONNREFUSED"
            | None => false
            end) eqn:Herr; [discriminate|].
  destruct (gt (ro_total_retry_time options) (1000 * 60 * 60)) eqn:Htime;
    [discriminate|].
  destruct (gt (ro_attempt options) 10) eqn:Hatt; [discriminate|].
  unfold gt in Htime, Hatt.
  apply negb_false_iff, Qle_bool_iff in Htime, Hatt.
  intros [= <-].
  assert (ro_attempt options * 100 <= 3000)%Q as Hcap by lra.
  unfold Math_min. apply Qle_bool_iff in Hcap. rewrite Hcap.
  split; [reflexivity|]. split; [lra|]. split; [exact Hatt|].
  split; [exact Htime|].
  intros Heq. rewrite Heq in Herr. discriminate.
Qed.

Lemma retry_delay_witness :
  retry_strategy (mkRetryOptions None 5000 10) = RetryAfter (10 * 100)
  ∧ (10 * 100 <= 1000)%Q.
Proof.
  destruct (retry_delay (mkRetryOptions None 5000 10) (10 * 100)%Q eq_refl)
    as (_ & Hle & _).
  split; [reflexivity | exact Hle].
Defined.

End RedisFacts.

(** ** The message pipeline *)

Module AIFacts.
Import AIService Notions.

Ltac ai_unfold :=
  unfold completions_create, first_content, receiver, pick, Math_random,
         command in *;
  js_unfold.

Section Stages.
Variable E : Env.

(** The call of the free identifier fails whatever the arguments and the
    world are, and before anything is written. *)
Lemma updateContext_throws (userId roomId : string) (data : ContextData)
    (w : World) :
  updateContext userId roomId data w
  = (Throw (ReferenceError "getContext is not defined"), w).
Proof. reflexivity. Qed.

(** Every stage catches what it throws, and none writes to the cache. *)
Lemma detectIntent_total (message : value) (w : World) :
  ∃ intent w', detectIntent E message w = (Ok intent, w')
               ∧ redisClient w' = redisClient w.
Proof. unfold detectIntent. ai_unfold. js_cases. Qed.

Lemma extractEntities_total (message : value) (w : World) :
  ∃ entities, extractEntities E message w = (Ok entities, w).
Proof. unfold extractEntities. ai_unfold. js_cases. Qed.

Lemma analyzeSentiment_total (message : value) (w : World) :
  ∃ sentiment, analyzeSentiment E message w = (Ok sentiment, w).
Proof. unfold analyzeSentiment. ai_unfold. js_cases. Qed.

Lemma getCache_keeps (key : string) (w : World) :
  ∃ r w', getCache key w = (Ok r, w') ∧ redisClient w' = redisClient w.
Proof. unfold getCache, client_get, JSON_parse. ai_unfold. js_cases. Qed.

Lemma getContext_total (userId roomId : string) (w : World) :
  ∃ context w', getContext userId roomId w = (Ok context, w')
                ∧ redisClient w' = redisClient w.
Proof.
  unfold getContext. js_unfold.
  destruct (getCache_keeps (context_key userId roomId) w)
    as (r & w' & -> & Hk). eauto.
Qed.

Lemma pick_keeps (pool : list string) (w : World) :
  ∃ r w', pick pool w = (Ok r, w') ∧ redisClient w' = redisClient w.
Proof. unfold pick. ai_unfold. js_cases. Qed.

Lemma generateFallbackResponse_keeps (intent : Intent) (sentiment : Sentiment)
    (w : World) :
  ∃ r w', generateFallbackResponse intent sentiment w = (r, w')
          ∧ redisClient w' = redisClient w.
Proof.
  unfold generateFallbackResponse.
  repeat (destruct (String.eqb _ _); [unfold JS.ret; eauto|]).
  destruct sentiment; try (unfold JS.ret; eauto);
    unfold JS.bind;
    destruct (pick_keeps generic_fallbacks w) as (r & w' & -> & Hk);
    destruct r; unfold JS.ret, JS.throw; eauto.
Qed.

Lemma completions_create_keeps (request : CompletionRequest) (w : World) :
  ∃ r w', completions_create E request w = (r, w')
          ∧ redisClient w' = redisClient w.
Proof. unfold completions_create. ai_unfold. js_cases. Qed.

Lemma template_response_keeps (templates : list string)
    (sentiment : Sentiment) (context : Context) (w : World) :
  ∃ r w', template_response templates sentiment context w = (r, w')
          ∧ redisClient w' = redisClient w.
Proof.
  unfold template_response, JS.bind.
  destruct (pick_keeps templates w) as (r & w' & -> & Hk).
  destruct r; unfold JS.ret, JS.throw; eauto.
Qed.

Lemma dynamic_response_keeps (message : value) (intent : Intent)
    (entities : list Entity) (sentiment : Sentiment) (context : Context)
    (w : World) :
  ∃ r w', dynamic_response E message intent entities sentiment context w
          = (r, w')
          ∧ redisClient w' = redisClient w.
Proof.
  unfold dynamic_response, JS.bind at 1.
  destruct (key_configured E).
  - unfold JS.try_catch, JS.bind at 1.
    destruct (completions_create_keeps
                (mkRequest "gpt-3.5-turbo"
                   (buildSystemPrompt intent entities sentiment context)
                   message 150 0.7) w) as (r & w1 & -> & Hk1).
    destruct r as [resp|e].
    + unfold first_content, JS.bind.
      destruct (choices resp) as [|c ?]; [|destruct (content c)];
        unfold JS.throw, JS.ret, JS.console_log, JS.bind; simpl;
        try (destruct (generateFallbackResponse_keeps intent sentiment w1)
               as (r & w2 & -> & Hk2)); eauto using eq_trans.
    + unfold JS.console_log, JS.ret, JS.bind.
      destruct (generateFallbackResponse_keeps intent sentiment w1)
        as (r & w2 & -> & Hk2). eauto using eq_trans.
  - unfold JS.ret.
    destruct (generateFallbackResponse_keeps intent sentiment w)
      as (r & w2 & -> & Hk2). eauto.
Qed.

Lemma generateResponse_total (message : value) (intent : Intent)
    (entities : list Entity) (sentiment : Sentiment) (context : Context)
    (w : World) :
  ∃ response w',
    generateResponse E message intent entities sentiment context w
    = (Ok response, w')
    ∧ redisClient w' = redisClient w.
Proof.
  unfold generateResponse, JS.try_catch.
  assert (∃ r w', match responseTemplates !! i_name intent with
                  | Some templates =>
                      if gt (i_confidence intent) 0.7
                      then template_response templates sentiment context
                      else dynamic_response E message intent entities
                             sentiment context
                  | None => dynamic_response E message intent entities
                              sentiment context
                  end w = (r, w') ∧ redisClient w' = redisClient w)
    as (r & w' & -> & Hk).
  { destruct (responseTemplates !! i_name intent) as [ts|];
      [destruct (gt (i_confidence intent) 0.7)|];
      auto using template_response_keeps, dynamic_response_keeps. }
  destruct r; unfold JS.console_log, JS.bind, JS.ret; eauto.
Qed.

End Stages.

(** *** Comparisons and the random index *)

Lemma gt_true_iff (a b : Q) : gt a b = true ↔ (b < a)%Q.
Proof.
  unfold gt. rewrite negb_true_iff, <- not_true_iff_false, Qle_bool_iff.
  split; [apply Qnot_le_lt | apply Qlt_not_le].
Qed.

Lemma lt_true_iff (a b : Q) : lt a b = true ↔ (a < b)%Q.
Proof.
  unfold lt. rewrite negb_true_iff, <- not_true_iff_false, Qle_bool_iff.
  split; [apply Qnot_le_lt | apply Qlt_not_le].
Qed.

Lemma gt_false_iff (a b : Q) : gt a b = false ↔ (a <= b)%Q.
Proof. unfold gt. rewrite negb_false_iff. apply Qle_bool_iff. Qed.

Lemma lt_false_iff (a b : Q) : lt a b = false ↔ (b <= a)%Q.
Proof. unfold lt. rewrite negb_false_iff. apply Qle_bool_iff. Qed.

Lemma Math_max_floor (a b : Q) : (b <= Math_max a b)%Q.
Proof.
  unfold Math_max. destruct (Qle_bool a b) eqn:H.
  - apply Qle_refl.
  - apply Qlt_le_weak, Qnot_le_lt. intros Hle.
    apply Qle_bool_iff in Hle. congruence.
Qed.

Lemma Qfloor_unique (x : Q) (k : Z) :
  (inject_Z k <= x)%Q → (x < inject_Z (k + 1))%Q → Qfloor x = k.
Proof.
  intros Hlo Hhi.
  assert (k <= Qfloor x)%Z as H1.
  { rewrite <- (Qfloor_Z k). apply Qfloor_resp_le, Hlo. }
  assert (Qfloor x < k + 1)%Z as H2.
  { rewrite Zlt_Qlt. eapply Qle_lt_trans; [apply Qfloor_le | exact Hhi]. }
  lia.
Qed.

(** The draws that select index [i] of a pool of [n] elements are those
    of the interval from [i/n] to [(i+1)/n]: [n] intervals of one
    length, which cover the unit interval. *)
Lemma random_index_interval (r : Q) (n i : nat) :
  (0 < n)%nat → (0 <= r)%Q →
  random_index r n = i
  ↔ (inject_Z (Z.of_nat i) / inject_Z (Z.of_nat n) <= r
     ∧ r < inject_Z (Z.of_nat i + 1) / inject_Z (Z.of_nat n))%Q.
Proof.
  intros Hn Hr. unfold random_index.
  set (N := inject_Z (Z.of_nat n)).
  assert (0 < N)%Q as HN.
  { unfold N. rewrite <- (Zlt_Qlt 0). lia. }
  assert (0 <= r * N)%Q as Hpos by (apply Qmult_le_0_compat; lra).
  assert (0 <= Qfloor (r * N))%Z as Hk.
  { rewrite <- (Qfloor_Z 0). apply Qfloor_resp_le, Hpos. }
  split.
  - intros <-. rewrite Z2Nat.id by exact Hk. split.
    + apply Qle_shift_div_r; [exact HN | apply Qfloor_le].
    + apply Qlt_shift_div_l; [exact HN | apply Qlt_floor].
  - intros [Hlo Hhi].
    rewrite (Qfloor_unique (r * N) (Z.of_nat i)); [apply Nat2Z.id | |].
    + assert (inject_Z (Z.of_nat i)
              == inject_Z (Z.of_nat i) / N * N)%Q as H by (field; lra).
      rewrite H. apply Qmult_le_r; assumption.
    + assert (inject_Z (Z.of_nat i + 1)
              == inject_Z (Z.of_nat i + 1) / N * N)%Q as H by (field; lra).
      rewrite H. apply Qmult_lt_r; assumption.
Qed.

Lemma random_index_bound (r : Q) (n : nat) :
  (0 < n)%nat → (0 <= r)%Q → (r < 1)%Q → (random_index r n < n)%nat.
Proof.
  intros Hn Hr Hr1. unfold random_index.
  set (N := inject_Z (Z.of_nat n)).
  assert (0 < N)%Q as HN.
  { unfold N. rewrite <- (Zlt_Qlt 0). lia. }
  assert (0 <= r * N)%Q as Hpos by (apply Qmult_le_0_compat; lra).
  assert (0 <= Qfloor (r * N))%Z as Hk.
  { rewrite <- (Qfloor_Z 0). apply Qfloor_resp_le, Hpos. }
  assert (Qfloor (r * N) < Z.of_nat n)%Z.
  { rewrite Zlt_Qlt. fold N.
    eapply Qle_lt_trans; [apply Qfloor_le|].
    rewrite <- (Qmult_1_l N) at 2. apply Qmult_lt_r; assumption. }
  lia.
Qed.

(** *** Stepping through a sequence *)

Lemma bind_ok {A B} (m : JSM A) (k : A → JSM B) (w w' : World) (a : A) :
  m w = (Ok a, w') → JS.bind m k w = k a w'.
Proof. unfold JS.bind. intros ->. reflexivity. Qed.

Lemma bind_throw {A B} (m : JSM A) (k : A → JSM B) (w w' : World) (e : error) :
  m w = (Throw e, w') → JS.bind m k w = (Throw e, w').
Proof. unfold JS.bind. intros ->. reflexivity. Qed.

Lemma try_ok {A} (m : JSM A) (h : error → JSM A) (w w' : World) (a : A) :
  m w = (Ok a, w') → JS.try_catch m h w = (Ok a, w').
Proof. unfold JS.try_catch. intros ->. reflexivity. Qed.

Lemma try_throw {A} (m : JSM A) (h : error → JSM A) (w w' : World) (e : error) :
  m w = (Throw e, w') → JS.try_catch m h w = h e w'.
Proof. unfold JS.try_catch. intros ->. reflexivity. Qed.

(** *** The pipeline as a whole *)

Lemma getCache_miss (key : string) (w : World) :
  uncached key w →
  ∃ w', getCache key w = (Ok None, w') ∧ redisClient w' = redisClient w.
Proof.
  unfold uncached, getCache, client_get, JSON_parse. ai_unfold. intros H.
  destruct (redisClient w) as [cl|] eqn:Hcl; [|eauto].
  specialize (H cl eq_refl). rewrite H. js_cases.
Qed.

(** On a cache miss the body reaches [updateContext], which throws: the
    caller gets the fallback and nothing is cached. *)
Lemma processMessage_miss (E : Env) (text userId roomId : string) (w : World) :
  uncached (cache_key (toLowerCase text)) w →
  ∃ w', processMessage E (Str text) userId roomId w
        = (Ok (Generated (fallback_result (clock w' - clock w))), w')
        ∧ redisClient w' = redisClient w.
Proof.
  intros Hmiss. unfold processMessage.
  rewrite (bind_ok _ _ w w (clock w)) by reflexivity.
  assert (∃ e w', processMessage_body E (clock w) (Str text) userId roomId w
                  = (Throw e, w') ∧ redisClient w' = redisClient w)
    as (e & w' & Hbody & Hk).
  { unfold processMessage_body.
    rewrite (bind_ok _ _ w w (toLowerCase text)) by reflexivity.
    destruct (getCache_miss _ w Hmiss) as (w1 & H1 & Hk1).
    rewrite (bind_ok _ _ _ _ _ H1).
    destruct (detectIntent_total E (Str text) w1) as (intent & w2 & H2 & Hk2).
    rewrite (bind_ok _ _ _ _ _ H2).
    destruct (extractEntities_total E (Str text) w2) as (entities & H3).
    rewrite (bind_ok _ _ _ _ _ H3).
    destruct (analyzeSentiment_total E (Str text) w2) as (sentiment & H4).
    rewrite (bind_ok _ _ _ _ _ H4).
    destruct (getContext_total userId roomId w2) as (context & w3 & H5 & Hk5).
    rewrite (bind_ok _ _ _ _ _ H5).
    destruct (generateResponse_total E (Str text) intent entities sentiment
                context w3) as (response & w4 & H6 & Hk6).
    rewrite (bind_ok _ _ _ _ _ H6).
    rewrite (bind_ok _ _ w4 w4 (clock w4)) by reflexivity.
    erewrite bind_throw by apply updateContext_throws.
    do 2 eexists. split; [reflexivity | congruence]. }
  rewrite (try_throw _ _ _ _ _ Hbody).
  eexists. split; [reflexivity | exact Hk].
Qed.

(** A result that is in the cache is returned as it is, with the time
    taken and [cached = true]: the stages are not run. *)
Lemma processMessage_hit (E : Env) (text userId roomId : string) (w : World)
    (cl : RedisClient) (cached : CacheValue) (expires : Z) :
  redisClient w = Some cl →
  isReady cl = true →
  pending w = [] →
  entries cl !! cache_key (toLowerCase text) = Some (Json cached, expires) →
  (clock w < expires)%Z →
  processMessage E (Str text) userId roomId w
  = (Ok (FromCache cached (clock w - clock w)), w).
Proof.
  intros Hcl Hready Hpending Hentry Hlive.
  unfold processMessage, processMessage_body, String_toLowerCase, getCache,
         client_get, JSON_parse, truthy_stored, command.
  js_unfold. rewrite Hcl, Hready, Hpending, Hentry.
  apply Z.ltb_lt in Hlive. rewrite Hlive. reflexivity.
Qed.

(** A message that is not a string: [toLowerCase] throws, the caller
    gets the fallback. *)
Example processMessage_not_a_string :
  (processMessage Scenario.offline Undefined "u1" "r1" Scenario.fresh).1
  = Ok (Generated (fallback_result 0)).
Proof. reflexivity. Qed.

(** C1. [processMessage] returns to its caller on every input, and when
    its [try] block throws, what it returns is the fixed fallback:
    the apology, the intent "fallback" at confidence 0.1, no entities,
    the sentiment "neutral" (and [cached] false). *)
Theorem processMessage_never_throws (E : Env) (message : value)
    (userId roomId : string) (w : World) :
  ∃ reply w',
    processMessage E message userId roomId w = (Ok reply, w')
    ∧ match processMessage_body E (clock w) message userId roomId w with
      | (Ok computed, _) => reply = computed
      | (Throw _, w1) =>
          reply = Generated
                    (mkAIResult
                       processing_apology
                       (mkIntent "fallback" 0.1 None) [] neutral 0.1
                       (clock w1 - clock w) false)
      end.
Proof.
  unfold processMessage.
  rewrite (bind_ok _ _ w w (clock w)) by reflexivity.
  unfold JS.try_catch.
  destruct (processMessage_body E (clock w) message userId roomId w)
    as [[computed|e] w1]; eauto.
Qed.

(** C2. Two calls with the same text, the cache connected and holding
    nothing for that text: both calls return the fallback, the second one
    with [cached] false, and the cache still holds nothing for the text.
    A reply with [cached = true] does not occur. *)
Theorem second_call_is_not_cached (E : Env) (text : string)
    (user1 room1 user2 room2 : string) (w : World) :
  uncached (cache_key (toLowerCase text)) w →
  ∃ reply1 w1 reply2 w2,
    processMessage E (Str text) user1 room1 w = (Ok reply1, w1)
    ∧ processMessage E (Str text) user2 room2 w1 = (Ok reply2, w2)
    ∧ reply_cached reply2 = false
    ∧ reply_response reply2 = Some processing_apology
    ∧ reply_response reply1 = reply_response reply2
    ∧ reply_intent reply1 = reply_intent reply2
    ∧ reply_entities reply1 = reply_entities reply2
    ∧ reply_sentiment reply1 = reply_sentiment reply2
    ∧ uncached (cache_key (toLowerCase text)) w2.
Proof.
  intros Hmiss.
  destruct (processMessage_miss E text user1 room1 w Hmiss) as (w1 & H1 & Hk1).
  assert (uncached (cache_key (toLowerCase text)) w1) as Hmiss1.
  { intros cl Hcl. apply Hmiss. congruence. }
  destruct (processMessage_miss E text user2 room2 w1 Hmiss1) as (w2 & H2 & Hk2).
  do 4 eexists. split; [exact H1|]. split; [exact H2|].
  repeat split; try reflexivity.
  intros cl Hcl. apply Hmiss1. congruence.
Qed.

Lemma second_call_is_not_cached_witness :
  ∃ reply2,
    (processMessage Scenario.offline (Str "hello") "u2" "r2"
       (processMessage Scenario.offline (Str "hello") "u1" "r1"
          Scenario.fresh).2).1 = Ok reply2
    ∧ reply_cached reply2 = false.
Proof.
  destruct (second_call_is_not_cached Scenario.offline "hello"
              "u1" "r1" "u2" "r2" Scenario.fresh)
    as (reply1 & w1 & reply2 & w2 & H1 & H2 & Hc & _).
  - intros cl Hcl. vm_compute in Hcl. injection Hcl as <-. reflexivity.
  - exists reply2. rewrite H1. simpl. rewrite H2. split; [reflexivity | exact Hc].
Defined.

(** C3. The sentiment is decided by the score alone: above 2 it is
    positive, below -2 negative, in between (2 and -2 included) neutral;
    when the analyzer throws it is neutral.  The world is not touched. *)
Theorem analyzeSentiment_thresholds (E : Env) (message : value) (w : World) :
  match sentiment_score E message with
  | Ok score =>
      ((2 < score)%Q → analyzeSentiment E message w = (Ok positive, w))
      ∧ ((score < -2)%Q → analyzeSentiment E message w = (Ok negative, w))
      ∧ ((-2 <= score)%Q → (score <= 2)%Q →
         analyzeSentiment E message w = (Ok neutral, w))
  | Throw _ => analyzeSentiment E message w = (Ok neutral, w)
  end.
Proof.
  unfold analyzeSentiment. js_unfold.
  destruct (sentiment_score E message) as [score|e]; [|reflexivity].
  destruct (gt score 2) eqn:Hgt;
    [apply gt_true_iff in Hgt | apply gt_false_iff in Hgt];
    (destruct (lt score (-2)) eqn:Hlt;
       [apply lt_true_iff in Hlt | apply lt_false_iff in Hlt]);
    repeat split; intros; try reflexivity; lra.
Qed.

Lemma analyzeSentiment_thresholds_witness :
  analyzeSentiment Scenario.offline (Str "good") Scenario.fresh
  = (Ok positive, Scenario.fresh)
  ∧ analyzeSentiment Scenario.offline (Str "rather fine") Scenario.fresh
    = (Ok positive, Scenario.fresh)
  ∧ analyzeSentiment Scenario.offline (Str "fine") Scenario.fresh
    = (Ok neutral, Scenario.fresh)
  ∧ analyzeSentiment Scenario.offline (Str "poor") Scenario.fresh
    = (Ok neutral, Scenario.fresh)
  ∧ analyzeSentiment Scenario.offline (Str "rather poor") Scenario.fresh
    = (Ok negative, Scenario.fresh)
  ∧ analyzeSentiment Scenario.offline (Str "terrible") Scenario.fresh
    = (Ok negative, Scenario.fresh)
  ∧ analyzeSentiment Scenario.offline Null Scenario.fresh
    = (Ok neutral, Scenario.fresh).
Proof.
  split; [|split; [|split; [|split; [|split; [|split]]]]].
  - apply (analyzeSentiment_thresholds Scenario.offline (Str "good")
             Scenario.fresh). reflexivity.
  - apply (analyzeSentiment_thresholds Scenario.offline (Str "rather fine")
             Scenario.fresh). reflexivity.
  - apply (analyzeSentiment_thresholds Scenario.offline (Str "fine")
             Scenario.fresh); discriminate.
  - apply (analyzeSentiment_thresholds Scenario.offline (Str "poor")
             Scenario.fresh); discriminate.
  - apply (analyzeSentiment_thresholds Scenario.offline (Str "rather poor")
             Scenario.fresh). reflexivity.
  - apply (analyzeSentiment_thresholds Scenario.offline (Str "terrible")
             Scenario.fresh). reflexivity.
  - apply (analyzeSentiment_thresholds Scenario.offline Null Scenario.fresh).
Defined.

(** *** The intent detector *)

(** The shape of [detectIntent] once the classifier has answered. *)
Lemma detectIntent_classified (E : Env) (message : value) (w : World)
    (label : string) (cs : list Classification) :
  classifier_outcome E message = Some (label, cs) →
  let confidence := num_or (found_value cs label) 0.5 in
  let own := mkIntent label (Math_max confidence 0.3) (Some "classifier") in
  if lt confidence 0.6 && key_configured E then
    ∃ w', openai_log w' = classification_request message :: openai_log w
      ∧ detectIntent E message w
        = (Ok (match service_text E (classification_request message) w with
               | Some text => mkIntent (toLowerCase (trim text)) 0.8 (Some "openai")
               | None => own
               end), w')
  else detectIntent E message w = (Ok own, w).
Proof.
  unfold classifier_outcome. intros Hc.
  destruct (intentClassifier E) as [cl|] eqn:Hcl; [|discriminate].
  destruct (classify cl message) as [l|] eqn:Hl; [|discriminate].
  destruct (getClassifications cl message) as [c|] eqn:Hg; [|discriminate].
  injection Hc as -> ->.
  set (confidence := num_or (found_value cs label) 0.5).
  destruct (lt confidence 0.6 && key_configured E) eqn:Hesc;
    unfold detectIntent; rewrite Hcl; unfold receiver;
    unfold JS.try_catch at 1;
    rewrite (bind_ok _ _ w w cl) by reflexivity;
    rewrite (bind_ok _ _ w w label) by (unfold lift; rewrite Hl; reflexivity);
    rewrite (bind_ok _ _ w w cs) by (unfold lift; rewrite Hg; reflexivity);
    fold confidence; rewrite Hesc.
  - apply andb_true_iff in Hesc as [_ Hkey].
    unfold service_text, command_resolves, classification_request.
    unfold completions_create, openai. rewrite Hkey.
    unfold first_content, receiver, command. js_unfold. simpl.
    destruct (pending w) as [|ev rest]; simpl;
      [|destruct (io_fails ev); simpl];
      try (destruct (completion_service E _) as [resp|]; simpl;
           [destruct (choices resp) as [|c ?]; simpl;
            [|destruct (content c); simpl]|]);
      eexists; (split; [|reflexivity]); reflexivity.
  - reflexivity.
Qed.

Lemma detectIntent_unclassified (E : Env) (message : value) (w : World) :
  classifier_outcome E message = None →
  detectIntent E message w = (Ok (mkIntent "unknown" 0.1 (Some "fallback")), w).
Proof.
  unfold classifier_outcome, detectIntent, receiver. js_unfold. intros Hc.
  destruct (intentClassifier E) as [cl|]; [|reflexivity].
  destruct (classify cl message) as [l|]; [|reflexivity].
  destruct (getClassifications cl message) as [c|]; [discriminate|reflexivity].
Qed.

(** C4. Whatever the message and whatever the classifier says of it,
    the detector returns; when the classifier answers, the confidence it
    reports is at least 0.3, whether the intent is the classifier's or
    the text-generation service's; when a call of the classifier throws,
    the detector reports "unknown" at 0.1, the error path that the
    specification sets apart from the floor. *)
Theorem detectIntent_confidence_floor (E : Env) (message : value) (w : World) :
  ∃ intent w',
    detectIntent E message w = (Ok intent, w')
    ∧ match classifier_outcome E message with
      | Some _ => (0.3 <= i_confidence intent)%Q
      | None => intent = mkIntent "unknown" 0.1 (Some "fallback")
      end.
Proof.
  destruct (classifier_outcome E message) as [[label cs]|] eqn:Hc.
  - pose proof (detectIntent_classified E message w label cs Hc) as H.
    cbv zeta in H.
    destruct (lt _ _ && key_configured E).
    + destruct H as (w' & _ & ->). do 2 eexists. split; [reflexivity|].
      destruct (service_text E _ w); simpl;
        [discriminate | apply Math_max_floor].
    + rewrite H. do 2 eexists. split; [reflexivity | apply Math_max_floor].
  - rewrite (detectIntent_unclassified E message w Hc). eauto.
Qed.



(** *** The response generator *)

Lemma templates_nonempty (name : string) (templates : list string) :
  responseTemplates !! name = Some templates → (0 < length templates)%nat.
Proof.
  unfold responseTemplates. intros H.
  repeat (apply lookup_insert_Some in H as [[_ <-]|[_ H]]; [simpl; lia|]).
  rewrite lookup_empty in H. discriminate.
Qed.

Lemma pick_next (pool : list string) (w : World) :
  pick pool w
  = (Ok (pool !! random_index (next_random w) (length pool)), after_random w).
Proof.
  unfold pick, Math_random, next_random, after_random, JS.bind, JS.ret.
  destruct (randoms w); reflexivity.
Qed.

(** C5. With a template set for the intent and a confidence above 0.7,
    the response is a template of that set, personalized; the template
    is the one at index [floor (r * n)] for the draw [r] and the size
    [n] of the set, so that index [i] is taken exactly for the draws
    between [i/n] and [(i+1)/n]: a uniform draw gives a uniform choice.
    Without a set, or at a confidence of 0.7 or less, the response comes
    from the generative and fallback code, not from the templates. *)
Theorem generateResponse_template_path (E : Env) (message : value)
    (intent : Intent) (entities : list Entity) (sentiment : Sentiment)
    (context : Context) (w : World) :
  (0 <= next_random w)%Q → (next_random w < 1)%Q →
  (∀ templates,
     responseTemplates !! i_name intent = Some templates →
     (0.7 < i_confidence intent)%Q →
     ∃ template,
       templates !! random_index (next_random w) (length templates)
       = Some template
       ∧ generateResponse E message intent entities sentiment context w
         = (Ok (personalizeResponse template sentiment context), after_random w)
       ∧ ∀ i, random_index (next_random w) (length templates) = i
              ↔ (inject_Z (Z.of_nat i) / inject_Z (Z.of_nat (length templates))
                 <= next_random w
                 ∧ next_random w
                   < inject_Z (Z.of_nat i + 1)
                     / inject_Z (Z.of_nat (length templates)))%Q)
  ∧ (responseTemplates !! i_name intent = None
     ∨ (i_confidence intent <= 0.7)%Q →
     generateResponse E message intent entities sentiment context w
     = match dynamic_response E message intent entities sentiment context w with
       | (Ok response, w') => (Ok response, w')
       | (Throw _, w') => (Ok generation_apology, w')
       end).
Proof.
  intros Hr0 Hr1. split.
  - intros templates Hset Hconf.
    pose proof (templates_nonempty _ _ Hset) as Hn.
    pose proof (random_index_bound _ _ Hn Hr0 Hr1) as Hidx.
    apply lookup_lt_is_Some in Hidx as [template Hidx].
    exists template. split; [exact Hidx|]. split.
    + unfold generateResponse, JS.try_catch. rewrite Hset.
      apply gt_true_iff in Hconf. rewrite Hconf.
      unfold template_response.
      rewrite (bind_ok _ _ _ _ _ (pick_next templates w)).
      rewrite Hidx. reflexivity.
    + intros i. apply random_index_interval; assumption.
  - intros Hnot. unfold generateResponse, JS.try_catch.
    assert (match responseTemplates !! i_name intent with
            | Some templates =>
                if gt (i_confidence intent) 0.7
                then template_response templates sentiment context
                else dynamic_response E message intent entities sentiment context
            | None => dynamic_response E message intent entities sentiment context
            end
            = dynamic_response E message intent entities sentiment context)
      as ->.
    { destruct Hnot as [-> | Hle]; [reflexivity|].
      apply gt_false_iff in Hle. rewrite Hle.
      destruct (responseTemplates !! i_name intent); reflexivity. }
    destruct (dynamic_response E message intent entities sentiment context w)
      as [[response|e] w']; reflexivity.
Qed.

Lemma generateResponse_template_path_witness :
  ∃ template,
    AIService.templates_greeting !! 2%nat = Some template
    ∧ generateResponse Scenario.offline (Str "hello")
        (mkIntent "greeting" 0.9 (Some "classifier")) [] neutral
        default_context Scenario.fresh
      = (Ok template, after_random Scenario.fresh).
Proof.
  destruct (generateResponse_template_path Scenario.offline (Str "hello")
              (mkIntent "greeting" 0.9 (Some "classifier")) [] neutral
              default_context Scenario.fresh) as [Hpath _].
  - discriminate.
  - reflexivity.
  - destruct (Hpath AIService.templates_greeting) as (template & Hidx & Hres & _).
    + reflexivity.
    + reflexivity.
    + exists template. split; [exact Hidx|].
      rewrite Hres. vm_compute in Hidx. injection Hidx as <-. reflexivity.
Defined.


(** *** What the pipeline leaves alone *)

Section Frame.
Context {X : Type} (f : World → X) (E : Env).
Hypothesis f_clock : ∀ t w, f (set_clock t w) = f w.
Hypothesis f_pending : ∀ p w, f (set_pending p w) = f w.
Hypothesis f_randoms : ∀ r w, f (set_randoms r w) = f w.
Hypothesis f_log :
  key_configured E = false ∨ ∀ l w, f (set_openai_log l w) = f w.

Lemma preserves_ret {A} (a : A) : preserves f (JS.ret a).
Proof. intros w. reflexivity. Qed.

Lemma preserves_throw {A} (e : error) : preserves f (@JS.throw World A e).
Proof. intros w. reflexivity. Qed.

Lemma preserves_bind {A B} (m : JSM A) (k : A → JSM B) :
  preserves f m → (∀ a, preserves f (k a)) → preserves f (JS.bind m k).
Proof.
  intros Hm Hk w. specialize (Hm w). unfold JS.bind.
  destruct (m w) as [[a|e] w1]; simpl in *; [|exact Hm].
  rewrite Hk. exact Hm.
Qed.

Lemma preserves_try {A} (m : JSM A) (h : error → JSM A) :
  preserves f m → (∀ e, preserves f (h e)) → preserves f (JS.try_catch m h).
Proof.
  intros Hm Hh w. specialize (Hm w). unfold JS.try_catch.
  destruct (m w) as [[a|e] w1]; simpl in *; [exact Hm|].
  rewrite Hh. exact Hm.
Qed.

(** What follows a statement that always throws is not run. *)
Lemma preserves_unreached {A B} (m : JSM A) (k : A → JSM B) :
  (∀ w, ∃ e, m w = (Throw e, w)) → preserves f (JS.bind m k).
Proof.
  intros Hm w. unfold JS.bind. destruct (Hm w) as (e & ->). reflexivity.
Qed.

Lemma preserves_gets {A} (g : World → A) : preserves f (JS.gets g).
Proof. intros w. reflexivity. Qed.

Lemma preserves_lift {A} (r : result A) : preserves f (lift r).
Proof. intros w. reflexivity. Qed.

Lemma preserves_console_log (msg : string) :
  preserves f (@JS.console_log World msg).
Proof. intros w. reflexivity. Qed.

Lemma preserves_receiver {A} (r : option A) : preserves f (receiver r).
Proof. intros w. destruct r; reflexivity. Qed.

Lemma preserves_command : preserves f command.
Proof.
  intros w. unfold command.
  destruct (pending w) as [|ev rest]; [reflexivity|].
  destruct (io_fails ev); simpl; rewrite f_pending, f_clock; reflexivity.
Qed.

Lemma preserves_Math_random : preserves f Math_random.
Proof.
  intros w. unfold Math_random.
  destruct (randoms w); simpl; [reflexivity | apply f_randoms].
Qed.

Ltac frame_step :=
  first
    [ apply preserves_ret | apply preserves_throw | apply preserves_gets
    | apply preserves_lift | apply preserves_console_log
    | apply preserves_receiver | apply preserves_command
    | apply preserves_Math_random
    | apply preserves_bind; [|intros ?]
    | apply preserves_try; [|intros ?]
    | match goal with
      | |- preserves _ (if ?b && key_configured E then _ else _) =>
          case (b && key_configured E)
      | |- preserves _ (if key_configured E then _ else _) =>
          case (key_configured E)
      | |- preserves _ (match ?x with _ => _ end) => destruct x
      | |- preserves _ (if ?b then _ else _) => destruct b
      end ].

Lemma preserves_getCache (key : string) : preserves f (getCache key).
Proof.
  unfold getCache, client_get, JSON_parse, Date_now. repeat frame_step.
Qed.

Lemma preserves_completions_create (request : CompletionRequest) :
  preserves f (completions_create E request).
Proof.
  unfold completions_create, openai.
  destruct f_log as [-> | Hlog].
  - intros w. reflexivity.
  - destruct (key_configured E); [|intros w; reflexivity].
    apply preserves_bind; [apply preserves_receiver|]. intros client.
    apply preserves_bind; [intros w; apply Hlog|]. intros _.
    apply preserves_bind; [apply preserves_command|]. intros _.
    apply preserves_lift.
Qed.

Lemma preserves_first_content (response : ChatCompletion) :
  preserves f (first_content response).
Proof.
  intros w. unfold first_content.
  destruct (choices response) as [|c ?]; [|destruct (content c)]; reflexivity.
Qed.

Ltac frame :=
  repeat first
    [ apply preserves_getCache | apply preserves_completions_create
    | apply preserves_first_content | frame_step ].

Lemma preserves_detectIntent (message : value) :
  preserves f (detectIntent E message).
Proof. unfold detectIntent. frame. Qed.

Lemma preserves_extractEntities (message : value) :
  preserves f (extractEntities E message).
Proof. unfold extractEntities. frame. Qed.

Lemma preserves_analyzeSentiment (message : value) :
  preserves f (analyzeSentiment E message).
Proof. unfold analyzeSentiment. frame. Qed.

Lemma preserves_getContext (userId roomId : string) :
  preserves f (getContext userId roomId).
Proof. unfold getContext. frame. Qed.

Lemma preserves_generateFallbackResponse (intent : Intent)
    (sentiment : Sentiment) :
  preserves f (generateFallbackResponse intent sentiment).
Proof. unfold generateFallbackResponse, pick. frame. Qed.

Lemma preserves_generateResponse (message : value) (intent : Intent)
    (entities : list Entity) (sentiment : Sentiment) (context : Context) :
  preserves f (generateResponse E message intent entities sentiment context).
Proof.
  unfold generateResponse, template_response, dynamic_response, pick.
  frame; apply preserves_generateFallbackResponse.
Qed.

Lemma preserves_processMessage (message : value) (userId roomId : string) :
  preserves f (processMessage E message userId roomId).
Proof.
  unfold processMessage, processMessage_body, String_toLowerCase, Date_now.
  apply preserves_bind; [apply preserves_gets|]. intros startTime.
  apply preserves_try; [|intros e; frame].
  destruct message as [| |q|text];
    [apply preserves_unreached; intros w; eexists; reflexivity.. |].
  apply preserves_bind; [apply preserves_ret|]. intros lowered.
  apply preserves_bind; [apply preserves_getCache|]. intros [cached|];
    [frame|].
  apply preserves_bind; [apply preserves_detectIntent|]. intros intent.
  apply preserves_bind; [apply preserves_extractEntities|]. intros entities.
  apply preserves_bind; [apply preserves_analyzeSentiment|]. intros sentiment.
  apply preserves_bind; [apply preserves_getContext|]. intros context.
  apply preserves_bind; [apply preserves_generateResponse|]. intros response.
  apply preserves_bind; [apply preserves_gets|]. intros now.
  apply preserves_unreached. intros w.
  rewrite updateContext_throws. eauto.
Qed.

End Frame.

(** X6. Whatever the message, the caller, the libraries and the world
    are, [processMessage] stores nothing: the cache and the learning data
    are after the call what they were before it. *)
Theorem processMessage_stores_nothing (E : Env) (message : value)
    (userId roomId : string) (w : World) :
  redisClient (processMessage E message userId roomId w).2 = redisClient w
  ∧ learningData (processMessage E message userId roomId w).2
    = learningData w.
Proof.
  split;
    apply (preserves_processMessage _ E); try reflexivity;
    right; reflexivity.
Qed.

(** X7. Without an API key, [processMessage] sends no request to the
    text-generation service, whatever the message is and whatever the
    classifier says of it. *)
Theorem processMessage_without_key (E : Env) (message : value)
    (userId roomId : string) (w : World) :
  key_configured E = false →
  openai_log (processMessage E message userId roomId w).2 = openai_log w.
Proof.
  intros Hkey.
  apply (preserves_processMessage _ E); try reflexivity.
  left. exact Hkey.
Qed.

Lemma processMessage_without_key_witness :
  openai_log (processMessage Scenario.offline (Str "what is this?")
                "u1" "r1" Scenario.fresh).2 = [].
Proof.
  exact (processMessage_without_key Scenario.offline
           (Str "what is this?") "u1" "r1" Scenario.fresh eq_refl).
Defined.

(** *** The learning data *)

Lemma lastN_app_lastN {A} (n : nat) (l k : list A) :
  lastN n (lastN n l ++ k) = lastN n (l ++ k).
Proof.
  unfold lastN. rewrite !length_app, length_drop.
  destruct (decide (List.length l ≤ n)%nat) as [Hle|Hgt].
  - replace (List.length l - n)%nat with 0%nat by lia. simpl.
    f_equal. lia.
  - replace (List.length l - (List.length l - n) + List.length k - n)%nat
      with (List.length k) by lia.
    replace (List.length l + List.length k - n)%nat
      with ((List.length l - n) + List.length k)%nat by lia.
    rewrite <- drop_drop. f_equal.
    rewrite drop_app_le by lia. reflexivity.
Qed.

Lemma storeLearningData_step (data : LearningDatum) (w : World) :
  learningData (storeLearningData data w).2
  = lastN 1000 (learningData w ++ [data]).
Proof.
  unfold storeLearningData, JS.modify. simpl.
  destruct (Nat.ltb_spec 1000 (List.length (learningData w ++ [data])))
    as [Hlt|Hge]; [reflexivity|].
  unfold lastN.
  replace (List.length (learningData w ++ [data]) - 1000)%nat with 0%nat by lia.
  reflexivity.
Qed.

(** X8. The learning data are a window on what was stored: starting from
    at most 1000 examples, after any number of calls of
    [storeLearningData] they are the last 1000 of the examples there were
    followed by the stored ones, in the order of the calls; so they never
    exceed 1000 and the latest example is the last one. *)
Theorem learningData_window (stored : list LearningDatum) (w : World) :
  (List.length (learningData w) ≤ 1000)%nat →
  let w' := fold_left (λ w data, (storeLearningData data w).2) stored w in
  learningData w' = lastN 1000 (learningData w ++ stored)
  ∧ (List.length (learningData w') ≤ 1000)%nat
  ∧ (stored ≠ [] → last (learningData w') = last stored).
Proof.
  intros Hlen. cbv zeta.
  assert (learningData
            (fold_left (λ w data, (storeLearningData data w).2) stored w)
          = lastN 1000 (learningData w ++ stored)) as Hwindow.
  { revert w Hlen. induction stored as [|data rest IH]; intros w Hlen.
    - simpl. rewrite app_nil_r. unfold lastN.
      replace (List.length (learningData w) - 1000)%nat with 0%nat by lia.
      reflexivity.
    - cbn [fold_left]. rewrite IH.
      + rewrite storeLearningData_step, lastN_app_lastN, <- app_assoc.
        reflexivity.
      + rewrite storeLearningData_step. unfold lastN.
        rewrite length_drop. lia. }
  rewrite Hwindow. split; [reflexivity|]. split.
  - unfold lastN. rewrite length_drop. lia.
  - intros Hne. destruct (exists_last Hne) as (front & latest & ->).
    rewrite last_snoc, app_assoc. unfold lastN.
    rewrite drop_app_le by (rewrite !length_app; simpl; lia).
    apply last_snoc.
Qed.

Lemma learningData_window_witness :
  learningData
    (fold_left (λ w data, (storeLearningData data w).2)
               [Scenario.example "a"; Scenario.example "b"] Scenario.fresh)
  = [Scenario.example "a"; Scenario.example "b"].
Proof.
  destruct (learningData_window
              [Scenario.example "a"; Scenario.example "b"] Scenario.fresh)
    as (Hwindow & _); [simpl; lia|].
  rewrite Hwindow. reflexivity.
Defined.

(** *** Responses without the text-generation service *)

Lemma pick_from (pool : list string) (w : World) :
  ∃ choice w', pick pool w = (Ok choice, w')
               ∧ ∀ text, choice = Some text → text ∈ pool.
Proof.
  unfold pick, Math_random, JS.bind, JS.ret.
  destruct (randoms w) as [|r rest];
    (do 2 eexists; split; [reflexivity|];
     intros text Hat; eapply list_elem_of_lookup_2; exact Hat).
Qed.

Lemma generateFallbackResponse_texts (intent : Intent) (sentiment : Sentiment)
    (w : World) :
  ∃ r w', generateFallbackResponse intent sentiment w = (r, w')
          ∧ ∀ text, r = Ok text → text ∈ fallback_texts.
Proof.
  unfold generateFallbackResponse, fallback_texts.
  repeat (destruct (String.eqb _ _);
          [do 2 eexists; split; [reflexivity|];
           intros text [= <-]; set_solver|]).
  destruct sentiment;
    try (do 2 eexists; split; [reflexivity|];
         intros text [= <-]; set_solver);
    unfold JS.bind;
    destruct (pick_from generic_fallbacks w) as (choice & w' & -> & Hin);
    (destruct choice as [text'|];
     [ do 2 eexists; split; [reflexivity|];
       intros text [= <-]; apply elem_of_app; right; apply Hin; reflexivity
     | do 2 eexists; split; [reflexivity|]; intros text [=] ]).
Qed.

Lemma dynamic_response_without_key (E : Env) (message : value)
    (intent : Intent) (entities : list Entity) (sentiment : Sentiment)
    (context : Context) (w : World) :
  key_configured E = false →
  dynamic_response E message intent entities sentiment context w
  = generateFallbackResponse intent sentiment w.
Proof. intros Hkey. unfold dynamic_response. rewrite Hkey. reflexivity. Qed.

(** X9. Without an API key no request is sent and every response is a
    canned one.  When the intent has a template set and its confidence is
    above 0.7, one number is drawn and the response is the template at
    the drawn index of that set, personalized (the apology, should the
    index fall outside the set).  Otherwise the response is what
    [generateFallbackResponse] gives for the intent and the sentiment,
    one of the fixed fallback texts (the apology, should it throw). *)
Theorem generateResponse_without_key (E : Env) (message : value)
    (intent : Intent) (entities : list Entity) (sentiment : Sentiment)
    (context : Context) (w : World) :
  key_configured E = false →
  ∃ response w',
    generateResponse E message intent entities sentiment context w
    = (Ok response, w')
    ∧ openai_log w' = openai_log w
    ∧ (∀ templates,
         responseTemplates !! i_name intent = Some templates →
         (0.7 < i_confidence intent)%Q →
         w' = after_random w
         ∧ match templates !! random_index (next_random w) (length templates)
           with
           | Some template =>
               template ∈ templates
               ∧ response = personalizeResponse template sentiment context
           | None => response = generation_apology
           end)
    ∧ (responseTemplates !! i_name intent = None
       ∨ (i_confidence intent <= 0.7)%Q →
       response ∈ fallback_texts
       ∧ (response, w')
         = match generateFallbackResponse intent sentiment w with
           | (Ok text, w1) => (text, w1)
           | (Throw _, w1) => (generation_apology, w1)
           end).
Proof.
  intros Hkey.
  assert (generation_apology ∈ fallback_texts) as Hapology
    by (unfold fallback_texts; set_solver).
  assert (openai_log
            (generateResponse E message intent entities sentiment context w).2
          = openai_log w) as Hlog.
  { apply (preserves_generateResponse _ E); try reflexivity.
    left. exact Hkey. }
  assert (∃ response w',
            JS.try_catch
              (dynamic_response E message intent entities sentiment context)
              (λ error,
                 run JS.console_log "Response generation error:" then
                 JS.ret generation_apology) w = (Ok response, w')
            ∧ response ∈ fallback_texts
            ∧ (response, w')
              = match generateFallbackResponse intent sentiment w with
                | (Ok text, w1) => (text, w1)
                | (Throw _, w1) => (generation_apology, w1)
                end) as Hdynamic.
  { unfold JS.try_catch.
    rewrite (dynamic_response_without_key E message intent entities sentiment
               context w Hkey).
    destruct (generateFallbackResponse_texts intent sentiment w)
      as ([text|e] & w' & -> & Hin).
    - do 2 eexists. split; [reflexivity|]. split; [|reflexivity].
      apply Hin. reflexivity.
    - do 2 eexists. split; [reflexivity|]. split; [|reflexivity].
      exact Hapology. }
  revert Hlog. unfold generateResponse.
  destruct (responseTemplates !! i_name intent) as [templates|] eqn:Hset;
    [destruct (gt (i_confidence intent) 0.7) eqn:Hsure|].
  - unfold template_response, JS.try_catch.
    rewrite (bind_ok _ _ _ _ _ (pick_next templates w)).
    intros Hlog.
    destruct (templates !! random_index (next_random w) (length templates))
      as [template|] eqn:Hidx;
      (do 2 eexists; split; [reflexivity|]; split; [exact Hlog|]; split;
       [intros ? [= <-] _; split; [reflexivity|]
       |intros [Hnone | Hle];
        [discriminate Hnone
        |apply gt_false_iff in Hle; congruence]]).
    + rewrite Hidx. split; [|reflexivity].
      eapply list_elem_of_lookup_2, Hidx.
    + rewrite Hidx. reflexivity.
  - intros Hlog. destruct Hdynamic as (response & w' & Hrun & Hin & Hexact).
    rewrite Hrun in Hlog. exists response, w'.
    split; [exact Hrun|]. split; [exact Hlog|]. split; [|auto].
    intros ? _ Hconf. apply gt_true_iff in Hconf. congruence.
  - intros Hlog. destruct Hdynamic as (response & w' & Hrun & Hin & Hexact).
    rewrite Hrun in Hlog. exists response, w'.
    split; [exact Hrun|]. split; [exact Hlog|]. split; [|auto].
    intros ? [=].
Qed.

Lemma generateResponse_without_key_witness :
  (∃ template,
     AIService.templates_greeting !! 2%nat = Some template
     ∧ generateResponse Scenario.offline (Str "hello")
         (mkIntent "greeting" 0.9 (Some "classifier")) [] neutral
         default_context Scenario.fresh
       = (Ok template, after_random Scenario.fresh))
  ∧ ∃ response w',
      generateResponse Scenario.offline (Str "why?")
        (mkIntent "question" 0.5 (Some "classifier")) [] neutral
        default_context Scenario.fresh = (Ok response, w')
      ∧ response ∈ fallback_texts.
Proof.
  split.
  - destruct (generateResponse_without_key Scenario.offline (Str "hello")
                (mkIntent "greeting" 0.9 (Some "classifier")) [] neutral
                default_context Scenario.fresh eq_refl)
      as (response & w' & Hrun & _ & Htemplate & _).
    destruct (Htemplate AIService.templates_greeting eq_refl eq_refl)
      as (-> & Hpick).
    destruct (AIService.templates_greeting !! 2%nat) as [template|] eqn:Hidx;
      [|discriminate Hidx].
    exists template. split; [reflexivity|]. rewrite Hrun.
    change (AIService.templates_greeting
              !! random_index (next_random Scenario.fresh)
                   (length AIService.templates_greeting))
      with (AIService.templates_greeting !! 2%nat) in Hpick.
    rewrite Hidx in Hpick. destruct Hpick as (_ & ->).
    vm_compute in Hidx. injection Hidx as <-. reflexivity.
  - destruct (generateResponse_without_key Scenario.offline (Str "why?")
                (mkIntent "question" 0.5 (Some "classifier")) [] neutral
                default_context Scenario.fresh eq_refl)
      as (response & w' & Hrun & _ & _ & Hfallback).
    exists response, w'. split; [exact Hrun|].
    apply Hfallback. right. discriminate.
Defined.

(** *** Full stops in a personalized response *)

Lemma includes_dot_cons (c : ascii) (s : string) :
  includes (String c s) "." = Ascii.eqb c "." || includes s ".".
Proof.
  change (includes (String c s) ".")
    with (if startsWith "." (String c s) then true else includes s ".").
  change (startsWith "." (String c s))
    with (if Ascii.eqb "." c then startsWith EmptyString s else false).
  rewrite (Ascii.eqb_sym "." c).
  destruct (Ascii.eqb c "."); [destruct s|]; reflexivity.
Qed.

Lemma includes_dot_app (a b : string) :
  includes (a ++ b) "." = includes a "." || includes b ".".
Proof.
  induction a as [|c a IH]; [reflexivity|].
  change (String c a ++ b) with (String c (a ++ b)).
  rewrite !includes_dot_cons, IH, orb_assoc. reflexivity.
Qed.

Lemma replaceAllDots_no_dot (s r : string) :
  includes r "." = false → includes (replaceAllDots s r) "." = false.
Proof.
  intros Hr. induction s as [|c s IH]; [reflexivity|].
  simpl replaceAllDots. destruct (Ascii.eqb c ".") eqn:Hc.
  - rewrite includes_dot_app, Hr, IH. reflexivity.
  - rewrite includes_dot_cons, Hc, IH. reflexivity.
Qed.

Lemma endsWithDot_includes (s : string) :
  endsWithDot s = true → includes s "." = true.
Proof.
  induction s as [|c s IH]; [discriminate|].
  rewrite includes_dot_cons. destruct s as [|c' s'].
  - simpl. intros ->. reflexivity.
  - intros H. rewrite IH by exact H. apply orb_true_r.
Qed.

Lemma replaceFinalDot_flat (s r : string) :
  endsWithDot s = false → replaceFinalDot s r = s.
Proof.
  induction s as [|c s IH]; [reflexivity|].
  destruct s as [|c' s'].
  - simpl. intros ->. reflexivity.
  - intros H. change (replaceFinalDot (String c (String c' s')) r)
      with (String c (replaceFinalDot (String c' s') r)).
    rewrite IH by exact H. reflexivity.
Qed.

(** X10. A response without emoji, personalized for a positive
    sentiment, is the response with every full stop replaced by an
    exclamation mark and a smile, whatever the context is: no full stop
    is left in it, be it the end of a sentence or not. *)
Theorem positive_response_has_no_full_stop (response : string)
    (context : Context) :
  has_emoji response = false →
  personalizeResponse response positive context
  = replaceAllDots response ("! " ++ emoji_smile)
  ∧ includes (personalizeResponse response positive context) "." = false.
Proof.
  intros Hplain.
  assert (includes (replaceAllDots response ("! " ++ emoji_smile)) "."
          = false) as Hnone
    by (apply replaceAllDots_no_dot; reflexivity).
  assert (endsWithDot (replaceAllDots response ("! " ++ emoji_smile))
          = false) as Hflat.
  { destruct (endsWithDot _) eqn:Hd; [|reflexivity].
    apply endsWithDot_includes in Hd. congruence. }
  assert (personalizeResponse response positive context
          = replaceAllDots response ("! " ++ emoji_smile)) as Heq.
  { unfold personalizeResponse. rewrite Hplain. simpl negb. cbv iota.
    destruct (conversationHistory context) as [[|entry history]|];
      try destruct (unique (recentTopics (entry :: history)))
        as [|topic [|]];
      rewrite ?replaceFinalDot_flat by exact Hflat;
      rewrite Hflat; destruct (_ && _); reflexivity. }
  rewrite Heq. split; [reflexivity | exact Hnone].
Qed.

Lemma positive_response_has_no_full_stop_witness :
  personalizeResponse "Version 3.5 is out." positive default_context
  = "Version 3! " ++ emoji_smile ++ "5 is out! " ++ emoji_smile.
Proof.
  destruct (positive_response_has_no_full_stop "Version 3.5 is out."
              default_context eq_refl) as [-> _].
  reflexivity.
Defined.

Lemma endsWithDot_app (a b : string) :
  b ≠ EmptyString → endsWithDot (a ++ b) = endsWithDot b.
Proof.
  intros Hb. induction a as [|c a IH]; [reflexivity|].
  change (String c a ++ b) with (String c (a ++ b)).
  destruct (a ++ b) as [|c' rest] eqn:Hab.
  - destruct a; [simpl in Hab; contradiction | discriminate].
  - exact IH.
Qed.

(** X11. However a response is personalized, the result does not end
    in a plain full stop: if it ends in one, it holds an emoji or an
    exclamation mark somewhere. *)
Theorem personalized_ending (response : string) (sentiment : Sentiment)
    (context : Context) :
  endsWithDot (personalizeResponse response sentiment context) = true →
  has_emoji (personalizeResponse response sentiment context)
  || includes (personalizeResponse response sentiment context) "!" = true.
Proof.
  unfold personalizeResponse.
  match goal with
  | |- context [if negb (has_emoji ?p) && _ then _ else _] =>
      generalize p
  end.
  intros personalized.
  destruct (has_emoji personalized) eqn:Hemoji;
    [cbn [negb andb]; intros _; rewrite Hemoji; reflexivity|].
  destruct (includes personalized "!") eqn:Hbang;
    [cbn [negb andb]; intros _; rewrite Hemoji, Hbang; reflexivity|].
  cbn [negb andb]. destruct (endsWithDot personalized) eqn:Hdot.
  - rewrite endsWithDot_app by discriminate. discriminate.
  - rewrite Hdot. discriminate.
Qed.

Lemma personalized_ending_witness :
  has_emoji (personalizeResponse "Great! It is done." neutral
               default_context)
  || includes (personalizeResponse "Great! It is done." neutral
                 default_context) "!" = true.
Proof.
  apply personalized_ending. reflexivity.
Defined.

End AIFacts.

(** ** Conversations *)

Module ChatFacts.
Import ChatService Runs Notions Scenario.

(** *** Reasoning on a run: what holds of the outcome and the world *)

Lemma wp_ret {A} (a : A) (w : World) Q : Q (Ok a) w → wp (JS.ret a) w Q.
Proof. exact id. Qed.

Lemma wp_throw {A} (e : error) (w : World) (Q : result A → World → Prop) :
  Q (Throw e) w → wp (JS.throw e) w Q.
Proof. exact id. Qed.

Lemma wp_bind {A B} (m : JSM A) (k : A → JSM B) (w : World) Q :
  wp m w (λ r w', match r with
                  | Ok a => wp (k a) w' Q
                  | Throw e => Q (Throw e) w'
                  end) →
  wp (JS.bind m k) w Q.
Proof. unfold wp, JS.bind. destruct (m w) as [[a|e] w']; exact id. Qed.

Lemma wp_try {A} (m : JSM A) (h : error → JSM A) (w : World) Q :
  wp m w (λ r w', match r with
                  | Ok a => Q (Ok a) w'
                  | Throw e => wp (h e) w' Q
                  end) →
  wp (JS.try_catch m h) w Q.
Proof. unfold wp, JS.try_catch. destruct (m w) as [[a|e] w']; exact id. Qed.

Lemma wp_weaken {A} (m : JSM A) (w : World) (Q Q' : result A → World → Prop) :
  wp m w Q → (∀ r w', Q r w' → Q' r w') → wp m w Q'.
Proof. unfold wp. auto. Qed.

Lemma wp_rethrowing {A} (label : string) (m : JSM A) (w : World) Q :
  wp m w Q → wp (rethrowing label m) w Q.
Proof.
  unfold rethrowing, wp, JS.try_catch. destruct (m w) as [[a|e] w']; exact id.
Qed.

Lemma wp_steady {A} (m : JSM A) (w : World) Q :
  steady m → (∀ r w', chats w' = chats w → Q r w') → wp m w Q.
Proof. unfold wp, steady. auto. Qed.

Lemma steady_ret {A} (a : A) : steady (JS.ret a).
Proof. intros w. reflexivity. Qed.

Lemma steady_throw {A} (e : error) : steady (@JS.throw World A e).
Proof. intros w. reflexivity. Qed.

Lemma steady_bind {A B} (m : JSM A) (k : A → JSM B) :
  steady m → (∀ a, steady (k a)) → steady (JS.bind m k).
Proof.
  intros Hm Hk w. unfold JS.bind. specialize (Hm w).
  destruct (m w) as [[a|e] w']; simpl in *; [|exact Hm].
  rewrite (Hk a w'). exact Hm.
Qed.

Lemma steady_try {A} (m : JSM A) (h : error → JSM A) :
  steady m → (∀ e, steady (h e)) → steady (JS.try_catch m h).
Proof.
  intros Hm Hh w. unfold JS.try_catch. specialize (Hm w).
  destruct (m w) as [[a|e] w']; simpl in *; [exact Hm|].
  rewrite (Hh e w'). exact Hm.
Qed.

Lemma steady_gets {A} (f : World → A) : steady (JS.gets f).
Proof. intros w. reflexivity. Qed.

Lemma steady_modify (f : World → World) :
  (∀ w, chats (f w) = chats w) → steady (JS.modify f).
Proof. intros Hf w. apply Hf. Qed.

Lemma steady_command : steady command.
Proof.
  intros w. unfold command.
  destruct (pending w) as [|ev rest]; [reflexivity|].
  destruct (io_fails ev); reflexivity.
Qed.

Lemma steady_console_log (msg : string) : steady (@JS.console_log World msg).
Proof. intros w. reflexivity. Qed.

Create HintDb steady discriminated.
#[local] Hint Resolve steady_ret steady_throw steady_gets steady_command
  steady_console_log : steady.
#[local] Hint Extern 2 (steady (JS.bind _ _)) =>
  apply steady_bind; [|intros ?] : steady.
#[local] Hint Extern 2 (steady (JS.try_catch _ _)) =>
  apply steady_try; [|intros ?] : steady.
#[local] Hint Extern 2 (steady (JS.modify _)) =>
  apply steady_modify; intros ? : steady.
#[local] Hint Extern 3 (steady (match ?x with _ => _ end)) =>
  destruct x : steady.
#[local] Hint Extern 4 (chats (match ?x with _ => _ end) = _) =>
  destruct x : steady.
#[local] Hint Extern 5 (chats _ = chats _) => reflexivity : steady.

Ltac steady := auto 20 with steady.

Lemma steady_getCache (key : string) : steady (getCache key).
Proof.
  unfold getCache, client_get, JSON_parse, Date_now. steady.
Qed.

Lemma steady_setCache (key : string) (value : Cacheable) (ttl : Z) :
  steady (setCache key value ttl).
Proof.
  unfold setCache, client_setEx, JSON_stringify, Date_now. steady.
Qed.

Lemma steady_deleteCache (key : string) : steady (deleteCache key).
Proof. unfold deleteCache, client_del. steady. Qed.

Lemma steady_findOne (roomId : string) : steady (findOne roomId).
Proof. unfold findOne. steady. Qed.

Lemma steady_find_inactive (threshold : Z) : steady (find_inactive threshold).
Proof. unfold find_inactive. steady. Qed.

Lemma steady_User_findById (userId : string) : steady (User_findById userId).
Proof. unfold User_findById. steady. Qed.

Lemma steady_track_join (userId roomId : string) :
  steady (track_join userId roomId).
Proof. unfold track_join, Date_now. steady. Qed.

Lemma steady_track_activity (roomId : string) : steady (track_activity roomId).
Proof. unfold track_activity, Date_now. steady. Qed.

Lemma steady_untrack (roomId : string) : steady (untrack roomId).
Proof. unfold untrack. steady. Qed.

#[local] Hint Resolve steady_getCache steady_setCache steady_deleteCache
  steady_findOne steady_find_inactive steady_User_findById steady_track_join
  steady_track_activity steady_untrack : steady.

Lemma wp_quiet {A} (m : JSM A) (w : World) Q :
  quiet m → (∀ a w', chats w' = chats w → Q (Ok a) w') → wp m w Q.
Proof.
  unfold wp. intros Hm HQ. destruct (Hm w) as (a & Ha & Hc).
  rewrite Ha. apply HQ, Hc.
Qed.

Lemma quiet_of_total {A} (m : JSM A) :
  steady m → (∀ w, ∃ a w', m w = (Ok a, w')) → quiet m.
Proof.
  intros Hs Ht w. destruct (Ht w) as (a & w' & Hw).
  exists a. split; [rewrite Hw; reflexivity | apply Hs].
Qed.

Lemma quiet_getCache (key : string) : quiet (getCache key).
Proof.
  apply quiet_of_total; [steady | apply RedisFacts.getCache_total].
Qed.

Lemma quiet_setCache (key : string) (value : Cacheable) (ttl : Z) :
  quiet (setCache key value ttl).
Proof.
  apply quiet_of_total; [steady | apply RedisFacts.setCache_total].
Qed.

Lemma quiet_deleteCache (key : string) : quiet (deleteCache key).
Proof.
  apply quiet_of_total; [steady | apply RedisFacts.deleteCache_total].
Qed.

Lemma quiet_track_join (userId roomId : string) :
  quiet (track_join userId roomId).
Proof. apply quiet_of_total; [steady | intros w; eauto]. Qed.

Lemma quiet_track_activity (roomId : string) : quiet (track_activity roomId).
Proof. apply quiet_of_total; [steady | intros w; eauto]. Qed.

Lemma quiet_untrack (roomId : string) : quiet (untrack roomId).
Proof. apply quiet_of_total; [steady | intros w; eauto]. Qed.

Lemma quiet_console_log (msg : string) : quiet (@JS.console_log World msg).
Proof. apply quiet_of_total; [steady | intros w; eauto]. Qed.

Lemma quiet_Date_now : quiet Date_now.
Proof. apply quiet_of_total; [unfold Date_now; steady | intros w; eauto]. Qed.

Lemma quiet_fresh_oid : quiet fresh_oid.
Proof. intros w. eexists. split; reflexivity. Qed.

Create HintDb quiet discriminated.
#[local] Hint Resolve quiet_getCache quiet_setCache quiet_deleteCache
  quiet_track_join quiet_track_activity quiet_untrack quiet_console_log
  quiet_Date_now quiet_fresh_oid : quiet.

Lemma wp_elim {A} (m : JSM A) (w : World) Q : wp m w Q → Q (m w).1 (m w).2.
Proof. exact id. Qed.

Lemma wp_detached {A} (m : JSM A) (w : World) Q :
  wp m w (λ _ w', Q (Ok tt) w') → wp (JS.detached m) w Q.
Proof. exact id. Qed.

(** *** What [save] and [getChat] do to the collection *)

Lemma wp_lift {A} (r : result A) (w : World) Q : Q r w → wp (lift r) w Q.
Proof. exact id. Qed.

Lemma wp_gets {A} (f : World → A) (w : World) Q :
  Q (Ok (f w)) w → wp (JS.gets f) w Q.
Proof. exact id. Qed.

Lemma save_spec (chat : ChatObj) (w : World) Q :
  match chat with
  | Document k c v =>
      (∀ e w', chats w' = chats w → Q (Throw e) w')
      ∧ (∀ w', chats w' = <[k := pre_save (clock w) c]> (chats w) →
               Q (Ok (Document k (pre_save (clock w) c) v)) w')
  | _ => ∀ e, Q (Throw e) w
  end →
  wp (save chat) w Q.
Proof.
  unfold wp, save, as_document, command. js_unfold.
  destruct chat as [k c v|c v|]; simpl; [|auto..].
  intros [Hthrow Hok].
  destruct (pending w) as [|ev rest]; simpl.
  - apply Hok. reflexivity.
  - destruct (io_fails ev); simpl; [apply Hthrow | apply Hok]; reflexivity.
Qed.

Lemma findOne_spec (roomId : string) (w : World) Q :
  (∀ e w', chats w' = chats w → Q (Throw e) w') →
  (∀ w', chats w' = chats w →
         Q (Ok ((λ c, Document roomId c []) <$> chats w !! roomId)) w') →
  wp (findOne roomId) w Q.
Proof.
  unfold wp, findOne, command. js_unfold. intros Hthrow Hok.
  destruct (pending w) as [|ev rest]; simpl.
  - apply Hok. reflexivity.
  - destruct (io_fails ev); simpl; [apply Hthrow | apply Hok]; reflexivity.
Qed.

Lemma getChat_spec (roomId : string) (w : World) Q :
  (∀ r w', chats w' = chats w → fetched roomId (chats w') r → Q (Ok r) w') →
  wp (getChat roomId) w Q.
Proof.
  intros HQ. unfold getChat.
  assert (∀ (e : error) w', chats w' = chats w →
            wp (JS.bind (JS.console_log "Error getting chat:")
                  (λ _, JS.ret None)) w' Q) as Hcatch.
  { intros e w' Hw'. apply wp_bind, wp_quiet; [auto with quiet|].
    intros [] w'' Hw''. apply wp_ret, HQ; [congruence | exact I]. }
  apply wp_try, wp_bind, wp_quiet; [auto with quiet|].
  intros [v|] w1 H1.
  - apply wp_ret, HQ; [exact H1|]. destruct v; exact I.
  - apply wp_bind, findOne_spec.
    + intros e w2 H2. apply (Hcatch e). congruence.
    + intros w2 H2. apply wp_bind. unfold populate.
      apply wp_bind, wp_gets, wp_ret.
      destruct (chats w1 !! roomId) as [c|] eqn:Hc; simpl.
      * apply wp_bind, wp_quiet; [auto with quiet|].
        intros b w3 H3.
        apply wp_ret, HQ; [congruence|]. simpl. split; [reflexivity|].
        split; [congruence | apply length_map].
      * apply wp_ret, HQ; [congruence | exact I].
Qed.

Lemma find_inactive_spec (threshold : Z) (w : World) Q :
  (∀ e w', chats w' = chats w → Q (Throw e) w') →
  (∀ w', chats w' = chats w →
         Q (Ok (map (λ kc, Document (kc.1) (kc.2) [])
                  (List.filter (inactive threshold) (map_to_list (chats w)))))
           w') →
  wp (find_inactive threshold) w Q.
Proof.
  unfold wp, find_inactive, command. js_unfold. intros Hthrow Hok.
  destruct (pending w) as [|ev rest]; simpl.
  - apply Hok. reflexivity.
  - destruct (io_fails ev); simpl; [apply Hthrow | apply Hok]; reflexivity.
Qed.

Lemma NoDup_fst_filter {A} (f : string * A → bool) (l : list (string * A)) :
  NoDup (map fst l) → NoDup (map fst (List.filter f l)).
Proof.
  induction l as [|x l IH]; simpl; [auto|].
  intros Hnd. apply NoDup_cons in Hnd as [Hx Hl].
  destruct (f x); simpl; [|auto].
  apply NoDup_cons. split; [|auto].
  intros Hin. apply Hx.
  apply list_elem_of_In, in_map_iff in Hin as (y & Hy & Hin).
  apply filter_In in Hin as [Hin _].
  apply list_elem_of_In, in_map_iff. eauto.
Qed.

(** *** Participants that were populated *)

(** Where every participant is populated, no comparison with an id
    holds: the search finds nobody, or throws on a [null]. *)
Lemma find_first_populated (v : list UserView) (userId : string)
    (ps : list Participant) (i : nat) :
  (i + List.length ps ≤ List.length v)%nat →
  find_first (same_user v userId) i ps = Ok None
  ∨ ∃ e, find_first (same_user v userId) i ps = Throw e.
Proof.
  revert i. induction ps as [|p ps IH]; intros i Hi; simpl; [auto|].
  simpl in Hi. unfold same_user at 1 3.
  destruct (lookup_lt_is_Some_2 v i) as [[|] ->]; [lia | | eauto].
  apply IH. lia.
Qed.

Lemma find_first_active_populated (v : list UserView) (userId : string)
    (ps : list Participant) (i : nat) :
  (i + List.length ps ≤ List.length v)%nat →
  find_first (active_user v userId) i ps = Ok None
  ∨ ∃ e, find_first (active_user v userId) i ps = Throw e.
Proof.
  revert i. induction ps as [|p ps IH]; intros i Hi; simpl; [auto|].
  simpl in Hi. unfold active_user at 1 3, same_user.
  destruct (lookup_lt_is_Some_2 v i) as [[|] ->]; [lia | | eauto].
  simpl. apply IH. lia.
Qed.

(** *** Evolution of the collection under the operations *)

Section Evolution.
Variable R : string → relation Chat.
Hypothesis HR : closed R.

Lemma R_pre_save (k : string) (now : Z) (c : Chat) : R k c (pre_save now c).
Proof.
  unfold pre_save. destruct (messages c); [apply HR | apply HR].
Qed.

Lemma evolves_refl (m : gmap string Chat) : evolves R m m.
Proof. intros k c Hk. exists c. split; [exact Hk | apply HR]. Qed.

Lemma evolves_insert (m0 m : gmap string Chat) (k : string) (c c' : Chat)
    (v : list UserView) :
  evolves R m0 m → tracks R m (Document k c v) → R k c c' →
  evolves R m0 (<[k := c']> m).
Proof.
  intros Hev (c1 & Hk1 & H1) Hcc' j c0 Hj.
  destruct (Hev j c0 Hj) as (cj & Hcj & H0).
  destruct (decide (k = j)) as [<-|Hne].
  - exists c'. rewrite lookup_insert_eq. split; [reflexivity|].
    assert (cj = c1) as -> by congruence.
    eapply (R_trans R HR); [exact H0|].
    eapply (R_trans R HR); eassumption.
  - exists cj. rewrite lookup_insert_ne by exact Hne. auto.
Qed.

Lemma tracks_step (m : gmap string Chat) (k : string) (c c' : Chat)
    (v v' : list UserView) :
  tracks R m (Document k c v) → R k c c' → tracks R m (Document k c' v').
Proof.
  intros (c1 & Hk & H1) H. exists c1. split; [exact Hk|].
  eapply (R_trans R HR); eassumption.
Qed.

Lemma tracks_fetched (roomId : string) (m : gmap string Chat) (chat : ChatObj) :
  fetched roomId m (Some chat) → tracks R m chat.
Proof.
  destruct chat as [k c v|c v|]; simpl; auto.
  intros (-> & Hk & _). exists c. split; [exact Hk | apply HR].
Qed.

(** [save]: the collection evolves, and the document returned is the one
    stored. *)
Lemma save_evolves (m0 : gmap string Chat) (chat : ChatObj) (w : World) Q :
  evolves R m0 (chats w) →
  tracks R (chats w) chat →
  (∀ e w', evolves R m0 (chats w') → Q (Throw e) w') →
  (∀ k c v w', chat = Document k c v →
               evolves R m0 (chats w') →
               tracks R (chats w') (Document k (pre_save (clock w) c) v) →
               Q (Ok (Document k (pre_save (clock w) c) v)) w') →
  wp (save chat) w Q.
Proof.
  intros Hev Htr Hthrow Hok. apply save_spec.
  destruct chat as [k c v|c v|]; [|intros e; apply Hthrow, Hev..].
  split.
  - intros e w' Hw'. apply Hthrow. rewrite Hw'. exact Hev.
  - intros w' Hw'. apply (Hok k c v w' eq_refl).
    + rewrite Hw'. eapply evolves_insert; [exact Hev | exact Htr|].
      apply R_pre_save.
    + rewrite Hw'. eexists. rewrite lookup_insert_eq.
      split; [reflexivity | apply HR].
Qed.

Lemma as_document_spec (method : string) (chat : ChatObj) (w : World) Q :
  match chat with
  | Document k c _ => Q (Ok (k, c)) w
  | _ => ∀ e, Q (Throw e) w
  end →
  wp (as_document method chat) w Q.
Proof. unfold wp. destruct chat; simpl; auto. Qed.

Ltac carry :=
  repeat match goal with
         | H : chats ?w' = chats ?w |- _ => try rewrite <- H in *; clear H
         end.

Ltac quiet_bind :=
  apply wp_bind, wp_quiet;
  [solve [auto with quiet] | intros ? ? ?; cbv beta iota; carry].

Ltac document_bind chat :=
  apply wp_bind, as_document_spec;
  destruct chat as [?k ?c ?v|?c ?v|];
  [cbv beta iota; simpl fst; simpl snd; simpl populated_of|..].

(** The instance methods, each ending in a [save]. *)
Lemma method_evolves (m0 : gmap string Chat) (k : string) (c c' : Chat)
    (v v' : list UserView) (w : World) Q :
  evolves R m0 (chats w) →
  tracks R (chats w) (Document k c v) →
  R k c c' →
  (∀ e w', evolves R m0 (chats w') → Q (Throw e) w') →
  (∀ chat' w', evolves R m0 (chats w') → tracks R (chats w') chat' →
               Q (Ok chat') w') →
  wp (save (Document k c' v')) w Q.
Proof.
  intros Hev Htr Hstep Hthrow Hok.
  apply (save_evolves m0); [exact Hev | | exact Hthrow |].
  - eapply tracks_step; eassumption.
  - intros k' c'' v'' w' _ Hev' Htr'. apply Hok; assumption.
Qed.

Lemma addParticipant_evolves (m0 : gmap string Chat) (chat : ChatObj)
    (userId role : string) (w : World) Q :
  evolves R m0 (chats w) →
  tracks R (chats w) chat →
  (∀ e w', evolves R m0 (chats w') → Q (Throw e) w') →
  (∀ chat' w', evolves R m0 (chats w') → tracks R (chats w') chat' →
               Q (Ok chat') w') →
  wp (addParticipant chat userId role) w Q.
Proof.
  intros Hev Htr Hthrow Hok. unfold addParticipant.
  document_bind chat; [|intros e; apply Hthrow, Hev..].
  apply wp_bind, wp_lift.
  destruct (find_first _ _ _) as [[i|]|e]; [| |apply Hthrow, Hev].
  - quiet_bind. apply (method_evolves m0 k c c v); auto. apply HR.
  - quiet_bind. apply (method_evolves m0 k c _ v); auto. apply HR.
Qed.

Lemma addMessage_evolves (m0 : gmap string Chat) (chat : ChatObj)
    (messageData : MessageObj) (w : World) Q :
  match chat with
  | Document k c _ =>
      ∀ m, m_feedback m = None → R k c (set_messages (messages c ++ [m]) c)
  | _ => True
  end →
  evolves R m0 (chats w) →
  tracks R (chats w) chat →
  (∀ e w', evolves R m0 (chats w') → Q (Throw e) w') →
  (∀ chat' w', evolves R m0 (chats w') → tracks R (chats w') chat' →
               Q (Ok chat') w') →
  wp (addMessage chat messageData) w Q.
Proof.
  intros Happ Hev Htr Hthrow Hok. unfold addMessage.
  document_bind chat; [|intros e; apply Hthrow, Hev..].
  quiet_bind. quiet_bind.
  destruct (mo_intent messageData); [|apply wp_throw, Hthrow, Hev].
  apply (method_evolves m0 k c _ v); auto.
Qed.

Lemma joinChat_evolves (userId roomId : string) (m0 : gmap string Chat)
    (w : World) :
  evolves R m0 (chats w) →
  wp (joinChat userId roomId) w (settled R m0).
Proof.
  intros Hev. unfold joinChat.
  apply wp_rethrowing, wp_bind, getChat_spec. intros r w1 H1 Hf. carry.
  destruct r as [chat|]; [|apply wp_throw, Hev].
  apply tracks_fetched in Hf.
  destruct (status_of chat) as [[]|]; try apply wp_throw, Hev.
  apply wp_bind.
  assert (∀ ps,
    wp (JS.bind
          (lift (find_first (active_user (populated_of chat) userId) 0 ps))
          (λ isParticipant,
       JS.bind
         (match isParticipant with
          | None =>
              JS.bind (addParticipant chat userId "user") (λ chat0,
              JS.bind (save chat0) (λ chat1,
              JS.bind (setCache (chat_key roomId) (cacheable chat1) 3600)
                (λ _, JS.ret chat1)))
          | Some _ => JS.ret chat
          end) (λ chat0,
       JS.bind (track_join userId roomId) (λ _, JS.ret chat0))))
       w1 (settled R m0)) as Hrest.
  { intros ps. apply wp_bind, wp_lift.
    destruct (find_first _ _ _) as [[i|]|e]; [| |exact Hev].
    - apply wp_bind, wp_ret. quiet_bind. apply wp_ret. assumption.
    - apply wp_bind, wp_bind, (addParticipant_evolves m0); auto.
      intros chat' w2 Hev2 Htr2.
      apply wp_bind, (save_evolves m0); auto.
      intros k' c' v' w3 _ Hev3 Htr3.
      quiet_bind. apply wp_ret. quiet_bind. apply wp_ret. assumption. }
  destruct chat as [k c v|c v|]; simpl participants_of;
    [apply wp_ret, Hrest | apply wp_ret, Hrest | apply wp_throw, Hev].
Qed.

Ltac steady_bind :=
  apply wp_bind, wp_steady;
  [solve [steady]
  | intros [?|?] ? ?; cbv beta iota; carry; [|assumption]].

Lemma saveMessage_evolves (messageData : MessageData)
    (m0 : gmap string Chat) (w : World) :
  (∀ c m, m_feedback m = None →
          R (md_roomId messageData) c (set_messages (messages c ++ [m]) c)) →
  evolves R m0 (chats w) →
  wp (saveMessage messageData) w (settled R m0).
Proof.
  intros Happ Hev. unfold saveMessage.
  apply wp_rethrowing, wp_bind, getChat_spec. intros r w1 H1 Hf. carry.
  destruct r as [chat|]; [|apply wp_throw, Hev].
  assert (match chat with
          | Document k c _ =>
              ∀ m, m_feedback m = None →
                   R k c (set_messages (messages c ++ [m]) c)
          | _ => True
          end) as Happ'.
  { destruct chat as [k c v|c v|]; try exact I.
    destruct Hf as (-> & _). apply Happ. }
  apply tracks_fetched in Hf.
  apply wp_bind, (addMessage_evolves m0); auto.
  intros chat' w2 Hev2 Htr2.
  document_bind chat'; [|intros e; assumption..].
  quiet_bind.
  apply wp_bind, (method_evolves m0 k c _ v); auto; [apply HR|].
  intros chat'' w3 Hev3 Htr3.
  quiet_bind. quiet_bind.
  document_bind chat''; [|intros e; assumption..].
  apply wp_ret. assumption.
Qed.

Lemma updateChatAnalytics_evolves (m0 : gmap string Chat) (chat : ChatObj)
    (w : World) Q :
  evolves R m0 (chats w) →
  tracks R (chats w) chat →
  (∀ w', evolves R m0 (chats w') → Q (Ok tt) w') →
  wp (updateChatAnalytics chat) w Q.
Proof.
  intros Hev Htr HQ. unfold updateChatAnalytics.
  apply wp_try.
  document_bind chat;
    [|intros e; quiet_bind; apply wp_ret, HQ; assumption..].
  apply wp_detached.
  destruct (omap rating_of (messages c)).
  - apply (method_evolves m0 k c c v); auto. apply HR.
  - apply (method_evolves m0 k c _ v); auto. apply HR.
Qed.

Lemma addMessageFeedback_evolves (roomId : string) (messageId : nat)
    (feedback : FeedbackArg) (m0 : gmap string Chat) (w : World) :
  (∀ c now,
     R roomId c
       (set_messages
          (set_feedback messageId
             (mkFeedback (fa_rating feedback) (fa_comment feedback) now)
             (messages c)) c)) →
  evolves R m0 (chats w) →
  wp (addMessageFeedback roomId messageId feedback) w (settled R m0).
Proof.
  intros Hset Hev. unfold addMessageFeedback.
  apply wp_rethrowing, wp_bind, getChat_spec. intros r w1 H1 Hf. carry.
  destruct r as [chat|]; [|apply wp_throw, Hev].
  assert (match chat with Document k _ _ => k = roomId | _ => True end)
    as Hk.
  { destruct chat as [k c v|c v|]; try exact I. apply Hf. }
  apply tracks_fetched in Hf.
  document_bind chat; [|intros e; assumption..].
  subst k.
  destruct (List.find _ _); [|apply wp_throw, Hev].
  quiet_bind.
  apply wp_bind, (method_evolves m0 roomId c _ v); auto.
  intros chat' w2 Hev2 Htr2.
  quiet_bind.
  apply wp_bind, (updateChatAnalytics_evolves m0); auto.
  intros w3 Hev3.
  document_bind chat'; [|intros e; assumption..].
  destruct (List.find _ _); [apply wp_ret | apply wp_throw]; assumption.
Qed.

Lemma archiveChat_evolves (roomId userId : string) (m0 : gmap string Chat)
    (w : World) :
  (∀ c, R roomId c (set_status archived c)) →
  evolves R m0 (chats w) →
  wp (archiveChat roomId userId) w (settled R m0).
Proof.
  intros Harch Hev. unfold archiveChat.
  apply wp_rethrowing, wp_bind, getChat_spec. intros r w1 H1 Hf. carry.
  destruct r as [chat|]; [|apply wp_throw, Hev].
  assert (match chat with Document k _ _ => k = roomId | _ => True end)
    as Hk.
  { destruct chat as [k c v|c v|]; try exact I. apply Hf. }
  apply tracks_fetched in Hf.
  steady_bind.
  destruct (negb _); [apply wp_throw; assumption|].
  apply wp_bind, (save_evolves m0); auto.
  - destruct chat as [k c v|c v|]; try exact I. subst k.
    eapply tracks_step; [eassumption | apply Harch].
  - intros k c v w2 _ Hev2 Htr2.
    quiet_bind. quiet_bind. apply wp_ret. assumption.
Qed.

Lemma pause_all_evolves (kcs : list (string * Chat)) (m0 : gmap string Chat)
    (w : World) :
  (∀ k c, status c = active → R k c (set_status paused c)) →
  evolves R m0 (chats w) →
  NoDup (map fst kcs) →
  Forall (λ kc, chats w !! kc.1 = Some (kc.2) ∧ status (kc.2) = active) kcs →
  wp (pause_all (map (λ kc, Document (kc.1) (kc.2) []) kcs)) w
     (λ r w', evolves R m0 (chats w')).
Proof.
  intros Hpause. revert w.
  induction kcs as [|[k c] kcs IH]; intros w Hev Hnd Hall; simpl.
  - apply wp_ret, Hev.
  - apply NoDup_cons in Hnd as [Hk Hnd].
    apply Forall_cons in Hall as [[Hkc Hact] Hall]. simpl in Hkc, Hact.
    apply wp_bind, wp_ret. cbv beta iota. simpl fst. simpl snd.
    apply wp_bind, save_spec. split.
    + intros e w' Hw'. rewrite Hw'. exact Hev.
    + intros w' Hw'.
      apply wp_bind, wp_quiet; [auto with quiet|]. intros [] w2 Hw2.
      apply IH; [| exact Hnd |].
      * rewrite Hw2, Hw'.
        eapply (evolves_insert _ _ _ c _ []); [exact Hev | |].
        -- exists c. split; [exact Hkc | apply HR].
        -- eapply (R_trans R HR);
             [apply Hpause, Hact | apply R_pre_save].
      * rewrite Hw2, Hw'.
        apply Forall_forall. intros [k' c'] Hin.
        rewrite Forall_forall in Hall. specialize (Hall _ Hin).
        simpl in *. rewrite lookup_insert_ne; [exact Hall|].
        intros ->. apply Hk.
        apply list_elem_of_In, in_map_iff. exists (k', c').
        split; [reflexivity | apply list_elem_of_In, Hin].
Qed.

Lemma inactive_listed (threshold : Z) (m : gmap string Chat) :
  Forall (λ kc, m !! kc.1 = Some (kc.2) ∧ status (kc.2) = active)
         (List.filter (inactive threshold) (map_to_list m)).
Proof.
  apply Forall_forall. intros [k c] Hin.
  apply list_elem_of_In, filter_In in Hin as [Hin Hact].
  apply list_elem_of_In, elem_of_map_to_list in Hin.
  split; [exact Hin|].
  unfold inactive in Hact. simpl in *. destruct (status c); congruence.
Qed.

Lemma cleanupInactiveChats_evolves (m0 : gmap string Chat) (w : World) :
  (∀ k c, status c = active → R k c (set_status paused c)) →
  evolves R m0 (chats w) →
  wp cleanupInactiveChats w (settled R m0).
Proof.
  intros Hpause Hev. unfold cleanupInactiveChats.
  assert (∀ w', evolves R m0 (chats w') →
            wp (JS.console_log "Error cleaning up inactive chats:") w'
               (settled R m0)) as Hcatch.
  { intros w' Hev'. apply wp_quiet; [auto with quiet|].
    intros ? ? ?. carry. assumption. }
  apply wp_try. quiet_bind.
  apply wp_bind, find_inactive_spec.
  - intros e w2 H2. carry. apply Hcatch, Hev.
  - intros w2 H2. apply wp_bind.
    eapply wp_weaken.
    + apply pause_all_evolves.
      * exact Hpause.
      * rewrite H2. exact Hev.
      * apply NoDup_fst_filter, NoDup_fst_map_to_list.
      * rewrite H2. apply inactive_listed.
    + intros [[]|e] w3 Hev3; [|apply Hcatch, Hev3].
      apply wp_quiet; [auto with quiet|]. intros ? ? ?. carry. assumption.
Qed.

End Evolution.

(** *** Leaving a conversation *)

Lemma steady_getChat (roomId : string) : steady (getChat roomId).
Proof.
  intros w. apply (wp_elim (getChat roomId) w (λ _ w', chats w' = chats w)).
  apply getChat_spec. auto.
Qed.

(** [endChat] never gets past its test: a document that [getChat] read
    has every participant populated, so that nobody in it compares equal
    to the id; and on the plain object from the cache
    [removeParticipant] is missing. *)
Lemma endChat_rejects (roomId userId : string) (w : World) :
  ∃ e, endChat roomId userId w = (Throw e, (getChat roomId w).2).
Proof.
  pose proof (wp_elim _ _ _
                (getChat_spec roomId w
                   (λ r w', ∃ found, r = Ok found
                                     ∧ fetched roomId (chats w') found)
                   (λ r w' _ Hf, ex_intro _ r (conj eq_refl Hf)))) as Hspec.
  unfold endChat, rethrowing, JS.try_catch. unfold JS.bind at 1.
  destruct (getChat roomId w) as [r w1]. simpl in Hspec.
  destruct Hspec as (found & -> & Hf). simpl snd.
  destruct found as [[k c v|c v|]|]; [| | |eexists; reflexivity].
  - destruct Hf as (_ & _ & Hv). simpl participants_of.
    unfold JS.bind at 1, JS.ret at 1. unfold JS.bind at 1, lift.
    simpl populated_of.
    destruct (find_first_populated v userId (participants c) 0)
      as [-> | [e ->]]; [lia | |]; eexists; reflexivity.
  - simpl participants_of.
    unfold JS.bind at 1, JS.ret at 1. unfold JS.bind at 1, lift.
    simpl populated_of.
    destruct (find_first _ _ _) as [[i|]|e]; eexists; reflexivity.
  - eexists; reflexivity.
Qed.

(** *** Runs of the service *)

Lemma set_feedback_twice (messageId : nat) (f f' : Feedback)
    (ms : list Message) :
  set_feedback messageId f' (set_feedback messageId f ms)
  = set_feedback messageId f' ms.
Proof.
  induction ms as [|m ms IH]; simpl; [reflexivity|].
  destruct (Nat.eqb (m_id m) messageId) eqn:Hid; simpl; rewrite Hid.
  - reflexivity.
  - rewrite IH. reflexivity.
Qed.

Lemma status_step_trans (op : Op) (k : string) (s1 s2 s3 : Status) :
  status_step op k s1 s2 → status_step op k s2 s3 → status_step op k s1 s3.
Proof.
  destruct op; simpl; intros H12 H23; try congruence.
  - destruct H12 as [->|[-> ->]], H23 as [->|[? ->]]; auto.
  - destruct H12 as [->|[-> ->]], H23 as [->|[? ->]]; auto; discriminate.
Qed.

Lemma messages_step_trans (op : Op) (k : string) (ms1 ms2 ms3 : list Message) :
  messages_step op k ms1 ms2 → messages_step op k ms2 ms3 →
  messages_step op k ms1 ms3.
Proof.
  destruct op; simpl; intros H12 H23; try congruence.
  - destruct H12 as (a1 & -> & Hf1 & Hk1), H23 as (a2 & -> & Hf2 & Hk2).
    exists (a1 ++ a2)%list. rewrite app_assoc.
    split; [reflexivity|]. split; [apply Forall_app; auto|].
    intros Hne. destruct a1; [apply Hk2; exact Hne | apply Hk1; discriminate].
  - destruct H12 as [->|[-> [now1 ->]]]; [exact H23|].
    destruct H23 as [->|[_ [now2 ->]]]; right; (split; [reflexivity|]).
    + eauto.
    + exists now2. apply set_feedback_twice.
Qed.

Lemma step_closed (op : Op) : closed (step op).
Proof.
  assert (∀ k c c', status c' = status c → messages c' = messages c →
                    step op k c c') as Hsame.
  { intros k c c' Hs Hm. unfold step. rewrite Hs, Hm.
    split; destruct op; simpl; auto.
    exists []. rewrite app_nil_r. repeat split; auto. congruence. }
  split.
  - intros k c. apply Hsame; reflexivity.
  - intros k c1 c2 c3 [Hs12 Hm12] [Hs23 Hm23].
    split; [eapply status_step_trans | eapply messages_step_trans];
      eassumption.
  - intros k c a. apply Hsame; reflexivity.
  - intros k c ps. apply Hsame; reflexivity.
Qed.

(** What one operation does to a conversation. *)
Lemma perform_step (op : Op) (w : World) (k : string) (c : Chat) :
  chats w !! k = Some c →
  ∃ c', chats (perform op w) !! k = Some c' ∧ step op k c c'.
Proof.
  assert (evolves (step op) (chats w) (chats (perform op w))) as Hev;
    [|intros Hc; exact (Hev k c Hc)].
  pose proof (evolves_refl (step op) (step_closed op) (chats w)) as H0.
  destruct op as [userId roomId|messageData|roomId messageId feedback
                 |roomId userId|roomId userId| |now outcomes client];
    try exact H0.
  - apply (wp_elim _ w (settled _ (chats w))), joinChat_evolves;
      [apply step_closed | exact H0].
  - apply (wp_elim _ w (settled _ (chats w))), saveMessage_evolves;
      [apply step_closed | | exact H0].
    intros c0 m Hm. split; simpl; [reflexivity|].
    exists [m]. repeat split; auto.
  - apply (wp_elim _ w (settled _ (chats w))), addMessageFeedback_evolves;
      [apply step_closed | | exact H0].
    intros c0 now. split; simpl; [reflexivity|]. right. eauto.
  - simpl. destruct (endChat_rejects roomId userId w) as [e ->].
    simpl. rewrite steady_getChat. exact H0.
  - apply (wp_elim _ w (settled _ (chats w))), archiveChat_evolves;
      [apply step_closed | | exact H0].
    intros c0. split; simpl; auto.
  - apply (wp_elim _ w (settled _ (chats w))), cleanupInactiveChats_evolves;
      [apply step_closed | | exact H0].
    intros k0 c0 Hact. split; simpl; auto.
Qed.

(** *** The status of a conversation *)

Lemma status_step_listed (op : Op) (k : string) (s s' : Status) :
  status_step op k s s' → s' = s ∨ listed s s'.
Proof.
  destruct op; simpl; auto.
  - intros [->|[_ ->]]; [auto | right; constructor].
  - intros [->|[-> ->]]; [auto | right; constructor].
Qed.

Lemma status_run_step (op : Op) (k : string) (s1 s2 s3 : Status) :
  status_step op k s1 s2 → status_run s2 s3 → status_run s1 s3.
Proof.
  unfold status_run.
  destruct op; simpl; intros H12 H23; try (subst s2; exact H23).
  - destruct H12 as [->|[_ ->]]; [exact H23|].
    destruct H23 as [->|[[? _]| ->]]; auto; discriminate.
  - destruct H12 as [->|[-> ->]]; [exact H23|].
    destruct H23 as [->|[[? _]| ->]]; auto; discriminate.
Qed.

Lemma status_run_listed (s s' : Status) : status_run s s' → rtc listed s s'.
Proof.
  intros [->|[[-> ->]| ->]];
    [reflexivity | apply rtc_once; constructor..].
Qed.

Lemma perform_all_status (ops : list Op) (w : World) (k : string) (c : Chat) :
  chats w !! k = Some c →
  ∃ c', chats (perform_all ops w) !! k = Some c'
        ∧ status_run (status c) (status c').
Proof.
  revert w c. induction ops as [|op ops IH]; intros w c Hc; simpl.
  - exists c. split; [exact Hc | left; reflexivity].
  - destruct (perform_step op w k c Hc) as (c1 & Hc1 & Hst & _).
    destruct (IH _ c1 Hc1) as (c' & Hc' & Hrun).
    exists c'. split; [exact Hc'|].
    eapply status_run_step; eassumption.
Qed.



(** *** The messages of a conversation *)

Lemma find_set_feedback (messageId : nat) (f : Feedback) (ms : list Message)
    (m : Message) :
  List.find (λ m, Nat.eqb (m_id m) messageId) ms = Some m →
  List.find (λ m, Nat.eqb (m_id m) messageId) (set_feedback messageId f ms)
  = Some (with_feedback (Some f) m).
Proof.
  induction ms as [|m' ms IH]; simpl; [discriminate|].
  destruct (Nat.eqb (m_id m') messageId) eqn:Hid; simpl.
  - intros [= <-]. rewrite Hid. reflexivity.
  - rewrite Hid. exact IH.
Qed.

Lemma messages_pre_save (now : Z) (c : Chat) :
  messages (pre_save now c) = messages c.
Proof. unfold pre_save. destruct (messages c) eqn:H; simpl; exact H. Qed.

(** What [addMessageFeedback] returns, and leaves in the store. *)
Lemma addMessageFeedback_overwrites (roomId : string) (messageId : nat)
    (feedback : FeedbackArg) (w : World) :
  wp (addMessageFeedback roomId messageId feedback) w
     (λ r w', ∀ message, r = Ok message →
        ∃ c old now c',
          chats w !! roomId = Some c
          ∧ List.find (λ m, Nat.eqb (m_id m) messageId) (messages c) = Some old
          ∧ message
            = with_feedback
                (Some (mkFeedback (fa_rating feedback) (fa_comment feedback) now))
                old
          ∧ chats w' !! roomId = Some c'
          ∧ List.find (λ m, Nat.eqb (m_id m) messageId) (messages c')
            = Some message).
Proof.
  unfold addMessageFeedback.
  apply wp_rethrowing, wp_bind, getChat_spec. intros r w1 H1 Hf.
  rewrite H1 in Hf.
  destruct r as [chat|]; [|apply wp_throw; discriminate].
  apply wp_bind, as_document_spec.
  destruct chat as [k c v|c v|]; [|discriminate..].
  destruct Hf as (-> & Hc & _). cbv beta iota. simpl fst. simpl snd.
  simpl populated_of.
  destruct (List.find _ (messages c)) as [old|] eqn:Hold;
    [|apply wp_throw; discriminate].
  apply wp_bind, wp_quiet; [auto with quiet|]. intros now w2 H2.
  cbv beta iota.
  set (f := mkFeedback (fa_rating feedback) (fa_comment feedback) now).
  set (c1 := set_messages (set_feedback messageId f (messages c)) c).
  apply wp_bind, save_spec. split; [discriminate|].
  intros w3 H3.
  apply wp_bind, wp_quiet; [auto with quiet|]. intros b w4 H4.
  cbv beta iota.
  assert (chats w4 !! roomId = Some (pre_save (clock w2) c1)) as Hstored.
  { rewrite H4, H3. apply lookup_insert_eq. }
  assert (List.find (λ m, Nat.eqb (m_id m) messageId)
            (messages (pre_save (clock w2) c1))
          = Some (with_feedback (Some f) old)) as Hfound.
  { rewrite messages_pre_save. apply find_set_feedback, Hold. }
  apply wp_bind. unfold updateChatAnalytics.
  apply wp_try, wp_bind, as_document_spec. cbv beta iota.
  simpl fst. simpl snd.
  apply wp_detached, save_spec.
  assert (∀ w5 c2,
            chats w5 !! roomId = Some c2 →
            messages c2 = messages (pre_save (clock w2) c1) →
            wp (JS.bind (as_document "messages"
                           (Document roomId (pre_save (clock w2) c1) v))
                  (λ doc,
                     match List.find (λ m, Nat.eqb (m_id m) messageId)
                                     (messages (doc.2)) with
                     | Some message => JS.ret message
                     | None => JS.throw (Error "Message not found")
                     end)) w5
               (λ r w', ∀ message, r = Ok message →
                  ∃ c old now c',
                    chats w !! roomId = Some c
                    ∧ List.find (λ m, Nat.eqb (m_id m) messageId) (messages c)
                      = Some old
                    ∧ message
                      = with_feedback
                          (Some (mkFeedback (fa_rating feedback)
                                   (fa_comment feedback) now)) old
                    ∧ chats w' !! roomId = Some c'
                    ∧ List.find (λ m, Nat.eqb (m_id m) messageId) (messages c')
                      = Some message)) as Htail.
  { intros w5 c2 Hc2 Hms. apply wp_bind, wp_ret. cbv beta iota. simpl snd.
    rewrite Hfound. apply wp_ret. intros message [= <-].
    exists c, old, now, c2. rewrite Hms, Hfound. auto. }
  destruct (omap rating_of _); split.
  - intros e w5 H5. eapply Htail; [rewrite H5; exact Hstored | reflexivity].
  - intros w5 H5. eapply Htail; [rewrite H5; apply lookup_insert_eq|].
    rewrite !messages_pre_save; simpl; rewrite ?messages_pre_save; reflexivity.
  - intros e w5 H5. eapply Htail; [rewrite H5; exact Hstored | reflexivity].
  - intros w5 H5. eapply Htail; [rewrite H5; apply lookup_insert_eq|].
    rewrite !messages_pre_save; simpl; rewrite ?messages_pre_save; reflexivity.
Qed.

(** *** The aggregates *)

Lemma average_pre_save (now : Z) (c : Chat) :
  messages c ≠ [] →
  averageResponseTime (analytics (pre_save now c))
  = mean (map m_responseTime (messages c)).
Proof.
  unfold pre_save. destruct (messages c) eqn:H; [congruence|].
  intros _. reflexivity.
Qed.

(** What [saveMessage] returns, and leaves in the store. *)
Lemma saveMessage_appends (messageData : MessageData) (w : World) :
  wp (saveMessage messageData) w
     (λ r w', ∀ message, r = Ok message →
        ∃ c m c',
          chats w !! md_roomId messageData = Some c
          ∧ message = Some m
          ∧ m_responseTime m = q_or (md_responseTime messageData) 0
          ∧ chats w' !! md_roomId messageData = Some c'
          ∧ messages c' = (messages c ++ [m])%list
          ∧ averageResponseTime (analytics c')
            = mean (map m_responseTime (messages c'))).
Proof.
  unfold saveMessage. set (roomId := md_roomId messageData).
  apply wp_rethrowing, wp_bind, getChat_spec. intros r w1 H1 Hf.
  rewrite H1 in Hf.
  destruct r as [chat|]; [|apply wp_throw; discriminate].
  apply wp_bind. unfold addMessage.
  apply wp_bind, as_document_spec.
  destruct chat as [k c v|c v|]; [|discriminate..].
  destruct Hf as (-> & Hc & _). cbv beta iota. simpl fst. simpl snd.
  simpl populated_of.
  apply wp_bind, wp_quiet; [auto with quiet|]. intros oid w2 H2.
  apply wp_bind, wp_quiet; [auto with quiet|]. intros now w3 H3.
  cbv beta iota. simpl mo_intent.
  destruct (intent_label (md_intent messageData)) as [intent|];
    [|apply wp_throw; discriminate].
  match goal with
  | |- wp (save (Document _ (set_messages (_ ++ [?m0]) _) _)) _ _ =>
      set (m := m0)
  end.
  set (c1 := set_messages (messages c ++ [m]) c).
  assert (messages c1 ≠ []) as Hne.
  { unfold c1. simpl. intros Hnil. apply app_eq_nil in Hnil as [_ ?].
    discriminate. }
  apply save_spec. split; [discriminate|]. intros w4 H4.
  apply wp_bind, as_document_spec. cbv beta iota. simpl fst. simpl snd.
  apply wp_bind, wp_quiet; [auto with quiet|]. intros now' w5 H5.
  cbv beta iota.
  set (c2 := refresh_analytics now' (pre_save (clock w3) c1)).
  assert (messages c2 = messages c1) as Hms2.
  { unfold c2. simpl. apply messages_pre_save. }
  apply wp_bind, save_spec. split; [discriminate|]. intros w6 H6.
  apply wp_bind, wp_quiet; [auto with quiet|]. intros b w7 H7.
  apply wp_bind, wp_quiet; [auto with quiet|]. intros [] w8 H8.
  cbv beta iota.
  apply wp_bind, as_document_spec. cbv beta iota. simpl snd.
  apply wp_ret. intros message [= <-].
  exists c, m, (pre_save (clock w5) c2).
  split; [exact Hc|].
  rewrite messages_pre_save, Hms2.
  split; [unfold c1; simpl; apply last_snoc|].
  split; [reflexivity|].
  split; [rewrite H8, H7, H6; apply lookup_insert_eq|].
  split; [reflexivity|].
  rewrite average_pre_save by (rewrite Hms2; exact Hne).
  rewrite Hms2. reflexivity.
Qed.

(** With a connected cache, [getChat] hands out the plain object it
    cached one call earlier, and the instance methods are missing on it:
    the second [saveMessage] of an hour throws. *)
Example saveMessage_on_cached_chat :
  let connected :=
    set_redisClient (Some (mkRedisClient true ∅)) Scenario.idle in
  (∃ m, (saveMessage (turn 100) connected).1 = Ok (Some m))
  ∧ (saveMessage (turn 200) (perform (SaveMessage (turn 100)) connected)).1
    = Throw (TypeError "chat.addMessage is not a function").
Proof. split; [eexists|]; vm_compute; reflexivity. Qed.

(** C7. When [saveMessage] has appended a message, the stored
    [averageResponseTime] of the conversation is the sum of the latencies
    of all its messages, the new one included, divided by their number. *)
Theorem average_after_append (messageData : MessageData) (w w' : World)
    (message : option Message) :
  saveMessage messageData w = (Ok message, w') →
  ∃ c m c',
    chats w !! md_roomId messageData = Some c
    ∧ message = Some m
    ∧ m_responseTime m = q_or (md_responseTime messageData) 0
    ∧ chats w' !! md_roomId messageData = Some c'
    ∧ messages c' = (messages c ++ [m])%list
    ∧ averageResponseTime (analytics c')
      = (sum (map m_responseTime (messages c'))
         / inject_Z (Z.of_nat (length (messages c'))))%Q.
Proof.
  intros Hrun.
  pose proof (wp_elim _ _ _ (saveMessage_appends messageData w)) as H.
  rewrite Hrun in H. simpl in H.
  destruct (H message eq_refl) as (c & m & c' & Hc & Hm & Hrt & Hc' & Hms & Havg).
  exists c, m, c'. repeat (split; [assumption|]).
  rewrite Havg. unfold mean. rewrite length_map. reflexivity.
Qed.

Lemma average_after_append_witness :
  ∃ c',
    chats (perform_all three_turns idle) !! "room_1" = Some c'
    ∧ map m_responseTime (messages c') = [100%Q; 200%Q; 300%Q]
    ∧ (averageResponseTime (analytics c') == 200)%Q.
Proof.
  set (w2 := perform_all [SaveMessage (turn 100); SaveMessage (turn 200)] idle).
  assert (∃ message w', saveMessage (turn 300) w2 = (Ok message, w'))
    as (message & w' & Hrun) by (vm_compute; eauto).
  destruct (average_after_append (turn 300) w2 w' message Hrun)
    as (c & m & c' & Hc & _ & Hrt & Hc' & Hms & Havg).
  exists c'.
  assert (perform_all three_turns idle = w') as ->.
  { change (perform_all three_turns idle) with (saveMessage (turn 300) w2).2.
    rewrite Hrun. reflexivity. }
  split; [exact Hc'|].
  vm_compute in Hc. injection Hc as <-.
  rewrite Havg, Hms, map_app. simpl. rewrite Hrt.
  split; [reflexivity|]. vm_compute. reflexivity.
Defined.

Lemma frozen_id (m m' : Message) : frozen m' = frozen m → m_id m' = m_id m.
Proof. intros H. apply (f_equal m_id) in H. exact H. Qed.

Lemma set_feedback_lookup (messageId : nat) (f : Feedback) (ms : list Message)
    (i : nat) (m : Message) :
  ms !! i = Some m →
  ∃ m', set_feedback messageId f ms !! i = Some m'
        ∧ (m' = m ∨ (m_id m = messageId ∧ m' = with_feedback (Some f) m)).
Proof.
  revert i. induction ms as [|m0 ms IH]; intros i Hi; [discriminate|].
  simpl. destruct (Nat.eqb (m_id m0) messageId) eqn:Hid.
  - destruct i as [|i]; simpl in *.
    + injection Hi as <-. apply Nat.eqb_eq in Hid. eauto.
    + eauto.
  - destruct i as [|i]; simpl in *; [eauto|]. apply IH, Hi.
Qed.

(** A message that was there stays in its place; an operation that
    changes its feedback is a call of [addMessageFeedback] on its
    conversation and its id, and the feedback is then the rating and the
    comment of that call. *)
Lemma messages_step_lookup (op : Op) (k : string) (ms ms' : list Message)
    (i : nat) (m : Message) :
  messages_step op k ms ms' →
  ms !! i = Some m →
  ∃ m', ms' !! i = Some m'
        ∧ frozen m' = frozen m
        ∧ (m_feedback m' = m_feedback m
           ∨ ∃ f, rates op k (m_id m) f ∧ m_feedback m' = Some f).
Proof.
  intros Hstep Hi.
  destruct op as [userId roomId|messageData|roomId messageId feedback
                 |roomId userId|roomId userId| |now outcomes client];
    simpl in Hstep; try (subst ms'; exists m; auto).
  - destruct Hstep as (appended & -> & _).
    exists m. split; [apply lookup_app_l_Some, Hi | auto].
  - destruct Hstep as [->|[-> [now ->]]]; [exists m; auto|].
    destruct (set_feedback_lookup messageId
                (mkFeedback (fa_rating feedback) (fa_comment feedback) now)
                ms i m Hi) as (m' & Hm' & [->|[Hid ->]]);
      [exists m; auto|].
    eexists. split; [exact Hm'|]. split; [reflexivity|].
    right. eexists. split; [|reflexivity]. simpl. auto.
Qed.

Lemma perform_all_messages (ops : list Op) (w : World) (k : string)
    (c : Chat) :
  chats w !! k = Some c →
  ∃ c', chats (perform_all ops w) !! k = Some c'
        ∧ ∀ i m, messages c !! i = Some m →
            ∃ m', messages c' !! i = Some m'
                  ∧ frozen m' = frozen m
                  ∧ (m_feedback m' = m_feedback m
                     ∨ ∃ op f, op ∈ ops ∧ rates op k (m_id m) f
                               ∧ m_feedback m' = Some f).
Proof.
  revert w c. induction ops as [|op ops IH]; intros w c Hc; simpl.
  - exists c. split; [exact Hc|]. intros i m Hi. exists m. auto.
  - destruct (perform_step op w k c Hc) as (c1 & Hc1 & _ & Hms).
    destruct (IH _ c1 Hc1) as (c' & Hc' & Hrun).
    exists c'. split; [exact Hc'|]. intros i m Hi.
    destruct (messages_step_lookup op k _ _ i m Hms Hi)
      as (m1 & Hm1 & Hfr1 & Hfb1).
    destruct (Hrun i m1 Hm1) as (m' & Hm' & Hfr & Hfb).
    exists m'. split; [exact Hm'|]. split; [congruence|].
    destruct Hfb as [Hfb|(op' & f & Hin & Hrates & Hfb)].
    + destruct Hfb1 as [Hfb1|(f & Hrates & Hfb1)]; [left; congruence|].
      right. exists op, f. split; [apply list_elem_of_here|].
      split; [exact Hrates | congruence].
    + right. exists op', f. split; [apply list_elem_of_further, Hin|].
      rewrite <- (frozen_id _ _ Hfr1). auto.
Qed.





(** *** Who may archive *)

Lemma preserves_setCache {X} (f : World → X) (key : string)
    (value : Cacheable) (ttl : Z) :
  (∀ t w, f (set_clock t w) = f w) →
  (∀ p w, f (set_pending p w) = f w) →
  (∀ c w, f (set_redisClient c w) = f w) →
  preserves f (setCache key value ttl).
Proof.
  intros f_clock f_pending f_client.
  unfold setCache, client_setEx, JSON_stringify, Date_now.
  apply AIFacts.preserves_try;
    [|intros e; apply AIFacts.preserves_bind;
      [apply AIFacts.preserves_console_log
      |intros _; apply AIFacts.preserves_ret]].
  apply AIFacts.preserves_bind; [apply AIFacts.preserves_gets|].
  intros [cl|]; [|apply AIFacts.preserves_ret].
  destruct (isReady cl); [|apply AIFacts.preserves_ret].
  apply AIFacts.preserves_bind;
    [destruct value;
     [apply AIFacts.preserves_ret | apply AIFacts.preserves_throw]|].
  intros text.
  apply AIFacts.preserves_bind; [|intros _; apply AIFacts.preserves_ret].
  apply AIFacts.preserves_bind;
    [apply AIFacts.preserves_command; assumption|]. intros _.
  apply AIFacts.preserves_bind; [apply AIFacts.preserves_gets|]. intros now.
  intros w. apply f_client.
Qed.

Lemma preserves_findOne {X} (f : World → X) (roomId : string) :
  (∀ t w, f (set_clock t w) = f w) →
  (∀ p w, f (set_pending p w) = f w) →
  preserves f (findOne roomId).
Proof.
  intros f_clock f_pending. unfold findOne.
  apply AIFacts.preserves_bind;
    [apply AIFacts.preserves_command; assumption|]. intros _.
  apply AIFacts.preserves_bind; [apply AIFacts.preserves_gets|]. intros store.
  apply AIFacts.preserves_ret.
Qed.

Lemma preserves_populate {X} (f : World → X) (found : option ChatObj) :
  preserves f (populate found).
Proof.
  unfold populate.
  apply AIFacts.preserves_bind; [apply AIFacts.preserves_gets|].
  intros table. apply AIFacts.preserves_ret.
Qed.

Lemma preserves_getChat {X} (f : World → X) (roomId : string) :
  (∀ t w, f (set_clock t w) = f w) →
  (∀ p w, f (set_pending p w) = f w) →
  (∀ c w, f (set_redisClient c w) = f w) →
  preserves f (getChat roomId).
Proof.
  intros f_clock f_pending f_client. unfold getChat.
  apply AIFacts.preserves_try;
    [|intros e; apply AIFacts.preserves_bind;
      [apply AIFacts.preserves_console_log
      |intros _; apply AIFacts.preserves_ret]].
  apply AIFacts.preserves_bind;
    [apply AIFacts.preserves_getCache; assumption|].
  intros [v|]; [apply AIFacts.preserves_ret|].
  apply AIFacts.preserves_bind; [apply preserves_findOne; assumption|].
  intros found.
  apply AIFacts.preserves_bind; [apply preserves_populate|].
  intros [doc|]; [|apply AIFacts.preserves_ret].
  apply AIFacts.preserves_bind; [apply preserves_setCache; assumption|].
  intros _. apply AIFacts.preserves_ret.
Qed.

Lemma getChat_returns (roomId : string) (w : World) :
  ∃ found, (getChat roomId w).1 = Ok found.
Proof.
  apply (wp_elim (getChat roomId) w (λ r _, ∃ found, r = Ok found)).
  apply getChat_spec. eauto.
Qed.

(** X12. Only an administrator or a moderator archives: for any other
    caller, known to the user collection or not, [archiveChat] throws and
    the Chat collection is left as it was. *)
Theorem archiveChat_needs_privilege (roomId userId : string) (w : World) :
  (∀ role, users w !! userId = Some role →
           role ≠ "admin" ∧ role ≠ "moderator") →
  ∃ e, (archiveChat roomId userId w).1 = Throw e
       ∧ chats (archiveChat roomId userId w).2 = chats w.
Proof.
  intros Hrole.
  assert (users (getChat roomId w).2 = users w) as Husers
    by (apply (preserves_getChat users); reflexivity).
  assert (chats (getChat roomId w).2 = chats w) as Hchats
    by (apply (preserves_getChat chats); reflexivity).
  destruct (getChat_returns roomId w) as (found & Hfound).
  assert (∃ e w', archiveChat roomId userId w = (Throw e, w')
                  ∧ chats w' = chats w) as (e & w' & Hrun & Hsame).
  { unfold archiveChat, rethrowing, JS.try_catch, JS.bind at 1.
    destruct (getChat roomId w) as [r w1]. simpl in *. subst r.
    destruct found as [chat|]; [|simpl; eauto].
    unfold User_findById, command, JS.bind, JS.gets, JS.ret, JS.throw,
      JS.console_log.
    assert (∀ w2, users w2 = users w →
              negb match users w2 !! userId with
                   | Some role =>
                       String.eqb role "admin" || String.eqb role "moderator"
                   | None => false
                   end = true) as Hdenied.
    { intros w2 ->. destruct (users w !! userId) as [role|] eqn:Hu;
        [|reflexivity].
      destruct (Hrole role eq_refl) as [Ha Hm].
      apply String.eqb_neq in Ha, Hm. rewrite Ha, Hm. reflexivity. }
    destruct (pending w1) as [|ev rest] eqn:Hp.
    - rewrite Hdenied by exact Husers. simpl. eauto.
    - destruct (io_fails ev); simpl; [eauto|].
      rewrite Hdenied by exact Husers. simpl. eauto. }
  rewrite Hrun. simpl. eauto.
Qed.

Lemma archiveChat_needs_privilege_witness :
  ∃ e, (archiveChat "room_1" "u1" Scenario.idle).1 = Throw e
       ∧ chats (archiveChat "room_1" "u1" Scenario.idle).2
         = chats Scenario.idle.
Proof.
  apply archiveChat_needs_privilege. intros role Hrole.
  vm_compute in Hrole. injection Hrole as <-. split; discriminate.
Defined.

(** *** The cleanup of idle conversations *)

Lemma pause_all_elsewhere (kcs : list (string * Chat)) (k : string)
    (w : World) :
  k ∉ map fst kcs →
  wp (pause_all (map (λ kc, Document (kc.1) (kc.2) []) kcs)) w
     (λ _ w', chats w' !! k = chats w !! k).
Proof.
  revert w. induction kcs as [|[k' c'] kcs IH]; intros w Hk; simpl.
  - apply wp_ret. reflexivity.
  - apply not_elem_of_cons in Hk as [Hne Hk]. simpl in Hne.
    apply wp_bind, wp_ret. cbv beta iota. simpl fst. simpl snd.
    apply wp_bind, save_spec. split.
    + intros e w' Hw'. rewrite Hw'. reflexivity.
    + intros w' Hw'.
      apply wp_bind, wp_quiet; [auto with quiet|]. intros [] w2 Hw2.
      eapply wp_weaken; [apply IH, Hk|].
      intros r w3 H3. cbv beta in H3.
      rewrite H3, Hw2, Hw'. apply lookup_insert_ne. congruence.
Qed.

Lemma inactive_keys (threshold : Z) (m : gmap string Chat) (k : string)
    (c : Chat) :
  m !! k = Some c →
  (k ∈ map fst (List.filter (inactive threshold) (map_to_list m))
   ↔ inactive threshold (k, c) = true).
Proof.
  intros Hc. rewrite list_elem_of_In, in_map_iff. split.
  - intros ([k' c'] & Hk & Hin). simpl in Hk. subst k'.
    apply filter_In in Hin as [Hin Hact].
    apply list_elem_of_In, elem_of_map_to_list in Hin.
    congruence.
  - intros Hact. exists (k, c). split; [reflexivity|].
    apply filter_In. split; [|exact Hact].
    apply list_elem_of_In, elem_of_map_to_list, Hc.
Qed.

(** X13. The cleanup leaves alone every conversation that is not active
    or that had activity in the last 24 hours, whatever the outcome of
    the commands it issues. *)
Theorem cleanup_spares_recent_chats (w : World) (k : string) (c : Chat) :
  chats w !! k = Some c →
  status c ≠ active
  ∨ (clock w - 24 * 60 * 60 * 1000 <= lastActivity (analytics c))%Z →
  chats (cleanupInactiveChats w).2 !! k = Some c.
Proof.
  intros Hc Hrecent. rewrite <- Hc.
  apply (wp_elim cleanupInactiveChats w
           (λ _ w', chats w' !! k = chats w !! k)).
  unfold cleanupInactiveChats.
  assert (∀ w', chats w' !! k = chats w !! k →
            wp (JS.console_log "Error cleaning up inactive chats:") w'
               (λ _ w'', chats w'' !! k = chats w !! k)) as Hcatch.
  { intros w' Hw'. apply wp_quiet; [auto with quiet|].
    intros ? ? ->. exact Hw'. }
  apply wp_try, wp_bind.
  unfold Date_now, JS.gets, wp at 1. cbn [fst snd].
  apply wp_bind, find_inactive_spec.
  - intros e w2 H2. apply Hcatch. rewrite H2. reflexivity.
  - intros w2 H2. apply wp_bind.
    eapply wp_weaken.
    + apply (pause_all_elsewhere _ k).
      rewrite (inactive_keys _ _ _ _ Hc). unfold inactive. simpl.
      destruct Hrecent as [Hstatus | Hdate].
      * destruct (status c); congruence.
      * destruct (status c); try congruence.
        intros Hlt. apply Z.ltb_lt in Hlt. lia.
    + intros [[]|e] w3 H3; cbv beta in H3.
      * apply wp_quiet; [auto with quiet|]. intros ? ? ->.
        rewrite H3, H2. reflexivity.
      * apply Hcatch. rewrite H3, H2. reflexivity.
Qed.

Lemma cleanup_spares_recent_chats_witness :
  chats (cleanupInactiveChats Scenario.rated).2 !! "room_1"
  = chats Scenario.rated !! "room_1".
Proof.
  destruct (chats Scenario.rated !! "room_1") as [c|] eqn:Hc;
    [|vm_compute in Hc; discriminate Hc].
  rewrite <- Hc.
  assert (lastActivity (analytics c) = 100000000%Z) as Hlast
    by (vm_compute in Hc; injection Hc as <-; reflexivity).
  rewrite Hc.
  apply (cleanup_spares_recent_chats Scenario.rated "room_1" c Hc).
  right. rewrite Hlast. vm_compute. discriminate.
Defined.

Lemma save_resolves (k : string) (c : Chat) (v : list UserView) (w : World) :
  pending w = [] →
  save (Document k c v) w
  = (Ok (Document k (pre_save (clock w) c) v),
     set_chats (<[k := pre_save (clock w) c]> (chats w)) w).
Proof.
  intros Hp. unfold save, as_document, command. js_unfold. simpl.
  rewrite Hp. reflexivity.
Qed.

Lemma pause_all_resolves (kcs : list (string * Chat)) (w : World) :
  pending w = [] →
  NoDup (map fst kcs) →
  ∃ w', pause_all (map (λ kc, Document (kc.1) (kc.2) []) kcs) w = (Ok tt, w')
        ∧ ∀ k c, (k, c) ∈ kcs →
            chats w' !! k = Some (pre_save (clock w) (set_status paused c)).
Proof.
  revert w. induction kcs as [|[k c] kcs IH]; intros w Hp Hnd.
  - exists w. split; [reflexivity|]. intros k c Hin.
    apply elem_of_nil in Hin. contradiction.
  - simpl in Hnd. apply NoDup_cons in Hnd as [Hk Hnd].
    set (w2 := set_activeChats (delete k (activeChats w))
                 (set_chats (<[k := pre_save (clock w) (set_status paused c)]>
                               (chats w)) w)).
    destruct (IH w2) as (w' & Hrun & Hall); [exact Hp | exact Hnd |].
    exists w'. split.
    + simpl. unfold JS.bind at 1. simpl.
      unfold JS.bind at 1. rewrite save_resolves by exact Hp.
      unfold JS.bind at 1, untrack, JS.modify. exact Hrun.
    + intros k' c' Hin. apply elem_of_cons in Hin as [[= -> ->] | Hin].
      * pose proof (wp_elim _ w2 _ (pause_all_elsewhere kcs k w2 Hk)) as He.
        cbv beta in He. rewrite Hrun in He. simpl in He. rewrite He.
        apply lookup_insert_eq.
      * apply Hall, Hin.
Qed.

(** X14. When every command resolves at once, the cleanup pauses every
    active conversation whose last activity is more than 24 hours old,
    keeping its messages and its participants. *)
Theorem cleanup_pauses_idle_chats (w : World) (k : string) (c : Chat) :
  pending w = [] →
  chats w !! k = Some c →
  status c = active →
  (lastActivity (analytics c) < clock w - 24 * 60 * 60 * 1000)%Z →
  ∃ c', chats (cleanupInactiveChats w).2 !! k = Some c'
        ∧ status c' = paused
        ∧ messages c' = messages c
        ∧ participants c' = participants c.
Proof.
  intros Hp Hc Hactive Hidle.
  set (idle := List.filter (inactive (clock w - 24 * 60 * 60 * 1000))
                 (map_to_list (chats w))).
  destruct (pause_all_resolves idle w Hp) as (w' & Hrun & Hall).
  { apply NoDup_fst_filter, NoDup_fst_map_to_list. }
  exists (pre_save (clock w) (set_status paused c)).
  split.
  - unfold cleanupInactiveChats, JS.try_catch, JS.bind at 1, Date_now,
      JS.gets.
    unfold JS.bind at 1, find_inactive, command, JS.bind at 1. rewrite Hp.
    unfold JS.bind at 1, JS.gets, JS.ret.
    unfold JS.bind at 1. fold idle. rewrite Hrun.
    unfold JS.console_log, JS.ret. simpl.
    apply Hall. apply list_elem_of_In, filter_In. split.
    + apply list_elem_of_In, elem_of_map_to_list, Hc.
    + unfold inactive. simpl. rewrite Hactive. apply Z.ltb_lt, Hidle.
  - unfold pre_save.
    destruct (messages (set_status paused c));
      (split; [reflexivity|]; split; reflexivity).
Qed.

Lemma cleanup_pauses_idle_chats_witness :
  ∃ c', chats (cleanupInactiveChats Scenario.idle).2 !! "room_1" = Some c'
        ∧ status c' = paused.
Proof.
  destruct (cleanup_pauses_idle_chats Scenario.idle "room_1"
              Scenario.idle_chat)
    as (c' & Hc' & Hstatus & _); try reflexivity.
  exists c'. split; [exact Hc' | exact Hstatus].
Defined.

(** *** Joining again *)

Lemma participants_pre_save (now : Z) (c : Chat) :
  participants (pre_save now c) = participants c.
Proof. unfold pre_save. destruct (messages c); reflexivity. Qed.

Lemma bind_inv {A B} (m : JSM A) (k : A → JSM B) (w w' : World) (b : B) :
  JS.bind m k w = (Ok b, w') →
  ∃ a w1, m w = (Ok a, w1) ∧ k a w1 = (Ok b, w').
Proof.
  unfold JS.bind. destruct (m w) as [[a|e] w1]; [eauto | discriminate].
Qed.

Lemma rethrowing_inv {A} (label : string) (m : JSM A) (w w' : World) (a : A) :
  rethrowing label m w = (Ok a, w') → m w = (Ok a, w').
Proof.
  unfold rethrowing, JS.try_catch.
  destruct (m w) as [[a'|e] w1]; [auto | discriminate].
Qed.

Lemma save_inv (chat chat' : ChatObj) (w w' : World) :
  save chat w = (Ok chat', w') →
  ∃ k c v, chat = Document k c v
           ∧ chat' = Document k (pre_save (clock w) c) v
           ∧ chats w' = <[k := pre_save (clock w) c]> (chats w)
           ∧ activeChats w' = activeChats w.
Proof.
  unfold save, as_document, command. js_unfold.
  destruct chat as [k c v|c v|]; simpl; [|discriminate..].
  destruct (pending w) as [|ev rest]; simpl;
    [|destruct (io_fails ev); simpl; [discriminate|]];
    intros [= <- <-]; exists k, c, v; auto.
Qed.

Lemma getChat_inv (roomId : string) (w w' : World) (k : string) (c : Chat)
    (v : list UserView) :
  getChat roomId w = (Ok (Some (Document k c v)), w') →
  k = roomId ∧ chats w !! roomId = Some c
  ∧ List.length v = List.length (participants c)
  ∧ chats w' = chats w
  ∧ activeChats w' = activeChats w.
Proof.
  intros Hrun.
  assert (wp (getChat roomId) w
            (λ r w', chats w' = chats w
                     ∧ ∀ found, r = Ok found →
                         fetched roomId (chats w') found)) as Hspec.
  { apply getChat_spec. intros r w1 Hw1 Hf. split; [exact Hw1|].
    intros found [= <-]. exact Hf. }
  apply wp_elim in Hspec.
  pose proof (preserves_getChat activeChats roomId
                (λ _ _, eq_refl) (λ _ _, eq_refl) (λ _ _, eq_refl) w)
    as Hactive.
  rewrite Hrun in Hspec, Hactive. simpl in Hspec, Hactive.
  destruct Hspec as [Hsame Hf].
  destruct (Hf _ eq_refl) as (-> & Hc & Hv).
  rewrite Hsame in Hc. auto.
Qed.

(** What a [joinChat] that returns a document has done. *)
Lemma joinChat_appends (userId roomId : string) (w w' : World)
    (k : string) (c c' : Chat) (v : list UserView) :
  joinChat userId roomId w = (Ok (Document k c' v), w') →
  chats w !! roomId = Some c →
  k = roomId
  ∧ chats w' !! roomId = Some c'
  ∧ ∃ joined_at,
      participants c'
      = (participants c ++ [mkParticipant userId "user" joined_at None])%list.
Proof.
  intros Hrun Hc. unfold joinChat in Hrun.
  apply rethrowing_inv, bind_inv in Hrun as (found & w1 & Hchat & Hrun).
  destruct found as [chat|]; [|discriminate Hrun].
  destruct (status_of chat) as [[]|]; try discriminate Hrun.
  apply bind_inv in Hrun as (ps & w1' & Hps & Hrun).
  apply bind_inv in Hrun as (isParticipant & w1'' & Hfind & Hrun).
  apply bind_inv in Hrun as (chat2 & w2 & Hjoin & Hrun).
  apply bind_inv in Hrun as ([] & w3 & Htrack & Hrun).
  injection Hrun as -> <-.
  pose proof (steady_track_join userId roomId w2) as Hchats3.
  rewrite Htrack in Hchats3. simpl in Hchats3.
  unfold lift in Hfind. injection Hfind as Hfind <-.
  destruct chat as [k0 c0 v0|c0 v0|]; [| |discriminate Hps].
  - unfold participants_of, JS.ret in Hps. injection Hps as <- <-.
    apply getChat_inv in Hchat as (-> & Hc0 & Hv0 & Hsame1 & _).
    assert (c0 = c) as -> by congruence.
    simpl populated_of in *.
    destruct (find_first_active_populated v0 userId (participants c) 0)
      as [Hnone|[e He]]; [lia | | congruence].
    rewrite Hnone in Hfind. injection Hfind as <-.
    apply bind_inv in Hjoin as (chat3 & w4 & Hadd & Hjoin).
    apply bind_inv in Hjoin as (chat4 & w5 & Hsave & Hjoin).
    apply bind_inv in Hjoin as (b & w6 & Hset & Hjoin).
    injection Hjoin as -> <-.
    pose proof (steady_setCache (chat_key roomId)
                  (cacheable (Document k c' v)) 3600 w5) as Hchats6.
    rewrite Hset in Hchats6. simpl in Hchats6.
    unfold addParticipant in Hadd.
    apply bind_inv in Hadd as (doc & w1' & [= <- <-] & Hadd).
    apply bind_inv in Hadd as (existing & w1' & Hex & Hadd).
    unfold lift in Hex. injection Hex as Hex <-.
    simpl populated_of in *. cbn [fst snd] in Hex.
    destruct (find_first_populated v0 userId (participants c) 0)
      as [Hn|[e He]]; [lia | | congruence].
    rewrite Hn in Hex. injection Hex as <-.
    apply bind_inv in Hadd as (now & w1' & [= <- <-] & Hadd).
    cbn [fst snd] in Hadd.
    apply save_inv in Hadd as (k1 & c1 & v1 & [= <- <- <-] & -> & Hchats4 & _).
    apply save_inv in Hsave
      as (k2 & c2 & v2 & [= <- <- <-] & [= -> -> ->] & Hchats5 & _).
    split; [reflexivity|]. split.
    + rewrite Hchats3, Hchats6, Hchats5. apply lookup_insert_eq.
    + exists (clock w1). rewrite !participants_pre_save. reflexivity.
  - unfold participants_of, JS.ret in Hps. injection Hps as <- <-.
    destruct isParticipant as [i|].
    + discriminate Hjoin.
    + apply bind_inv in Hjoin as (chat3 & w4 & Hadd & _).
      unfold addParticipant in Hadd.
      apply bind_inv in Hadd as (doc & w1' & Hdoc & _). discriminate Hdoc.
Qed.

(** X15. A user who has an entry among the participants of a
    conversation gets a second one by joining again.  The document
    [joinChat] works on has its participants populated, so that none of
    them compares equal to the id of the caller: when [joinChat] returns
    a document, the stored participants are those there were, the
    caller's old entry among them as it was, followed by a new entry for
    the caller, with the role [user] and no departure; the caller then
    has two entries or more. *)
Theorem rejoining_adds_an_entry (userId roomId : string) (w w' : World)
    (k : string) (c c' : Chat) (v : list UserView) :
  joinChat userId roomId w = (Ok (Document k c' v), w') →
  chats w !! roomId = Some c →
  existsb (λ p, String.eqb (p_userId p) userId) (participants c) = true →
  k = roomId
  ∧ chats w' !! roomId = Some c'
  ∧ (∃ joined_at,
       participants c'
       = (participants c ++ [mkParticipant userId "user" joined_at None])%list)
  ∧ (2 ≤ List.length
           (List.filter (λ p, String.eqb (p_userId p) userId)
                        (participants c')))%nat.
Proof.
  intros Hrun Hc Hentry.
  destruct (joinChat_appends userId roomId w w' k c c' v Hrun Hc)
    as (Hk & Hc' & joined_at & Hps).
  split; [exact Hk|]. split; [exact Hc'|]. split; [eauto|].
  rewrite Hps, List.filter_app, length_app. simpl.
  rewrite String.eqb_refl. simpl.
  apply existsb_exists in Hentry as (p & Hin & Hp).
  assert (In p (List.filter (λ p, String.eqb (p_userId p) userId)
                            (participants c))) as Hfiltered
    by (apply filter_In; auto).
  destruct (List.filter _ (participants c)); [destruct Hfiltered|].
  simpl. lia.
Qed.

Lemma rejoining_adds_an_entry_witness :
  ∃ c' v w',
    joinChat "u1" "room_1" Scenario.shared
    = (Ok (Document "room_1" c' v), w')
    ∧ chats w' !! "room_1" = Some c'
    ∧ map p_userId (participants c') = ["u1"; "u2"; "u1"].
Proof.
  destruct (joinChat "u1" "room_1" Scenario.shared) as [[chat'|e] w'] eqn:Hrun;
    [|vm_compute in Hrun; discriminate Hrun].
  destruct chat' as [k c' v|c' v|];
    [|vm_compute in Hrun; discriminate Hrun..].
  destruct (rejoining_adds_an_entry "u1" "room_1" Scenario.shared w' k
              Scenario.shared_chat c' v Hrun eq_refl eq_refl)
    as (-> & Hc' & (joined_at & Hps) & _).
  exists c', v, w'. split; [reflexivity|]. split; [exact Hc'|].
  rewrite Hps. reflexivity.
Defined.

(** *** A conversation that is in the cache *)

Lemma saveMessage_on_plain_object (messageData : MessageData) (w w1 : World)
    (v : CacheValue) :
  getCache (chat_key (md_roomId messageData)) w = (Ok (Some v), w1) →
  saveMessage messageData w
  = (Throw (TypeError "chat.addMessage is not a function"), w1).
Proof.
  intros Hhit.
  assert (getChat (md_roomId messageData) w = (Ok (Some (as_chat v)), w1))
    as Hchat.
  { unfold getChat. apply AIFacts.try_ok.
    rewrite (AIFacts.bind_ok _ _ _ _ _ Hhit). reflexivity. }
  unfold saveMessage, rethrowing.
  erewrite AIFacts.try_throw; [reflexivity|].
  rewrite (AIFacts.bind_ok _ _ _ _ _ Hchat).
  destruct v; reflexivity.
Qed.

(** X16. When the cache serves an object for the room, [saveMessage]
    throws a [TypeError] and stores nothing: what [getChat] hands out is
    the parsed JSON, on which [addMessage] is not defined. *)
Theorem cached_chat_rejects_messages (messageData : MessageData) (w : World)
    (v : CacheValue) :
  (getCache (chat_key (md_roomId messageData)) w).1 = Ok (Some v) →
  (saveMessage messageData w).1
  = Throw (TypeError "chat.addMessage is not a function")
  ∧ chats (saveMessage messageData w).2 = chats w.
Proof.
  intros Hhit.
  pose proof (steady_getCache (chat_key (md_roomId messageData)) w) as Hsame.
  destruct (getCache (chat_key (md_roomId messageData)) w) as [r w1] eqn:Hget.
  simpl in Hhit, Hsame. subst r.
  rewrite (saveMessage_on_plain_object messageData w w1 v Hget).
  split; [reflexivity | exact Hsame].
Qed.

Lemma cached_chat_rejects_messages_witness :
  (saveMessage (turn 200)
     (saveMessage (turn 100)
        (set_redisClient (Some (mkRedisClient true ∅)) Scenario.idle)).2).1
  = Throw (TypeError "chat.addMessage is not a function").
Proof.
  eapply proj1, cached_chat_rejects_messages. vm_compute. reflexivity.
Defined.

Lemma getCache_at_rest (key : string) (w : World) :
  at_rest w →
  ∃ r, getCache key w = (Ok r, w)
       ∧ (live key w → ∃ v, r = Some v)
       ∧ (∀ v, r = Some v → live key w).
Proof.
  intros (Hp & cl & Hcl & Hready).
  unfold getCache, client_get, JSON_parse, truthy_stored, command, live.
  js_unfold. rewrite Hcl, Hready, Hp. simpl.
  destruct (entries cl !! key) as [[[v|s] expires]|] eqn:He; simpl.
  - destruct (clock w <? expires)%Z eqn:Ht; simpl.
    + eexists. split; [reflexivity|]. split; [eauto|].
      intros v' _. exists cl, v, expires. apply Z.ltb_lt in Ht. auto.
    + eexists. split; [reflexivity|]. split; [|discriminate].
      intros (cl' & v' & expires' & Hcl' & He' & Hlt).
      apply Z.ltb_ge in Ht.
      assert (cl' = cl) as -> by congruence. rewrite He in He'.
      injection He' as <- <-. lia.
  - assert (¬ ∃ cl' v' expires',
              Some cl = Some cl' ∧ entries cl' !! key = Some (Json v', expires')
              ∧ (clock w < expires')%Z) as Hnot.
    { intros (cl' & v' & expires' & [= <-] & He' & _). congruence. }
    destruct (clock w <? expires)%Z; simpl;
      [destruct (truthy_string s); simpl|];
      (eexists; split; [reflexivity|]; split;
       [intros H; destruct (Hnot H) | discriminate]).
  - eexists. split; [reflexivity|]. split; [|discriminate].
    intros (cl' & v' & expires' & [= <-] & He' & _). congruence.
Qed.

Lemma setCache_at_rest (key : string) (v : CacheValue) (w : World) :
  at_rest w →
  ∃ w', setCache key (Plain v) 3600 w = (Ok true, w')
        ∧ at_rest w' ∧ live key w'
        ∧ clock w' = clock w ∧ chats w' = chats w
        ∧ next_oid w' = next_oid w.
Proof.
  intros (Hp & cl & Hcl & Hready).
  unfold setCache, client_setEx, JSON_stringify, command.
  js_unfold. rewrite Hcl, Hready, Hp. simpl.
  eexists. split; [reflexivity|].
  split; [split; [exact Hp | eexists; split; reflexivity]|].
  split; [|auto].
  do 3 eexists. split; [reflexivity|]. simpl.
  split; [apply lookup_insert_eq | lia].
Qed.

Lemma resting_ret {A} (a : A) : resting (JS.ret a).
Proof. intros w Hw. exact Hw. Qed.

Lemma resting_throw {A} (e : error) : resting (@JS.throw World A e).
Proof. intros w Hw. exact Hw. Qed.

Lemma resting_gets {A} (g : World → A) : resting (JS.gets g).
Proof. intros w Hw. exact Hw. Qed.

Lemma resting_bind {A B} (m : JSM A) (k : A → JSM B) :
  resting m → (∀ a, resting (k a)) → resting (JS.bind m k).
Proof.
  intros Hm Hk w Hw. specialize (Hm w Hw). unfold JS.bind.
  destruct (m w) as [[a|e] w1]; simpl in *; [|exact Hm].
  apply Hk, Hm.
Qed.

Lemma resting_try {A} (m : JSM A) (h : error → JSM A) :
  resting m → (∀ e, resting (h e)) → resting (JS.try_catch m h).
Proof.
  intros Hm Hh w Hw. specialize (Hm w Hw). unfold JS.try_catch.
  destruct (m w) as [[a|e] w1]; simpl in *; [exact Hm|].
  apply Hh, Hm.
Qed.

Lemma resting_command : resting command.
Proof.
  intros w Hw. unfold command. rewrite (proj1 Hw). exact Hw.
Qed.

Lemma resting_modify (f : World → World) :
  (∀ w, pending (f w) = pending w) →
  (∀ w, redisClient (f w) = redisClient w) →
  resting (JS.modify f).
Proof.
  intros Hp Hc w (Hw & cl & Hcl & Hready). unfold JS.modify. simpl.
  split; [rewrite Hp; exact Hw|].
  exists cl. rewrite Hc. auto.
Qed.

Ltac resting_step :=
  first
    [ apply resting_ret | apply resting_throw | apply resting_gets
    | apply resting_command
    | apply resting_modify; intros ?;
      repeat match goal with
             | |- context [match ?x with _ => _ end] => destruct x
             end; reflexivity
    | apply resting_bind; [|intros ?]
    | apply resting_try; [|intros ?]
    | match goal with
      | |- resting (match ?x with _ => _ end) => destruct x
      | |- resting (if ?b then _ else _) => destruct b
      end ].

Lemma resting_getCache (key : string) : resting (getCache key).
Proof.
  unfold getCache, client_get, JSON_parse, Date_now, JS.console_log.
  repeat resting_step.
Qed.

Lemma resting_setCache (key : string) (value : Cacheable) (ttl : Z) :
  resting (setCache key value ttl).
Proof.
  intros w (Hp & cl & Hcl & Hready).
  unfold setCache, client_setEx, JSON_stringify, command. js_unfold.
  rewrite Hcl, Hready. destruct value; simpl; rewrite ?Hp; simpl;
    (split; [exact Hp | eexists; split; [reflexivity || exact Hcl|];
                        simpl; auto]).
Qed.

Lemma resting_save (chat : ChatObj) : resting (save chat).
Proof.
  unfold save, as_document, Date_now. repeat resting_step.
Qed.

Lemma resting_getChat (roomId : string) : resting (getChat roomId).
Proof.
  unfold getChat, findOne, populate, JS.console_log.
  repeat first [apply resting_getCache | apply resting_setCache
               | resting_step].
Qed.

Lemma resting_addMessage (chat : ChatObj) (messageData : MessageObj) :
  resting (addMessage chat messageData).
Proof.
  unfold addMessage, as_document, Date_now, fresh_oid.
  apply resting_bind; [repeat resting_step|]. intros doc.
  apply resting_bind; [intros w Hw; exact Hw|]. intros oid.
  repeat first [apply resting_save | resting_step].
Qed.

Lemma save_returns_document (chat chat' : ChatObj) (w w' : World) :
  save chat w = (Ok chat', w') → ∃ k c v, chat' = Document k c v.
Proof.
  unfold save, as_document, command. js_unfold.
  destruct chat as [k c v|c v|]; simpl; [|discriminate..].
  destruct (pending w) as [|ev rest]; simpl;
    [|destruct (io_fails ev); simpl; [discriminate|]];
    intros [= <- _]; eauto.
Qed.

Lemma track_activity_keeps (roomId : string) (w : World) :
  pending (track_activity roomId w).2 = pending w
  ∧ redisClient (track_activity roomId w).2 = redisClient w
  ∧ clock (track_activity roomId w).2 = clock w.
Proof.
  unfold track_activity, Date_now. js_unfold. simpl.
  destruct (activeChats w !! roomId); auto.
Qed.

(** The world after a [saveMessage] that returned. *)
Lemma saveMessage_leaves_cached (messageData : MessageData) (w w' : World)
    (message : option Message) :
  at_rest w →
  saveMessage messageData w = (Ok message, w') →
  at_rest w' ∧ live (chat_key (md_roomId messageData)) w'.
Proof.
  intros Hrest Hrun. unfold saveMessage in Hrun.
  apply rethrowing_inv, bind_inv in Hrun as (found & w1 & Hchat & Hrun).
  pose proof (resting_getChat (md_roomId messageData) w Hrest) as Hrest1.
  rewrite Hchat in Hrest1. simpl in Hrest1.
  destruct found as [chat|]; [|discriminate Hrun].
  apply bind_inv in Hrun as (chat2 & w2 & Hadd & Hrun).
  match type of Hadd with
  | addMessage _ ?obj _ = _ =>
      pose proof (resting_addMessage chat obj w1 Hrest1) as Hrest2
  end.
  rewrite Hadd in Hrest2. simpl in Hrest2.
  apply bind_inv in Hrun as (doc & w2' & Hdoc & Hrun).
  assert (w2' = w2) as ->
    by (unfold as_document, JS.ret, JS.throw in Hdoc;
        destruct chat2; congruence).
  apply bind_inv in Hrun as (now & w2' & [= <- <-] & Hrun).
  apply bind_inv in Hrun as (chat3 & w3 & Hsave & Hrun).
  match type of Hsave with
  | save ?doc _ = _ => pose proof (resting_save doc w2 Hrest2) as Hrest3
  end.
  rewrite Hsave in Hrest3. simpl in Hrest3.
  destruct (save_returns_document _ _ _ _ Hsave) as (k & c & v & ->).
  apply bind_inv in Hrun as (b & w4 & Hset & Hrun).
  destruct (setCache_at_rest (chat_key (md_roomId messageData)) (CVChat c v)
              w3 Hrest3) as (w4' & Hset' & Hrest4 & Hlive4 & _).
  simpl cacheable in Hset. rewrite Hset' in Hset. injection Hset as <- <-.
  apply bind_inv in Hrun as ([] & w5 & Htrack & Hrun).
  apply bind_inv in Hrun as (doc' & w5' & Hdoc' & Hrun).
  unfold as_document, JS.ret in Hdoc'. injection Hdoc' as <- <-.
  injection Hrun as _ <-.
  destruct (track_activity_keeps (md_roomId messageData) w4')
    as (Hp5 & Hcl5 & Hclock5).
  rewrite Htrack in Hp5, Hcl5, Hclock5. simpl in Hp5, Hcl5, Hclock5.
  destruct Hrest4 as (Hp4 & cl4 & Hcl4 & Hready4).
  destruct Hlive4 as (cl4' & v4 & expires4 & Hcl4' & He4 & Hlt4).
  split.
  - split; [congruence | exists cl4; split; [congruence | exact Hready4]].
  - exists cl4', v4, expires4.
    split; [congruence | split; [exact He4 | lia]].
Qed.

(** X17. With the cache connected and every command resolving at once,
    a [saveMessage] that returned makes the next one on the same room
    throw: the conversation is now in the cache, and until that entry
    expires it is served as a plain object, on which [addMessage] is not
    defined.  Nothing is stored by the call that throws. *)
Theorem second_message_is_rejected (first second : MessageData)
    (w w' : World) (message : option Message) :
  at_rest w →
  saveMessage first w = (Ok message, w') →
  md_roomId second = md_roomId first →
  (saveMessage second w').1
  = Throw (TypeError "chat.addMessage is not a function")
  ∧ chats (saveMessage second w').2 = chats w'.
Proof.
  intros Hrest Hrun Hroom.
  destruct (saveMessage_leaves_cached first w w' message Hrest Hrun)
    as (Hrest' & Hlive).
  rewrite <- Hroom in Hlive.
  destruct (getCache_at_rest (chat_key (md_roomId second)) w' Hrest')
    as (r & Hget & Hhit & _).
  destruct (Hhit Hlive) as (v & ->).
  rewrite (saveMessage_on_plain_object second w' w' v Hget).
  split; reflexivity.
Qed.

Lemma second_message_is_rejected_witness :
  ∃ message w',
    saveMessage (turn 100)
      (set_redisClient (Some (mkRedisClient true ∅)) Scenario.idle)
    = (Ok message, w')
    ∧ (saveMessage (turn 200) w').1
      = Throw (TypeError "chat.addMessage is not a function").
Proof.
  destruct (saveMessage (turn 100)
              (set_redisClient (Some (mkRedisClient true ∅)) Scenario.idle))
    as [[message|e] w'] eqn:Hrun; [|vm_compute in Hrun; discriminate Hrun].
  exists message, w'. split; [reflexivity|].
  eapply proj1, (second_message_is_rejected (turn 100) (turn 200));
    [|exact Hrun | reflexivity].
  split; [reflexivity | eexists; split; reflexivity].
Defined.

(** *** Reading a conversation *)

Lemma elem_of_insert_by_date (m y : Message) (sorted : list Message) :
  y ∈ insert_by_date m sorted ↔ y = m ∨ y ∈ sorted.
Proof.
  induction sorted as [|x rest IH]; simpl.
  - rewrite list_elem_of_singleton, elem_of_nil. tauto.
  - destruct (m_createdAt x <? m_createdAt m)%Z.
    + rewrite elem_of_cons. reflexivity.
    + rewrite !elem_of_cons, IH. tauto.
Qed.

Lemma insert_by_date_sorted (m : Message) (sorted : list Message) :
  StronglySorted newer_first sorted →
  StronglySorted newer_first (insert_by_date m sorted).
Proof.
  induction 1 as [|x rest Hrest IH Hx]; simpl.
  - repeat constructor.
  - destruct (m_createdAt x <? m_createdAt m)%Z eqn:Hlt.
    + apply Z.ltb_lt in Hlt. constructor; [constructor; assumption|].
      constructor; [unfold newer_first; lia|].
      eapply Forall_impl; [exact Hx|].
      unfold newer_first. intros y Hy. lia.
    + apply Z.ltb_ge in Hlt. constructor; [exact IH|].
      apply Forall_forall. intros y Hy.
      apply elem_of_insert_by_date in Hy as [-> | Hy]; [exact Hlt|].
      rewrite Forall_forall in Hx. apply Hx, Hy.
Qed.

Lemma sort_by_date_spec (ms : list Message) :
  StronglySorted newer_first (sort_by_date ms)
  ∧ ∀ y, y ∈ sort_by_date ms ↔ y ∈ ms.
Proof.
  unfold sort_by_date.
  assert (∀ acc, StronglySorted newer_first acc →
            StronglySorted newer_first
              (fold_left (λ sorted m, insert_by_date m sorted) ms acc)
            ∧ ∀ y, y ∈ fold_left (λ sorted m, insert_by_date m sorted) ms acc
                   ↔ y ∈ acc ∨ y ∈ ms) as Hgen.
  { induction ms as [|m ms IH]; intros acc Hacc; simpl.
    - split; [exact Hacc|]. intros y. rewrite elem_of_nil. tauto.
    - destruct (IH (insert_by_date m acc)) as [Hs He];
        [apply insert_by_date_sorted, Hacc|].
      split; [exact Hs|]. intros y.
      rewrite He, elem_of_insert_by_date, elem_of_cons. tauto. }
  destruct (Hgen []) as [Hs He]; [constructor|].
  split; [exact Hs|]. intros y. rewrite He, elem_of_nil. tauto.
Qed.

Lemma Array_slice_spec {A} (start finish : Z) (xs : list A) :
  sublist (Array_slice start finish xs) xs
  ∧ ((0 <= start)%Z → (start <= finish)%Z →
     (Z.of_nat (List.length (Array_slice start finish xs))
      <= finish - start)%Z).
Proof.
  unfold Array_slice. split.
  - etransitivity; [apply sublist_take | apply sublist_drop].
  - intros Hs Hf. rewrite length_take, length_drop.
    destruct (Z.ltb_spec start 0); [lia|].
    destruct (Z.ltb_spec finish 0); lia.
Qed.

Lemma sublist_sorted {A} (R : relation A) (l k : list A) :
  sublist l k → StronglySorted R k → StronglySorted R l.
Proof.
  induction 1 as [|x l k Hsub IH|x l k Hsub IH]; intros Hk.
  - constructor.
  - apply StronglySorted_inv in Hk as [Hk Hx].
    constructor; [apply IH, Hk|].
    apply Forall_forall. intros y Hy.
    rewrite Forall_forall in Hx. apply Hx.
    eapply elem_of_sublist; [exact Hy | exact Hsub].
  - apply StronglySorted_inv in Hk as [Hk _]. apply IH, Hk.
Qed.

(** X18. [getChatHistory] always returns, and leaves the collection as
    it was; for an offset and a limit that are not negative, the page it
    returns has at most [limit] messages, all of them messages of the
    conversation that [getChat] handed out, the most recent first. *)
Theorem chat_history_page (roomId : string) (limit offset : Z) (w : World) :
  (0 <= offset)%Z → (0 <= limit)%Z →
  ∃ page,
    (getChatHistory roomId limit offset w).1 = Ok page
    ∧ chats (getChatHistory roomId limit offset w).2 = chats w
    ∧ (Z.of_nat (List.length page) <= limit)%Z
    ∧ StronglySorted newer_first page
    ∧ ∀ m, m ∈ page →
        ∃ chat, (getChat roomId w).1 = Ok (Some chat)
                ∧ m ∈ chat_messages chat.
Proof.
  intros Hoffset Hlimit.
  destruct (getChat_returns roomId w) as (found & Hfound).
  pose proof (preserves_getChat chats roomId
                (λ _ _, eq_refl) (λ _ _, eq_refl) (λ _ _, eq_refl) w)
    as Hsame.
  assert (∃ page w',
            getChatHistory roomId limit offset w = (Ok page, w')
            ∧ chats w' = chats w
            ∧ (Z.of_nat (List.length page) <= limit)%Z
            ∧ StronglySorted newer_first page
            ∧ ∀ m, m ∈ page →
                ∃ chat, (getChat roomId w).1 = Ok (Some chat)
                        ∧ m ∈ chat_messages chat)
    as (page & w' & Hrun & Hchats & Hrest).
  { assert (∀ ms, (∀ m, m ∈ ms →
                     ∃ chat, Ok found = Ok (Some chat)
                             ∧ m ∈ chat_messages chat) →
              (Z.of_nat (List.length
                           (Array_slice offset (offset + limit)
                              (sort_by_date ms))) <= limit)%Z
              ∧ StronglySorted newer_first
                  (Array_slice offset (offset + limit) (sort_by_date ms))
              ∧ ∀ m, m ∈ Array_slice offset (offset + limit)
                           (sort_by_date ms) →
                  ∃ chat, Ok found = Ok (Some chat)
                          ∧ m ∈ chat_messages chat) as Hpage.
    { intros ms Hms.
      destruct (Array_slice_spec offset (offset + limit) (sort_by_date ms))
        as [Hsub Hlen].
      destruct (sort_by_date_spec ms) as [Hsorted Helem].
      split; [specialize (Hlen Hoffset); lia|].
      split; [eapply sublist_sorted; eassumption|].
      intros m Hm. apply Hms, Helem.
      eapply elem_of_sublist; eassumption. }
    assert ((Z.of_nat (List.length (@nil Message)) <= limit)%Z
            ∧ StronglySorted newer_first []
            ∧ ∀ m, m ∈ @nil Message →
                ∃ chat, Ok found = Ok (Some chat) ∧ m ∈ chat_messages chat)
      as Hnone.
    { split; [simpl; lia|]. split; [constructor|].
      intros m Hm. apply elem_of_nil in Hm. contradiction. }
    unfold getChatHistory, JS.try_catch, JS.bind at 1.
    destruct (getChat roomId w) as [r w1]. simpl in Hfound, Hsame.
    subst r. simpl fst.
    destruct found as [[k c|c|]|]; simpl;
      do 2 eexists; (split; [reflexivity|]); (split; [exact Hsame|]);
      try exact Hnone;
      apply Hpage; intros m Hm; eexists; (split; [reflexivity|]); exact Hm. }
  exists page. rewrite Hrun. simpl. auto.
Qed.

Lemma chat_history_page_witness :
  ∃ page,
    (getChatHistory "room_1" 2 0 Scenario.rated).1 = Ok page
    ∧ (Z.of_nat (List.length page) <= 2)%Z.
Proof.
  destruct (chat_history_page "room_1" 2 0 Scenario.rated)
    as (page & Hrun & _ & Hlen & _); [discriminate.. |].
  exists page. split; [exact Hrun | exact Hlen].
Defined.

(** X19. [getRecentContext] with a positive limit gives the entries of
    the last [limit] messages, in order, or of all of them when there
    are fewer; with the limit 0 it gives the entries of all the
    messages, not of none. *)
Theorem recent_context_window (limit : Z) (c : Chat) :
  (0 <= limit)%Z →
  getRecentContext limit c
  = map context_entry
      (if (limit =? 0)%Z then messages c
       else lastN (Z.to_nat limit) (messages c)).
Proof.
  intros Hlimit. unfold getRecentContext, Array_slice_from, Array_slice, lastN.
  f_equal. set (ms := messages c).
  destruct (Z.eqb_spec limit 0) as [-> | Hne].
  - simpl. rewrite Z.min_id.
    destruct (Z.ltb_spec (Z.of_nat (List.length ms)) 0); [lia|].
    rewrite Z.min_l by lia. rewrite Z.sub_0_r, Nat2Z.id. simpl.
    apply firstn_all.
  - destruct (Z.ltb_spec (- limit) 0); [|lia].
    destruct (Z.ltb_spec (Z.of_nat (List.length ms)) 0); [lia|].
    rewrite Z.min_id.
    replace (Z.to_nat (Z.max (Z.of_nat (List.length ms) + - limit) 0))
      with (List.length ms - Z.to_nat limit)%nat by lia.
    apply take_ge. rewrite length_drop. lia.
Qed.

Lemma recent_context_window_witness :
  match chats Scenario.rated !! "room_1" with
  | Some c =>
      List.length (getRecentContext 0 c) = 3%nat
      ∧ List.length (getRecentContext 2 c) = 2%nat
  | None => False
  end.
Proof.
  destruct (chats Scenario.rated !! "room_1") as [c|] eqn:Hc;
    [|vm_compute in Hc; discriminate Hc].
  assert (List.length (messages c) = 3%nat) as Hlen
    by (vm_compute in Hc; injection Hc as <-; reflexivity).
  rewrite !recent_context_window by discriminate. simpl.
  rewrite !length_map. unfold lastN. rewrite length_drop, Hlen.
  split; reflexivity.
Defined.

(** *** The aggregates over time *)

Lemma tidy_pre_save (now : Z) (c : Chat) : tidy (pre_save now c).
Proof.
  unfold tidy, pre_save.
  destruct (messages c) as [|m ms] eqn:Hms; [congruence|].
  cbn [analytics set_analytics messages totalMessages averageResponseTime
       userSatisfaction].
  rewrite Hms. intros _.
  split; [reflexivity|]. split; [reflexivity|].
  destruct (omap rating_of (m :: ms)); [congruence | reflexivity].
Qed.

Lemma keeps_tidy_steady {A} (m : JSM A) : steady m → keeps_tidy m.
Proof. intros Hm w Hw. rewrite Hm. exact Hw. Qed.

Lemma keeps_tidy_bind {A B} (m : JSM A) (k : A → JSM B) :
  keeps_tidy m → (∀ a, keeps_tidy (k a)) → keeps_tidy (JS.bind m k).
Proof.
  intros Hm Hk w Hw. specialize (Hm w Hw). unfold JS.bind.
  destruct (m w) as [[a|e] w1]; simpl in *; [|exact Hm].
  apply Hk, Hm.
Qed.

Lemma keeps_tidy_try {A} (m : JSM A) (h : error → JSM A) :
  keeps_tidy m → (∀ e, keeps_tidy (h e)) → keeps_tidy (JS.try_catch m h).
Proof.
  intros Hm Hh w Hw. specialize (Hm w Hw). unfold JS.try_catch.
  destruct (m w) as [[a|e] w1]; simpl in *; [exact Hm|].
  apply Hh, Hm.
Qed.

Lemma keeps_tidy_detached {A} (m : JSM A) :
  keeps_tidy m → keeps_tidy (JS.detached m).
Proof. intros Hm w Hw. apply Hm, Hw. Qed.

Lemma keeps_tidy_save (chat : ChatObj) : keeps_tidy (save chat).
Proof.
  intros w Hw.
  apply (wp_elim (save chat) w (λ _ w', all_tidy (chats w'))).
  apply save_spec. destruct chat as [k c| |]; [|intros _; exact Hw..].
  split.
  - intros e w' ->. exact Hw.
  - intros w' -> k' c' Hc'.
    destruct (decide (k' = k)) as [-> | Hne].
    + rewrite lookup_insert_eq in Hc'. injection Hc' as <-.
      apply tidy_pre_save.
    + rewrite lookup_insert_ne in Hc' by congruence. eapply Hw, Hc'.
Qed.

Ltac tidy_step :=
  match goal with
  | |- keeps_tidy (save _) => apply keeps_tidy_save
  | |- keeps_tidy (JS.bind _ _) => apply keeps_tidy_bind; [|intros ?]
  | |- keeps_tidy (JS.try_catch _ _) => apply keeps_tidy_try; [|intros ?]
  | |- keeps_tidy (JS.detached _) => apply keeps_tidy_detached
  | |- keeps_tidy (match ?x with _ => _ end) => destruct x
  | |- keeps_tidy (if ?b then _ else _) => destruct b
  | |- keeps_tidy _ => apply keeps_tidy_steady; solve [steady]
  end.

Lemma keeps_tidy_getChat (roomId : string) : keeps_tidy (getChat roomId).
Proof.
  apply keeps_tidy_steady. intros w.
  apply (preserves_getChat chats); reflexivity.
Qed.

Lemma keeps_tidy_pause_all (inactiveChats : list ChatObj) :
  keeps_tidy (pause_all inactiveChats).
Proof.
  induction inactiveChats as [|chat rest IH]; simpl.
  - apply keeps_tidy_steady. steady.
  - unfold as_document. repeat first [exact IH | tidy_step].
Qed.

Lemma keeps_tidy_fresh_oid : keeps_tidy fresh_oid.
Proof. intros w Hw. exact Hw. Qed.

Ltac tidy :=
  repeat first
    [ apply keeps_tidy_getChat | apply keeps_tidy_pause_all
    | apply keeps_tidy_fresh_oid | tidy_step ].

Lemma keeps_tidy_joinChat (userId roomId : string) :
  keeps_tidy (joinChat userId roomId).
Proof.
  unfold joinChat, rethrowing, addParticipant, participants_of, as_document,
    Date_now.
  tidy.
Qed.

Lemma keeps_tidy_saveMessage (messageData : MessageData) :
  keeps_tidy (saveMessage messageData).
Proof.
  unfold saveMessage, rethrowing, addMessage, as_document, Date_now.
  cbv zeta. tidy.
Qed.

Lemma keeps_tidy_addMessageFeedback (roomId : string) (messageId : nat)
    (feedback : FeedbackArg) :
  keeps_tidy (addMessageFeedback roomId messageId feedback).
Proof.
  unfold addMessageFeedback, rethrowing, updateChatAnalytics, as_document,
    Date_now.
  tidy.
Qed.

Lemma keeps_tidy_endChat (roomId userId : string) :
  keeps_tidy (endChat roomId userId).
Proof.
  unfold endChat, rethrowing, removeParticipant, participants_of,
    as_document, Date_now.
  tidy.
Qed.

Lemma keeps_tidy_archiveChat (roomId userId : string) :
  keeps_tidy (archiveChat roomId userId).
Proof.
  unfold archiveChat, rethrowing. tidy.
Qed.

Lemma keeps_tidy_cleanupInactiveChats : keeps_tidy cleanupInactiveChats.
Proof.
  unfold cleanupInactiveChats, Date_now. tidy.
Qed.

Lemma keeps_tidy_perform (op : Op) (w : World) :
  all_tidy (chats w) → all_tidy (chats (perform op w)).
Proof.
  destruct op; simpl; [..|auto].
  - apply keeps_tidy_joinChat.
  - apply keeps_tidy_saveMessage.
  - apply keeps_tidy_addMessageFeedback.
  - apply keeps_tidy_endChat.
  - apply keeps_tidy_archiveChat.
  - apply keeps_tidy_cleanupInactiveChats.
Qed.

(** X20. The stored aggregates follow the messages.  From a collection
    in which they agree with the messages, whatever is done afterwards
    (joining, saving messages, feedback, ending, archiving, cleanup,
    commands that fail, a cache that comes and goes), every stored
    conversation that has messages has their number as [totalMessages],
    the mean of their response times as [averageResponseTime] and, when
    some are rated, the mean of the ratings as [userSatisfaction]. *)
Theorem aggregates_follow_messages (ops : list Op) (w : World) :
  all_tidy (chats w) → all_tidy (chats (perform_all ops w)).
Proof.
  revert w. induction ops as [|op ops IH]; intros w Hw; [exact Hw|].
  simpl. apply IH, keeps_tidy_perform, Hw.
Qed.

Lemma aggregates_follow_messages_witness :
  ∃ c,
    chats Scenario.rated !! "room_1" = Some c
    ∧ totalMessages (analytics c) = 3%nat
    ∧ (userSatisfaction (analytics c) == 5)%Q.
Proof.
  assert (all_tidy (chats Scenario.rated)) as Htidy.
  { apply aggregates_follow_messages. intros k c Hc.
    unfold Scenario.idle in Hc. cbn [chats] in Hc.
    apply lookup_insert_Some in Hc as [[_ <-] | [_ Hc]];
      [intros Hms; contradiction Hms; reflexivity|].
    rewrite lookup_empty in Hc. discriminate Hc. }
  destruct (chats Scenario.rated !! "room_1") as [c|] eqn:Hc;
    [|vm_compute in Hc; discriminate Hc].
  exists c. split; [reflexivity|].
  assert (List.length (messages c) = 3%nat
          ∧ omap rating_of (messages c) = [5%Q]) as [Hlen Hrated]
    by (vm_compute in Hc; injection Hc as <-; split; reflexivity).
  destruct (Htidy "room_1" c Hc) as (Htotal & _ & Hsat).
  { intros Hnil. rewrite Hnil in Hlen. discriminate Hlen. }
  split; [rewrite Htotal; exact Hlen|].
  rewrite Hsat by (rewrite Hrated; discriminate).
  rewrite Hrated. reflexivity.
Defined.

(** *** Leaving a conversation *)


(** *** Joining for the first time *)



End ChatFacts.

(** ** The analytics service *)

Module AnalyticsFacts.
Import ChatModel AnalyticsService.

(** X23. The retention rate is 0 when there are no users at all, and
    otherwise the share of active users in percent, between 0 and 100
    when the active users are among the users. *)
Theorem retention_rate_bounds (activeUsers totalUsers : Q) :
  (0 <= activeUsers)%Q → (activeUsers <= totalUsers)%Q →
  (0 <= calculateRetentionRate activeUsers totalUsers)%Q
  ∧ (calculateRetentionRate activeUsers totalUsers <= 100)%Q
  ∧ (totalUsers == 0 → calculateRetentionRate activeUsers totalUsers = 0)%Q
  ∧ (¬ totalUsers == 0 →
     calculateRetentionRate activeUsers totalUsers * totalUsers
     == activeUsers * 100)%Q.
Proof.
  intros Hpos Hle. unfold calculateRetentionRate.
  destruct (Qeq_bool totalUsers 0) eqn:Hz.
  - apply Qeq_bool_iff in Hz.
    split; [lra|]. split; [lra|]. split; [reflexivity | contradiction].
  - apply Qeq_bool_neq in Hz.
    assert (0 < totalUsers)%Q as Htot by lra.
    split.
    + apply Qmult_le_0_compat; [|lra].
      apply Qle_shift_div_l; lra.
    + split.
      * assert (activeUsers / totalUsers <= 1)%Q
          by (apply Qle_shift_div_r; lra). lra.
      * split; [contradiction|]. intros _. field. exact Hz.
Qed.

Lemma retention_rate_bounds_witness :
  (calculateRetentionRate 3 4 == 75)%Q
  ∧ calculateRetentionRate 0 0 = 0%Q.
Proof.
  destruct (retention_rate_bounds 3 4) as (_ & _ & _ & Hrate);
    [discriminate.. |].
  destruct (retention_rate_bounds 0 0) as (_ & _ & Hzero & _);
    [discriminate.. |].
  split; [|apply Hzero; reflexivity].
  assert (¬ (4 == 0)%Q) as H4 by discriminate.
  specialize (Hrate H4). lra.
Defined.

(** X24. With counts that are not negative, the overall sentiment is
    [positive] exactly when the positive messages are more than 60% of
    all counted, [negative] exactly when the negative ones are, and
    [neutral] otherwise, also when nothing was counted. *)
Theorem overall_sentiment_majority (sentimentStats : list SentimentStat) :
  let pos := count_of "positive" sentimentStats in
  let neg := count_of "negative" sentimentStats in
  let neu := count_of "neutral" sentimentStats in
  (0 <= pos)%Q → (0 <= neg)%Q → (0 <= neu)%Q →
  (calculateOverallSentiment sentimentStats = positive
   ↔ (0.6 * (pos + neg + neu) < pos)%Q)
  ∧ (calculateOverallSentiment sentimentStats = negative
     ↔ (0.6 * (pos + neg + neu) < neg)%Q).
Proof.
  intros pos neg neu Hpos Hneg Hneu. unfold calculateOverallSentiment.
  fold pos neg neu.
  destruct (Qeq_bool (pos + neg + neu) 0) eqn:Hz.
  - apply Qeq_bool_iff in Hz.
    split; (split; [discriminate | intros; lra]).
  - apply Qeq_bool_neq in Hz.
    assert (0 < pos + neg + neu)%Q as Htot by lra.
    assert (∀ x, (0.6 < x / (pos + neg + neu))%Q
                 ↔ (0.6 * (pos + neg + neu) < x)%Q) as Hratio.
    { intros x. split; intros H.
      - apply (Qmult_lt_r _ _ (pos + neg + neu)) in H; [|exact Htot].
        assert (x / (pos + neg + neu) * (pos + neg + neu) == x)%Q as Hx
          by (field; exact Hz).
        rewrite Hx in H. exact H.
      - apply Qlt_shift_div_l; [exact Htot | lra]. }
    simpl.
    destruct (gt (pos / (pos + neg + neu)) 0.6) eqn:Hp.
    + apply AIFacts.gt_true_iff, Hratio in Hp.
      split; (split; [intros; try discriminate; lra | intros; try reflexivity; lra]).
    + apply AIFacts.gt_false_iff in Hp.
      assert (¬ (0.6 * (pos + neg + neu) < pos)%Q) as Hp'
        by (rewrite <- Hratio; lra).
      destruct (gt (neg / (pos + neg + neu)) 0.6) eqn:Hn.
      * apply AIFacts.gt_true_iff, Hratio in Hn.
        split; (split; [intros; try discriminate; lra | intros; try reflexivity; lra]).
      * apply AIFacts.gt_false_iff in Hn.
        assert (¬ (0.6 * (pos + neg + neu) < neg)%Q) as Hn'
          by (rewrite <- Hratio; lra).
        split; (split; [discriminate | intros; lra]).
Qed.

Lemma overall_sentiment_majority_witness :
  calculateOverallSentiment
    [ mkSentimentStat "neutral" 1; mkSentimentStat "positive" 7;
      mkSentimentStat "negative" 2 ] = positive.
Proof.
  apply (overall_sentiment_majority
           [ mkSentimentStat "neutral" 1; mkSentimentStat "positive" 7;
             mkSentimentStat "negative" 2 ]);
    [discriminate.. | reflexivity].
Defined.

Lemma interval_lookup (now : Z) (timeRange : string) (k : nat) :
  (k < 24)%nat →
  getTimeIntervals now timeRange !! k
  = Some (interval_at now timeRange (23 - Z.of_nat k)).
Proof.
  intros Hk. unfold getTimeIntervals.
  rewrite list_lookup_fmap, lookup_seq_lt by exact Hk. simpl.
  do 2 f_equal. lia.
Qed.

(** X25. For a range whose bucket width is a number [d], the trend
    analysis gets 24 buckets of width [d], each ending where the next one
    starts; the first starts [23 * d] before now, and the last one starts
    now and ends [d] in the future: the buckets cover [now - 23 d] to
    [now + d], not the [24 * d] before now. *)
Theorem time_intervals_shifted (now : Z) (timeRange : string) (d : Z) :
  getIntervalDuration timeRange = Some d →
  length (getTimeIntervals now timeRange) = 24%nat
  ∧ (∀ k iv, getTimeIntervals now timeRange !! k = Some iv →
       ∃ start, iv_start iv = Some start ∧ iv_end iv = Some (start + d)%Z)
  ∧ (∀ k iv iv', getTimeIntervals now timeRange !! k = Some iv →
       getTimeIntervals now timeRange !! S k = Some iv' →
       iv_start iv' = iv_end iv)
  ∧ (iv_start <$> head (getTimeIntervals now timeRange))
    = Some (Some (now - 23 * d)%Z)
  ∧ last (getTimeIntervals now timeRange)
    = Some (mkInterval (Some now) (Some (now + d)%Z)).
Proof.
  intros Hd.
  assert (length (getTimeIntervals now timeRange) = 24%nat) as Hlen
    by reflexivity.
  assert (∀ k iv, getTimeIntervals now timeRange !! k = Some iv →
            (k < 24)%nat
            ∧ iv = mkInterval (Some (now - (23 - Z.of_nat k) * d)%Z)
                              (Some (now - (22 - Z.of_nat k) * d)%Z))
    as Hat.
  { intros k iv Hk.
    assert (k < 24)%nat as Hlt
      by (rewrite <- Hlen; eapply lookup_lt_Some; exact Hk).
    split; [exact Hlt|].
    rewrite interval_lookup in Hk by exact Hlt.
    injection Hk as <-. unfold interval_at. rewrite Hd. simpl.
    do 3 f_equal. lia. }
  split; [exact Hlen|].
  split; [|split; [|split]].
  - intros k iv Hk. destruct (Hat k iv Hk) as [_ ->]. simpl.
    eexists. split; [reflexivity|]. f_equal. lia.
  - intros k iv iv' Hk Hk'.
    destruct (Hat k iv Hk) as [_ ->].
    destruct (Hat (S k) iv' Hk') as [_ ->]. simpl. f_equal. lia.
  - unfold getTimeIntervals, interval_at. rewrite Hd. simpl.
    do 2 f_equal.
  - unfold getTimeIntervals, interval_at. rewrite Hd. simpl.
    do 3 f_equal; lia.
Qed.

Lemma time_intervals_shifted_witness :
  last (getTimeIntervals 1000000000 "30d")
  = Some (mkInterval (Some 1000000000%Z) (Some 1108000000%Z)).
Proof.
  exact (proj2 (proj2 (proj2 (proj2
    (time_intervals_shifted 1000000000 "30d" 108000000 eq_refl))))).
Defined.

(** X26. For every range name that is not a name inherited from
    [Object.prototype], the window of the dashboard queries and the bucket
    width are numbers, the width is positive, and 24 buckets are as long as
    the window; except for ['7d'], whose 24 buckets are one hour each and
    cover a seventh of the window. *)
Theorem window_and_buckets (now : Z) (timeRange : string) :
  inherited timeRange = false →
  ∃ start d,
    getTimeFilter now timeRange = Some start
    ∧ getIntervalDuration timeRange = Some d
    ∧ (0 < d)%Z
    ∧ (now - start = (if String.eqb timeRange "7d" then 7 else 1) * (24 * d))%Z.
Proof.
  intros Hown. unfold getTimeFilter, getIntervalDuration. rewrite Hown.
  repeat match goal with
         | |- context [String.eqb timeRange ?s] =>
             destruct (String.eqb_spec timeRange s) as [->|?]
         end;
    simpl;
    (eexists; eexists;
     (split; [reflexivity|]); (split; [reflexivity|]);
     split; [reflexivity | ]).
  all: match goal with
       | |- (_ - (_ - ?window) = ?buckets)%Z =>
           replace buckets with window by reflexivity; ring
       end.
Qed.

Lemma window_and_buckets_witness :
  ∃ start d,
    getTimeFilter 1000000000 "7d" = Some start
    ∧ getIntervalDuration "7d" = Some d
    ∧ (0 < d)%Z
    ∧ (1000000000 - start = 7 * (24 * d))%Z.
Proof.
  exact (window_and_buckets 1000000000 "7d" eq_refl).
Defined.

(** The messages tracked one after the other. *)
Lemma sum_snoc (xs : list Q) (x : Q) :
  (sum (xs ++ [x]) == sum xs + x)%Q.
Proof.
  unfold sum. rewrite fold_left_app. simpl. reflexivity.
Qed.

Lemma count_not_negative (n : nat) : (0 <= inject_Z (Z.of_nat n))%Q.
Proof.
  change 0%Q with (inject_Z 0). rewrite <- Zle_Qle. lia.
Qed.

Lemma running_average_invariant (responseTimes : list Q)
    (realTimeStats : RealTimeStats) :
  let stats :=
    fold_left (λ stats rt, updateRealTimeMetrics (Some rt) stats)
              responseTimes (resetRealTimeMetrics realTimeStats) in
  messagesPerMinute stats = length responseTimes
  ∧ ∃ avg, rt_averageResponseTime stats = Some avg
           ∧ (avg * inject_Z (Z.of_nat (length responseTimes))
              == sum responseTimes)%Q.
Proof.
  cbv zeta. induction responseTimes as [|x xs IH] using rev_ind.
  - split; [reflexivity|]. exists 0%Q. split; reflexivity.
  - rewrite fold_left_app. cbn [fold_left].
    destruct IH as (Hcount & avg & Havg & Hsum).
    destruct (fold_left _ xs _) as [count currentAvg].
    cbn [messagesPerMinute rt_averageResponseTime] in Hcount, Havg.
    subst count currentAvg.
    unfold updateRealTimeMetrics.
    cbn [messagesPerMinute rt_averageResponseTime].
    rewrite length_app. cbn [length].
    split; [lia|]. eexists. split; [reflexivity|].
    rewrite sum_snoc, <- Hsum.
    replace (length xs + 1)%nat with (S (length xs)) by lia.
    rewrite Nat2Z.inj_succ. unfold Z.succ. rewrite inject_Z_plus.
    field. pose proof (count_not_negative (length xs)). lra.
Qed.

(** X27. After a reset, the real-time statistics of any sequence of
    messages that carry a response time are their number and the mean of
    their response times. *)
Theorem running_average_after_reset (responseTimes : list Q)
    (realTimeStats : RealTimeStats) :
  responseTimes ≠ [] →
  let stats :=
    fold_left (λ stats rt, updateRealTimeMetrics (Some rt) stats)
              responseTimes (resetRealTimeMetrics realTimeStats) in
  messagesPerMinute stats = length responseTimes
  ∧ ∃ avg, rt_averageResponseTime stats = Some avg
           ∧ (avg == mean responseTimes)%Q.
Proof.
  intros Hne stats.
  destruct (running_average_invariant responseTimes realTimeStats)
    as (Hcount & avg & Havg & Hsum).
  split; [exact Hcount|]. exists avg. split; [exact Havg|].
  unfold mean. rewrite <- Hsum. field.
  change 0%Q with (inject_Z 0). rewrite inject_Z_injective.
  destruct responseTimes; [congruence | simpl; lia].
Qed.

Lemma running_average_after_reset_witness :
  ∃ avg,
    rt_averageResponseTime
      (fold_left (λ stats rt, updateRealTimeMetrics (Some rt) stats)
                 [100; 200; 600]%Q
                 (resetRealTimeMetrics initial_realTimeStats)) = Some avg
    ∧ (avg == 300)%Q.
Proof.
  destruct (running_average_after_reset [100; 200; 600]%Q
              initial_realTimeStats) as (_ & avg & Havg & Hmean);
    [discriminate|].
  exists avg. split; [exact Havg|]. rewrite Hmean. reflexivity.
Defined.

(** X28. An average that is not a number stays so whatever is tracked:
    the service, which starts without an average, reports none until the
    statistics are reset, and a single message without a response time
    spoils the average until the next reset. *)
Theorem average_stays_not_a_number (responseTimes : list (option Q))
    (realTimeStats : RealTimeStats) :
  rt_averageResponseTime realTimeStats = None →
  rt_averageResponseTime
    (fold_left (λ stats rt, updateRealTimeMetrics rt stats)
               responseTimes realTimeStats) = None.
Proof.
  revert realTimeStats.
  induction responseTimes as [|rt rts IH]; intros realTimeStats Hnan.
  - exact Hnan.
  - simpl. apply IH. unfold updateRealTimeMetrics. rewrite Hnan.
    reflexivity.
Qed.

Lemma average_stays_not_a_number_witness :
  rt_averageResponseTime
    (fold_left (λ stats rt, updateRealTimeMetrics rt stats)
               [Some 100%Q; Some 200%Q] initial_realTimeStats) = None
  ∧ rt_averageResponseTime
      (fold_left (λ stats rt, updateRealTimeMetrics rt stats)
                 [Some 100%Q]
                 (updateRealTimeMetrics None
                    (resetRealTimeMetrics initial_realTimeStats))) = None.
Proof.
  split; apply average_stays_not_a_number; reflexivity.
Defined.

End AnalyticsFacts.
